(** * Tick-to-candle aggregation and the yesterday-high/low breakout strategy

    A shallow embedding of the real-time ingest-to-signal pipeline:

    - [src/utils/candle_aggregator.py], module [CandleAggregator];
    - [src/stretegies/yesterday_high_low.py], module
      [YesterdayHighLowStrategy];
    - the session bookkeeping, the working orders and the windows of a
      historical download of [src/clients/capitap_client.py], module
      [CapitalClient];
    - [src/utils/csv_ops.py], module [CsvOps];
    - the tick callback of [src/algo_trader_main.py], module
      [AlgoTrader].

    Modelling conventions.

    - A Python [float] is the rational [Q] that the double denotes;
      comparisons are the strict and non-strict orders of [Q].  The
      arithmetic of the strategy rounds every result to the nearest
      double, as Python does, and [round(x, 2)] follows Python's; the
      number of points of a download is computed exactly.  Infinities,
      NaN and results beyond the range of a double are outside the
      model; a division by zero raises, as in Python.
    - A [datetime.date] is its proleptic Gregorian ordinal
      ([date.toordinal()]) in [Z]; a naive [datetime.datetime] is a record
      of that ordinal and the four clock fields.  The finite range of the
      Python types (years 1 to 9999) is not modelled.
    - Python dictionaries keyed by epic are [gmap string _].
    - A method is a function from the object to a result and the object
      as the call leaves it; a Python exception is the [Raise] result.
    - The wall clock ([datetime.now()]) is an explicit argument, and so
      are the answers of the broker, the parsing and printing of dates
      ([fromisoformat], [isoformat]) and the column labels that pandas
      reads from a header.
    - The client is its session together with the requests it has
      sent, in order; a login puts its own two requests there.
    - A tick carries a numeric bid, and the levels file is a table that
      has been read, with its three columns and numeric levels; what
      the code does outside these cases is said where the types are
      declared.
    - Log lines and the human-readable ["reason"] text are not modelled. *)

From Stdlib Require Import ZArith QArith Qabs Qround Lia List Bool.
From Stdlib Require Import Sorted Ascii.
From stdpp Require Import gmap strings.

Local Open Scope Z_scope.

(** ** Exceptions and mutable objects

    A method of an object of type [S] returning an [A] is a function
    [S -> res A * S]: the result is a value or a raised exception, and the
    object as the call leaves it. *)

Inductive exn : Type :=
  | KeyError
  | TypeError
  | ValueError
  | ZeroDivisionError
  | RuntimeError
  | LoginError.

Inductive res (A : Type) : Type :=
  | Ok (a : A)
  | Raise (e : exn).

Arguments Ok {A} a.
Arguments Raise {A} e.

Definition M (S A : Type) : Type := S -> res A * S.

Definition ret {S A : Type} (a : A) : M S A := fun s => (Ok a, s).

Definition raise {S A : Type} (e : exn) : M S A := fun s => (Raise e, s).

Definition bind {S A B : Type} (m : M S A) (k : A -> M S B) : M S B :=
  fun s =>
    match m s with
    | (Ok a, s') => k a s'
    | (Raise e, s') => (Raise e, s')
    end.

Definition get {S : Type} : M S S := fun s => (Ok s, s).

Definition modify {S : Type} (f : S -> S) : M S unit := fun s => (Ok tt, f s).

(** [d[k]] on a dictionary field: [KeyError] when the key is absent. *)
Definition getitem {S V : Type} (d : S -> gmap string V) (k : string)
  : M S V :=
  fun s => match d s !! k with
           | Some v => (Ok v, s)
           | None => (Raise KeyError, s)
           end.

Notation "'do' x <- m ; k" := (bind m (fun x => k))
  (at level 10, x name, m at level 100, k at level 200,
   format "'[v' 'do'  x  <-  m ; '/' k ']'").

(** ** Rational prices *)

Definition Qltb (x y : Q) : bool :=
  match (x ?= y)%Q with Lt => true | _ => false end.

Definition Qgtb (x y : Q) : bool := Qltb y x.

(** Python's two-argument [min] and [max] keep the first argument unless
    the second is strictly smaller (resp. larger). *)
Definition py_min (a b : Q) : Q := if Qltb b a then b else a.
Definition py_max (a b : Q) : Q := if Qgtb b a then b else a.

(** The integer nearest to [x], ties to the even one. *)
Definition round_half_even (x : Q) : Z :=
  let n := Qfloor x in
  let r := (x - inject_Z n)%Q in
  match (r ?= 1 # 2)%Q with
  | Lt => n
  | Gt => n + 1
  | Eq => if Z.even n then n else n + 1
  end.

(** ** Double precision

    A Python [float] is an IEEE 754 double; it is modelled by the
    rational that it denotes.  Every arithmetic operation gives the
    double nearest to the exact result, ties going to the even
    mantissa. *)

(** The power [2 ^ n] for an integer [n] of either sign. *)
Definition pow2 (n : Z) : Q :=
  if 0 <=? n then inject_Z (2 ^ n) else 1 # Z.to_pos (2 ^ (- n)).

(** The integer [e] with [2 ^ e <= x < 2 ^ (e + 1)], for [x > 0]. *)
Definition ilog2 (x : Q) : Z :=
  let e := Z.log2 (Qnum x) - Z.log2 (Zpos (Qden x)) in
  if Qle_bool (pow2 e) x then e else e - 1.

(** The spacing of the doubles around [x]: 53 bits of mantissa, and the
    spacing of the subnormal numbers below [2 ^ -1022]. *)
Definition ulp (x : Q) : Q :=
  pow2 (Z.max (ilog2 (Qabs x)) (-1022) - 52).

(** The double nearest to [x]. *)
Definition fl (x : Q) : Q :=
  if Qeq_bool x 0 then 0
  else Qred (inject_Z (round_half_even (x / ulp x)) * ulp x).

(** [x + y], [x - y], [x * y] and [x / y] on floats. *)
Definition fadd (x y : Q) : Q := fl (x + y).
Definition fsub (x y : Q) : Q := fl (x - y).
Definition fmul (x y : Q) : Q := fl (x * y).
Definition fdiv (x y : Q) : Q := fl (x / y).

(** [round(x, 2)] on a float: the exact value of [x] is rounded to the
    nearest multiple of 1/100, ties to the even one, and the result is
    the double nearest to that multiple. *)
Definition round2 (x : Q) : Q :=
  fl (inject_Z (round_half_even (x * 100)) / 100).

(** ** Dates and datetimes *)

Module Datetime.

(** A calendar date, as [date.toordinal()]. *)
Definition date : Type := Z.

(** [date.weekday()]: Monday is 0, Sunday is 6. *)
Definition weekday (d : date) : Z := (d + 6) mod 7.

(** [d - timedelta(days=n)]. *)
Definition date_sub_days (d : date) (n : Z) : date := d - n.

Record datetime : Type := mkDatetime {
  dt_date : date;
  dt_hour : Z;
  dt_minute : Z;
  dt_second : Z;
  dt_microsecond : Z
}.

Definition valid_datetime (t : datetime) : Prop :=
  0 <= dt_hour t < 24 /\ 0 <= dt_minute t < 60 /\
  0 <= dt_second t < 60 /\ 0 <= dt_microsecond t < 1000000.

(** Lexicographic comparison of the fields, as [datetime._cmp]. *)
Definition lex (c1 c2 : comparison) : comparison :=
  match c1 with Eq => c2 | _ => c1 end.

Definition dt_cmp (a b : datetime) : comparison :=
  lex (dt_date a ?= dt_date b)
    (lex (dt_hour a ?= dt_hour b)
      (lex (dt_minute a ?= dt_minute b)
        (lex (dt_second a ?= dt_second b)
             (dt_microsecond a ?= dt_microsecond b)))).

Definition dt_gtb (a b : datetime) : bool :=
  match dt_cmp a b with Gt => true | _ => false end.

Definition dt_ltb (a b : datetime) : bool :=
  match dt_cmp a b with Lt => true | _ => false end.

(** Microseconds since midnight of ordinal 0. *)
Definition dt_to_us (t : datetime) : Z :=
  (((dt_date t * 24 + dt_hour t) * 60 + dt_minute t) * 60 + dt_second t)
    * 1000000 + dt_microsecond t.

Definition dt_of_us (u : Z) : datetime :=
  {| dt_date := u / 86400000000;
     dt_hour := (u / 3600000000) mod 24;
     dt_minute := (u / 60000000) mod 60;
     dt_second := (u / 1000000) mod 60;
     dt_microsecond := u mod 1000000 |}.

(** [t + timedelta(seconds=n)]: the sum is renormalised into fields. *)
Definition dt_add_seconds (t : datetime) (n : Z) : datetime :=
  dt_of_us (dt_to_us t + n * 1000000).

(** [t.replace(minute=m, second=0, microsecond=0)]. *)
Definition replace_minute (t : datetime) (m : Z) : datetime :=
  {| dt_date := dt_date t; dt_hour := dt_hour t; dt_minute := m;
     dt_second := 0; dt_microsecond := 0 |}.

(** [t.replace(second=s, microsecond=0)]. *)
Definition replace_second (t : datetime) (s : Z) : datetime :=
  {| dt_date := dt_date t; dt_hour := dt_hour t;
     dt_minute := dt_minute t; dt_second := s; dt_microsecond := 0 |}.

End Datetime.

Import Datetime.

(** ** [get_previous_trading_day] *)

Definition get_previous_trading_day (today : date) : date :=
  if weekday today =? 0 then date_sub_days today 3
  else if weekday today =? 6 then date_sub_days today 2
  else date_sub_days today 1.

(** ** Market data *)

(** The tick dictionary built by the streaming callback, for a quote
    that carries its prices: the bid is a finite number.  [stream_ticks]
    reads the prices with [p.get], so a quote without a bid gives a
    dictionary whose ["bid"] is [None].  Such a dictionary is not a tick
    of the model: on it [process_tick] stores [None] in a new candle, or
    raises TypeError when it compares [None] with the high of the candle
    in progress. *)
Record tick : Type := mkTick {
  epic : string;
  bid : Q;
  ask : Q;
  bid_qty : Q;
  ask_qty : Q;
  timestamp : datetime;
  received_at : option datetime
}.

(** The candle dictionary.  The keys ["last_update"], ["epic"],
    ["end_time"] and ["closed_at"] are absent until the aggregator sets
    them. *)
Record candle : Type := mkCandle {
  open : Q;
  high : Q;
  low : Q;
  close : Q;
  volume : Z;
  start_time : datetime;
  last_update : option datetime;
  candle_epic : option string;
  end_time : option datetime;
  closed_at : option datetime
}.

(** ** The candle aggregator *)

Module CandleAggregator.

Inductive resolution : Type :=
  | MINUTE | MINUTE_5 | MINUTE_15 | MINUTE_30
  | HOUR_1 | HOUR_4 | DAY_1 | WEEK_1.

Definition resolution_name (r : resolution) : string :=
  match r with
  | MINUTE => "MINUTE"
  | MINUTE_5 => "MINUTE_5"
  | MINUTE_15 => "MINUTE_15"
  | MINUTE_30 => "MINUTE_30"
  | HOUR_1 => "HOUR_1"
  | HOUR_4 => "HOUR_4"
  | DAY_1 => "DAY_1"
  | WEEK_1 => "WEEK_1"
  end.

Definition mapping : list (string * Z) :=
  [ ("MINUTE", 60); ("MINUTE_5", 300); ("MINUTE_15", 900);
    ("MINUTE_30", 1800); ("HOUR_1", 3600); ("HOUR_4", 14400);
    ("DAY_1", 86400); ("WEEK_1", 604800) ].

(** [mapping.get(resolution)]. *)
Definition _get_resolution_second (resolution : string) : option Z :=
  snd <$> List.find (fun kv => String.eqb (fst kv) resolution) mapping.

(** The aggregator object.  [resolution_seconds] is the integer that
    [_get_resolution_second] found for the constructor's argument; a
    name outside the table stores [None] in Python and faults on the
    first tick, and is not an aggregator of this model.  The CSV sink
    ([csv_storage]) only receives a copy of each closed candle, swallows
    its own failures and is left out. *)
Record t : Type := mkAggregator {
  resolution_seconds : Z;
  candle_data : gmap string candle;
  current_candle_start : gmap string datetime;
  last_candle : gmap string candle;
  last_price : gmap string Q;
  last_tick : gmap string tick;
  tick_count : Z;
  last_tick_time : option datetime;
  last_candle_time : option datetime
}.

(** [CandleAggregator(resolution)] for a name of the table. *)
Definition init (r : resolution) : option t :=
  secs ← _get_resolution_second (resolution_name r);
  Some {| resolution_seconds := secs;
          candle_data := ∅;
          current_candle_start := ∅;
          last_candle := ∅;
          last_price := ∅;
          last_tick := ∅;
          tick_count := 0;
          last_tick_time := None;
          last_candle_time := None |}.

Definition _calculate_candle_start (a : t) (timestamp : datetime)
  : datetime :=
  if 60 <=? resolution_seconds a then
    let minutes := resolution_seconds a / 60 in
    replace_minute timestamp
      (dt_minute timestamp - dt_minute timestamp mod minutes)
  else
    replace_second timestamp
      (dt_second timestamp
       - dt_second timestamp mod resolution_seconds a).

Definition new_candle (price : Q) (start : datetime) : candle :=
  {| open := price; high := price; low := price; close := price;
     volume := 1; start_time := start; last_update := None;
     candle_epic := None; end_time := None; closed_at := None |}.

Definition _start_new_candle (epic : string) (price : Q)
    (start : datetime) : M t unit :=
  modify (fun a =>
    {| resolution_seconds := resolution_seconds a;
       candle_data := <[epic := new_candle price start]> (candle_data a);
       current_candle_start := <[epic := start]> (current_candle_start a);
       last_candle := last_candle a;
       last_price := last_price a;
       last_tick := last_tick a;
       tick_count := tick_count a;
       last_tick_time := last_tick_time a;
       last_candle_time := last_candle_time a |}).

(** The frozen copy of an in-progress candle. *)
Definition freeze (c : candle) (epic : string) (end_ : datetime)
    (closed : datetime) : candle :=
  {| open := open c; high := high c; low := low c; close := close c;
     volume := volume c; start_time := start_time c;
     last_update := last_update c;
     candle_epic := Some epic; end_time := Some end_;
     closed_at := Some closed |}.

Definition _close_candle (now : datetime) (epic : string) (tk : tick)
  : M t candle :=
  do c <- getitem candle_data epic;
  do start <- getitem current_candle_start epic;
  do a <- get;
  let end_ := dt_add_seconds start (resolution_seconds a) in
  let frozen := freeze c epic end_ (default now (received_at tk)) in
  do _ <- modify (fun a =>
    {| resolution_seconds := resolution_seconds a;
       candle_data := candle_data a;
       current_candle_start := current_candle_start a;
       last_candle := <[epic := frozen]> (last_candle a);
       last_price := last_price a;
       last_tick := last_tick a;
       tick_count := tick_count a;
       last_tick_time := last_tick_time a;
       last_candle_time := Some end_ |});
  ret frozen.

(** The in-place update of the active candle. *)
Definition update_candle (c : candle) (bid_price : Q)
    (timestamp : datetime) : candle :=
  {| open := open c;
     high := py_max (high c) bid_price;
     low := py_min (low c) bid_price;
     close := bid_price;
     volume := volume c + 1;
     start_time := start_time c;
     last_update := Some timestamp;
     candle_epic := candle_epic c; end_time := end_time c;
     closed_at := closed_at c |}.

(** The real-time tracking at the head of [process_tick].  The clock is
    read once per call. *)
Definition track (now : datetime) (tk : tick) : M t unit :=
  modify (fun a =>
    {| resolution_seconds := resolution_seconds a;
       candle_data := candle_data a;
       current_candle_start := current_candle_start a;
       last_candle := last_candle a;
       last_price := <[epic tk := bid tk]> (last_price a);
       last_tick := <[epic tk := tk]> (last_tick a);
       tick_count := tick_count a + 1;
       last_tick_time := Some now;
       last_candle_time := last_candle_time a |}).

Definition process_tick (now : datetime) (tk : tick)
  : M t (option candle) :=
  let bid_price := bid tk in
  let timestamp := timestamp tk in
  do _ <- track now tk;
  do a <- get;
  let candle_start := _calculate_candle_start a timestamp in
  match candle_data a !! epic tk with
  | None =>
      do _ <- _start_new_candle (epic tk) bid_price candle_start;
      ret None
  | Some c =>
      do current <- getitem current_candle_start (epic tk);
      if dt_gtb candle_start current then
        do closed <- _close_candle now (epic tk) tk;
        do _ <- _start_new_candle (epic tk) bid_price candle_start;
        ret (Some closed)
      else
        do _ <- modify (fun a =>
          {| resolution_seconds := resolution_seconds a;
             candle_data :=
               <[epic tk := update_candle c bid_price timestamp]>
                 (candle_data a);
             current_candle_start := current_candle_start a;
             last_candle := last_candle a;
             last_price := last_price a;
             last_tick := last_tick a;
             tick_count := tick_count a;
             last_tick_time := last_tick_time a;
             last_candle_time := last_candle_time a |});
        ret None
  end.

(** Feeding a sequence of ticks, oldest first; the clock reading of each
    call comes with its tick. *)
Fixpoint process_ticks (tks : list (datetime * tick)) (a : t)
  : res (list (option candle)) * t :=
  match tks with
  | [] => (Ok [], a)
  | (now, tk) :: rest =>
      match process_tick now tk a with
      | (Ok r, a') =>
          match process_ticks rest a' with
          | (Ok rs, a'') => (Ok (r :: rs), a'')
          | (Raise e, a'') => (Raise e, a'')
          end
      | (Raise e, a') => (Raise e, a')
      end
  end.

(** The table value of a supported resolution. *)
Definition seconds_of (r : resolution) : Z :=
  match r with
  | MINUTE => 60
  | MINUTE_5 => 300
  | MINUTE_15 => 900
  | MINUTE_30 => 1800
  | HOUR_1 => 3600
  | HOUR_4 => 14400
  | DAY_1 => 86400
  | WEEK_1 => 604800
  end.

(** The aggregator was built for a name of the table. *)
Definition supported (a : t) : Prop :=
  exists r, resolution_seconds a = seconds_of r.

(** The two start-time records agree: every in-progress candle is filed
    under its own start time. *)
Definition wf (a : t) : Prop :=
  forall e c,
    candle_data a !! e = Some c ->
    current_candle_start a !! e = Some (start_time c).

(** [start] is the largest multiple of [secs] seconds that is not after
    [ts], instants being counted in microseconds. *)
Definition is_bucket_floor (secs : Z) (ts start : datetime) : Prop :=
  (secs * 1000000 | dt_to_us start)
  /\ dt_to_us start <= dt_to_us ts < dt_to_us start + secs * 1000000.

(** The bucket-floor statement for one resolution and one timestamp: the
    computed start is the floor, and the resolution divides a day. *)
Definition bucket_floor_claim (r : resolution) (ts : datetime) : Prop :=
  exists a,
    init r = Some a
    /\ is_bucket_floor (resolution_seconds a) ts
         (_calculate_candle_start a ts)
    /\ (resolution_seconds a | 86400).

(** What one tick leaves behind for its epic: the in-progress candle
    [c'], filed under its start, everything about the other epics and the
    resolution being as before. *)
Definition leaves (a a' : t) (e : string) (c' : candle) : Prop :=
  resolution_seconds a' = resolution_seconds a
  /\ candle_data a' = <[e := c']> (candle_data a)
  /\ current_candle_start a' =
       <[e := start_time c']> (current_candle_start a).

(** Folding a tick into a candle, and a run of ticks. *)
Definition fold_tick (c : candle) (tk : tick) : candle :=
  update_candle c (bid tk) (timestamp tk).

Definition fold_ticks (c : candle) (tks : list tick) : candle :=
  fold_left fold_tick tks c.

(** All ticks are of epic [e] and the aggregator computes the start
    [b] for each of them. *)
Definition same_start (a : t) (e : string) (b : datetime)
    (tks : list tick) : Prop :=
  Forall (fun tk => epic tk = e
                    /\ _calculate_candle_start a (timestamp tk) = b) tks.

(** All ticks are of epic [e] and fall in the bucket of the resolution
    that starts at [b]: [b] is a whole number of resolutions and each
    timestamp is at or after [b] and less than one resolution after
    it. *)
Definition same_bucket (a : t) (e : string) (b : datetime)
    (tks : list tick) : Prop :=
  Forall (fun tk => epic tk = e
                    /\ is_bucket_floor (resolution_seconds a)
                         (timestamp tk) b) tks.

(** The resolution is one of those up to one hour. *)
Definition up_to_one_hour (a : t) : Prop :=
  In (resolution_seconds a) [60; 300; 900; 1800; 3600].

(** Every tick of the run is answered with none. *)
Definition none_throughout (a : t) (tks : list (datetime * tick)) : Prop :=
  fst (process_ticks tks a) = Ok (map (fun _ => None) tks).

(** [m] is the largest (resp. smallest) of the bids [bs]. *)
Definition is_max (m : Q) (bs : list Q) : Prop :=
  In m bs /\ Forall (fun b => (b <= m)%Q) bs.

Definition is_min (m : Q) (bs : list Q) : Prop :=
  In m bs /\ Forall (fun b => (m <= b)%Q) bs.

(** *** Accessors *)

(** [get_current_price]: the latest bid of the epic. *)
Definition get_current_price (epic : string) (a : t) : option Q :=
  last_price a !! epic.

Definition get_last_tick (epic : string) (a : t) : option tick :=
  last_tick a !! epic.

Definition get_last_candle (epic : string) (a : t) : option candle :=
  last_candle a !! epic.

(** The ["ticks_received"] and ["active_epics"] entries of [get_stats];
    the epics are kept as a set, Python lists them in insertion order. *)
Definition ticks_received (a : t) : Z := tick_count a.

Definition active_epics (a : t) : gset string := dom (candle_data a).

(** *** Notions for the properties of runs *)

(** The shape of a candle: low below open and close, high above them, at
    least one tick. *)
Definition candle_ok (c : candle) : Prop :=
  (low c <= open c)%Q /\ (open c <= high c)%Q
  /\ (low c <= close c)%Q /\ (close c <= high c)%Q
  /\ 1 <= volume c.

Definition all_ok (a : t) : Prop :=
  forall e c, candle_data a !! e = Some c -> candle_ok c.

(** The candles a run returned for the epic [e], oldest first. *)
Definition is_of (e : string) (c : candle) : bool :=
  bool_decide (candle_epic c = Some e).

Definition emitted (e : string) (rs : list (option candle)) : list candle :=
  List.filter (is_of e) (omap id rs).

(** The ticks of a run that are of the epic [e]. *)
Definition ticks_of (e : string) (tks : list (datetime * tick))
  : list tick :=
  List.filter (fun tk => bool_decide (epic tk = e)) (map snd tks).

Definition in_progress_volume (e : string) (a : t) : Z :=
  match candle_data a !! e with
  | Some c => volume c
  | None => 0
  end.

Definition total_volume (cs : list candle) : Z :=
  fold_right (fun c n => volume c + n) 0 cs.

(** Every in-progress candle starts at a well-formed datetime. *)
Definition starts_valid (a : t) : Prop :=
  forall e c, candle_data a !! e = Some c -> valid_datetime (start_time c).

(** The start instants of the candles returned for [e], oldest first. *)
Definition emitted_starts (e : string) (rs : list (option candle))
  : list Z :=
  map (fun c => dt_to_us (start_time c)) (emitted e rs).

(** Every tick of the run carries a well-formed timestamp. *)
Definition timestamps_valid (tks : list (datetime * tick)) : Prop :=
  Forall (fun p => valid_datetime (timestamp (snd p))) tks.

(** The last element of [l], or [d] when [l] is empty. *)
Definition latest {A : Type} (l : list A) (d : option A) : option A :=
  match last l with
  | Some x => Some x
  | None => d
  end.

End CandleAggregator.

(** ** The breakout strategy *)

Module YesterdayHighLowStrategy.

Inductive side : Type := BUY | SELL.

Inductive decision : Type :=
  | INIT_DAY | NO_TRADE | C1 | C2 | INVALIDATED | SIGNAL | BLOCKED
  | REJECTED.

(** The ["order"] dictionary of a signal. *)
Record order : Type := mkOrder {
  order_epic : string;
  order_direction : option side;
  size : Q;
  orderType : string;
  level : Q;
  stopLevel : Q;
  profitLevel : Q
}.

(** The dictionary returned by [on_candle_close]. *)
Record signal : Type := mkSignal {
  time : datetime;
  decision_of : decision;
  order_of : option order
}.

(** One row of the levels CSV, restricted to the three columns the
    strategy requires.  The ["trading_day"] text is compared with the
    ISO form of a date and is modelled by that date.

    The levels file is modelled as it has been read: a table that has
    the three columns and whose levels are numbers.  Three failures of
    [load_yesterday_levels] are therefore outside the model:
    [pd.read_csv] raising on a file that is missing or cannot be parsed,
    the ValueError for a missing column, and [float] raising on a level
    that is not a number, which can happen after [y_high] has been
    overwritten. *)
Record levels_row : Type := mkRow {
  trading_day : date;
  high_bid : Q;
  low_bid : Q
}.

Record t : Type := mkStrategy {
  epic : string;
  account_balance : Q;
  risk_percent : Q;
  tp_pips : Q;
  pip_size : Q;
  contract_size : Q;
  today : option date;
  traded_today : bool;
  y_high : option Q;
  y_low : option Q;
  c1 : option candle;
  c2 : option candle;
  direction : option side
}.

(** [YesterdayHighLowStrategy(epic, account_balance=..., ...)]. *)
Definition init (epic : string) (account_balance risk_percent tp_pips
    pip_size contract_size : Q) : t :=
  {| epic := epic;
     account_balance := account_balance;
     risk_percent := fdiv risk_percent 100;
     tp_pips := tp_pips;
     pip_size := pip_size;
     contract_size := contract_size;
     today := None;
     traded_today := false;
     y_high := None;
     y_low := None;
     c1 := None;
     c2 := None;
     direction := None |}.

(** The constructor's default arguments; [0.01] is the double nearest
    to a hundredth. *)
Definition init_default (epic : string) : t :=
  init epic 10000 2 300 (fl (1 # 100)) 100.

Definition with_setup (s : t) (k1 k2 : option candle)
    (d : option side) : t :=
  {| epic := epic s;
     account_balance := account_balance s;
     risk_percent := risk_percent s;
     tp_pips := tp_pips s;
     pip_size := pip_size s;
     contract_size := contract_size s;
     today := today s;
     traded_today := traded_today s;
     y_high := y_high s;
     y_low := y_low s;
     c1 := k1;
     c2 := k2;
     direction := d |}.

Definition with_traded_today (s : t) (b : bool) : t :=
  {| epic := epic s;
     account_balance := account_balance s;
     risk_percent := risk_percent s;
     tp_pips := tp_pips s;
     pip_size := pip_size s;
     contract_size := contract_size s;
     today := today s;
     traded_today := b;
     y_high := y_high s;
     y_low := y_low s;
     c1 := c1 s;
     c2 := c2 s;
     direction := direction s |}.

Definition with_levels (s : t) (h l : Q) (d : date) : t :=
  {| epic := epic s;
     account_balance := account_balance s;
     risk_percent := risk_percent s;
     tp_pips := tp_pips s;
     pip_size := pip_size s;
     contract_size := contract_size s;
     today := Some d;
     traded_today := traded_today s;
     y_high := Some h;
     y_low := Some l;
     c1 := c1 s;
     c2 := c2 s;
     direction := direction s |}.

Definition _reset_setup : M t unit :=
  modify (fun s => with_setup s None None None).

(** [df[df["trading_day"] == prev_day]] followed by [row.iloc[-1]], on
    a file that has been read and has the required columns. *)
Definition matching_rows (levels : list levels_row) (prev_day : date)
  : list levels_row :=
  List.filter (fun r => trading_day r =? prev_day) levels.

Definition load_yesterday_levels (levels : list levels_row)
    (trading_date : date) : M t unit :=
  let prev_day := get_previous_trading_day trading_date in
  match last (matching_rows levels prev_day) with
  | None => raise ValueError
  | Some row =>
      do _ <- modify (fun s =>
        with_traded_today
          (with_levels s (high_bid row) (low_bid row) trading_date)
          false);
      _reset_setup
  end.

Definition _calc_size (entry stop : Q) : M t Q :=
  do s <- get;
  let risk_amount := fmul (account_balance s) (risk_percent s) in
  let dist := Qabs (fsub entry stop) in
  if Qle_bool dist 0 then ret 0%Q
  else if Qeq_bool (fmul dist (contract_size s)) 0
  then raise ZeroDivisionError
  else ret (round2 (fdiv risk_amount (fmul dist (contract_size s)))).

(** [x > y] and [x < y] against a level that may still be [None]. *)
Definition gt_level (x : Q) (lvl : option Q) : M t bool :=
  match lvl with
  | Some y => ret (Qgtb x y)
  | None => raise TypeError
  end.

Definition lt_level (x : Q) (lvl : option Q) : M t bool :=
  match lvl with
  | Some y => ret (Qltb x y)
  | None => raise TypeError
  end.

Definition is_side (d : option side) (x : side) : bool :=
  match d, x with
  | Some BUY, BUY | Some SELL, SELL => true
  | _, _ => false
  end.

Definition result (c : candle) (d : decision) (o : option order)
  : signal :=
  {| time := start_time c; decision_of := d; order_of := o |}.

Definition on_candle_close (levels : list levels_row) (candle : candle)
  : M t signal :=
  let candle_date := dt_date (start_time candle) in
  do s <- get;
  (* new trading day *)
  if negb (bool_decide (today s = Some candle_date)) then
    do _ <- load_yesterday_levels levels candle_date;
    ret (result candle INIT_DAY None)
  (* one trade per day *)
  else if traded_today s then
    ret (result candle BLOCKED None)
  else
    match c1 s, c2 s with
    (* C1, breakout *)
    | None, _ =>
        do above <- gt_level (close candle) (y_high s);
        if above then
          do _ <- modify (fun s =>
            with_setup s (Some candle) (c2 s) (Some BUY));
          ret (result candle C1 None)
        else
          do below <- lt_level (close candle) (y_low s);
          if below then
            do _ <- modify (fun s =>
              with_setup s (Some candle) (c2 s) (Some SELL));
            ret (result candle C1 None)
          else
            ret (result candle NO_TRADE None)
    (* C2, acceptance *)
    | Some _, None =>
        do above <-
          (if is_side (direction s) BUY
           then gt_level (close candle) (y_high s) else ret false);
        if above then
          do _ <- modify (fun s =>
            with_setup s (c1 s) (Some candle) (direction s));
          ret (result candle C2 None)
        else
          do below <-
            (if is_side (direction s) SELL
             then lt_level (close candle) (y_low s) else ret false);
          if below then
            do _ <- modify (fun s =>
              with_setup s (c1 s) (Some candle) (direction s));
            ret (result candle C2 None)
          else
            do _ <- _reset_setup;
            ret (result candle INVALIDATED None)
    (* C3, entry *)
    | Some k1, Some k2 =>
        let entry := open candle in
        let direction := direction s in
        let sl :=
          if is_side direction BUY then py_min (low k1) (low k2)
          else py_max (high k1) (high k2) in
        let tp :=
          if is_side direction BUY
          then fadd entry (fmul (tp_pips s) (pip_size s))
          else fsub entry (fmul (tp_pips s) (pip_size s)) in
        do size <- _calc_size entry sl;
        if Qle_bool size 0 then
          do _ <- _reset_setup;
          ret (result candle REJECTED None)
        else
          do _ <- modify (fun s => with_traded_today s true);
          let o :=
            {| order_epic := epic s;
               order_direction := direction;
               size := size;
               orderType := "STOP";
               level := entry;
               stopLevel := sl;
               profitLevel := tp |} in
          do _ <- _reset_setup;
          ret (result candle SIGNAL (Some o))
    end.

(** Feeding closed candles one after the other. *)
Fixpoint run (levels : list levels_row) (candles : list candle) (s : t)
  : res (list signal) * t :=
  match candles with
  | [] => (Ok [], s)
  | c :: rest =>
      match on_candle_close levels c s with
      | (Ok r, s') =>
          match run levels rest s' with
          | (Ok rs, s'') => (Ok (r :: rs), s'')
          | (Raise e, s'') => (Raise e, s'')
          end
      | (Raise e, s') => (Raise e, s')
      end
  end.

(** What every strategy reached from the constructor satisfies: levels are
    loaded once a day is set, and the setup fills in the order C1, C2
    with the direction set together with C1. *)
Definition consistent (s : t) : Prop :=
  (is_Some (today s) -> is_Some (y_high s) /\ is_Some (y_low s))
  /\ (c1 s = None -> c2 s = None /\ direction s = None)
  /\ (is_Some (c1 s) -> is_Some (direction s)).

(** The guards that every branch below the day check shares. *)
Definition armed (s : t) (c : candle) : Prop :=
  today s = Some (dt_date (start_time c)) /\ traded_today s = false.

(** The value of [_calc_size] on a strategy. *)
Definition size_for (s : t) (entry stop : Q) : res Q :=
  fst (_calc_size entry stop s).

(** A candle continues the breakout side: BUY needs a close above
    yesterday's high, SELL a close below yesterday's low. *)
Definition continues (d : option side) (yh yl : Q) (c : candle) : Prop :=
  match d with
  | Some BUY => (yh < close c)%Q
  | Some SELL => (close c < yl)%Q
  | None => False
  end.

(** The stop and target of an entry, by direction. *)
Definition stop_for (d : side) (k1 k2 : candle) : Q :=
  match d with
  | BUY => py_min (low k1) (low k2)
  | SELL => py_max (high k1) (high k2)
  end.

Definition target_for (s : t) (d : side) (entry : Q) : Q :=
  match d with
  | BUY => fadd entry (fmul (tp_pips s) (pip_size s))
  | SELL => fsub entry (fmul (tp_pips s) (pip_size s))
  end.

(** The strategy once a signal has fired. *)
Definition locked (s : t) : t :=
  with_setup (with_traded_today s true) None None None.

(** Three candles of the strategy's day that break out on side [d], accept
    and give an entry of positive size [sz]. *)
Definition valid_sequence (s : t) (d : side) (yh yl : Q)
    (b1 b2 b3 : candle) (sz : Q) : Prop :=
  Forall (fun b => today s = Some (dt_date (start_time b))) [b1; b2; b3]
  /\ match d with
     | BUY => (yh < close b1)%Q /\ (yh < close b2)%Q
     | SELL => (close b1 <= yh)%Q /\ (close b1 < yl)%Q /\ (close b2 < yl)%Q
     end
  /\ size_for s (open b3) (stop_for d b1 b2) = Ok sz
  /\ (0 < sz)%Q.

Definition order_for (s : t) (d : side) (b1 b2 b3 : candle) (sz : Q)
  : order :=
  {| order_epic := epic s;
     order_direction := Some d;
     size := sz;
     orderType := "STOP";
     level := open b3;
     stopLevel := stop_for d b1 b2;
     profitLevel := target_for s d (open b3) |}.

(** *** Notions for the properties of runs *)

Definition setup_empty (s : t) : Prop :=
  c1 s = None /\ c2 s = None /\ direction s = None.

Definition is_signal (r : signal) : bool :=
  match decision_of r with
  | SIGNAL => true
  | _ => false
  end.

(** The number of SIGNAL answers in a run. *)
Definition count_signals (rs : list signal) : nat :=
  length (List.filter is_signal rs).

(** The configuration of a strategy: what the constructor was given. *)
Definition config (s : t) : string * Q * Q * Q * Q * Q :=
  (epic s, account_balance s, risk_percent s, tp_pips s, pip_size s,
   contract_size s).

End YesterdayHighLowStrategy.

(** ** Faults beyond the built-in exceptions

    The calls that reach the network or the file system can also end in
    an HTTP error status or in the errors of [csv_ops.py]. *)

Inductive error : Type :=
  | Builtin (e : exn)
  | HTTPError
  | CsvSchemaError
  | CsvIOError.

Inductive outcome (A : Type) : Type :=
  | Done (a : A)
  | Fault (e : error).

Arguments Done {A} a.
Arguments Fault {A} e.

Definition W (S A : Type) : Type := S -> outcome A * S.

Definition done {S A : Type} (a : A) : W S A := fun s => (Done a, s).

Definition fault {S A : Type} (e : error) : W S A :=
  fun s => (Fault e, s).

Definition wbind {S A B : Type} (m : W S A) (k : A -> W S B) : W S B :=
  fun s =>
    match m s with
    | (Done a, s') => k a s'
    | (Fault e, s') => (Fault e, s')
    end.

Notation "'do!' x <- m ; k" := (wbind m (fun x => k))
  (at level 10, x name, m at level 100, k at level 200,
   format "'[v' 'do!'  x  <-  m ; '/' k ']'").

(** A method of a part [T] of the state [S], run on the whole. *)
Definition lift {S T A : Type} (get_part : S -> T)
    (set_part : T -> S -> S) (m : M T A) : W S A :=
  fun s =>
    match m (get_part s) with
    | (Ok a, t') => (Done a, set_part t' s)
    | (Raise e, t') => (Fault (Builtin e), set_part t' s)
    end.

(** A call on a part [T] of the state [S] that can itself fault. *)
Definition zoom {S T A : Type} (get_part : S -> T)
    (set_part : T -> S -> S) (m : W T A) : W S A :=
  fun s =>
    match m (get_part s) with
    | (r, t') => (r, set_part t' s)
    end.

(** ** Session credentials of the broker client *)

Module CapitalClient.

(** The session fields of [CapitalClient].  The streaming fields and the
    lock around renewal play no part in a single-threaded call. *)
Record t : Type := mkClient {
  api_key : string;
  identifier : string;
  password : string;
  cst : option string;
  security_token : option string;
  session_expiry : option datetime
}.

(** [CapitalClient(api_key, identifier, password)]. *)
Definition init (api_key identifier password : string) : t :=
  {| api_key := api_key; identifier := identifier; password := password;
     cst := None; security_token := None; session_expiry := None |}.

(** Truth value of a token: [None] and the empty string are false. *)
Definition truthy (tok : option string) : bool :=
  match tok with
  | Some s => negb (String.eqb s EmptyString)
  | None => false
  end.

Definition _is_session_valid (now : datetime) (c : t) : bool :=
  if negb (truthy (cst c)) || negb (truthy (security_token c)) then false
  else
    match session_expiry c with
    | None => true
    | Some expiry => dt_ltb now (dt_add_seconds expiry (- (5 * 60)))
    end.

(** A JSON scalar of a request body.  [JEncrypted p] stands for the
    password [p] as [login] encrypts it with the key and the time stamp
    of the broker's first answer. *)
Inductive json : Type :=
  | JStr (s : string)
  | JNum (q : Q)
  | JBool (b : bool)
  | JNull
  | JEncrypted (password : string).

(** One HTTP request as it leaves the client.  Of the headers, the
    API key and the two session tokens are kept; a request of [login]
    carries no token. *)
Record request : Type := mkRequest {
  http_method : string;
  http_path : string;
  http_headers : string * option string * option string;
  http_json : list (string * json)
}.

(** The client together with the requests it has made, oldest first. *)
Record wire : Type := mkWire {
  session : t;
  sent : list request
}.

Definition with_session (c : t) (w : wire) : wire :=
  {| session := c; sent := sent w |}.

(** A call of [requests]: the request is on the wire whatever comes
    back. *)
Definition emit (r : request) : M wire unit :=
  modify (fun w => {| session := session w; sent := sent w ++ [r] |}).

(** What the broker answers to a login.  [NoKey]: the request for the
    encryption key fails, or its answer cannot be used to encrypt the
    password.  [Refused]: the session request fails or comes back with
    an error status.  [Granted cst token]: the session request
    succeeds, with these values, if any, of the response headers
    ["CST"] and ["X-SECURITY-TOKEN"]. *)
Inductive login_reply : Type :=
  | NoKey
  | Refused
  | Granted (new_cst new_token : option string).

(** The two requests of [login]. *)
Definition key_request (c : t) : request :=
  {| http_method := "GET"; http_path := "/session/encryptionKey";
     http_headers := (api_key c, None, None); http_json := [] |}.

Definition session_request (c : t) : request :=
  {| http_method := "POST"; http_path := "/session";
     http_headers := (api_key c, None, None);
     http_json :=
       [ ("identifier", JStr (identifier c));
         ("password", JEncrypted (password c));
         ("encryptedPassword", JBool true) ] |}.

(** [login].  Whatever a failed exchange raises is re-raised, here as
    [LoginError]; a response header that is missing raises [KeyError],
    the CST already stored if it was there. *)
Definition login (now : datetime) (reply : login_reply) : M wire unit :=
  do w <- get;
  let c := session w in
  do _ <- emit (key_request c);
  match reply with
  | NoKey => raise LoginError
  | Refused =>
      do _ <- emit (session_request c);
      raise LoginError
  | Granted new_cst new_token =>
      do _ <- emit (session_request c);
      match new_cst with
      | None => raise KeyError
      | Some a =>
          do _ <- modify (fun w =>
            with_session
              {| api_key := api_key c; identifier := identifier c;
                 password := password c;
                 cst := Some a;
                 security_token := security_token c;
                 session_expiry := session_expiry c |} w);
          match new_token with
          | None => raise KeyError
          | Some b =>
              modify (fun w =>
                with_session
                  {| api_key := api_key c; identifier := identifier c;
                     password := password c;
                     cst := Some a;
                     security_token := Some b;
                     session_expiry :=
                       Some (dt_add_seconds now (23 * 3600)) |} w)
          end
      end
  end.

Definition _renew_session (now : datetime) (reply : login_reply)
  : M wire unit :=
  login now reply.

Definition _ensure_valid_session (now : datetime) (reply : login_reply)
  : M wire unit :=
  do w <- get;
  if negb (_is_session_valid now (session w))
  then _renew_session now reply
  else ret tt.

(** The header dictionaries: API key, CST, security token. *)
Definition headers (now : datetime) (reply : login_reply)
  : M wire (string * option string * option string) :=
  do _ <- _ensure_valid_session now reply;
  do w <- get;
  let c := session w in
  if negb (truthy (cst c)) || negb (truthy (security_token c))
  then raise RuntimeError
  else ret (api_key c, cst c, security_token c).

Definition get_websocket_headers (now : datetime) (reply : login_reply)
  : M wire (string * option string * option string) :=
  do _ <- _ensure_valid_session now reply;
  do w <- get;
  let c := session w in
  ret (api_key c, cst c, security_token c).

(** *** Working orders *)

(** The arguments of [create_working_order].  [direction] is [None] when
    the caller passes [None]. *)
Record order_args : Type := mkOrderArgs {
  arg_epic : string;
  arg_direction : option string;
  arg_size : Q;
  arg_level : Q;
  arg_order_type : string;
  arg_good_till_date : option string;
  arg_guaranteed_stop : bool;
  arg_trailing_stop : bool;
  arg_stop_level : option Q;
  arg_stop_distance : option Q;
  arg_stop_amount : option Q;
  arg_profit_level : option Q;
  arg_profit_distance : option Q;
  arg_profit_amount : option Q;
  arg_deal_reference : option string
}.

(** Truth value of an optional number: [None] and zero are false. *)
Definition truthy_num (x : option Q) : bool :=
  match x with
  | Some q => negb (Qeq_bool q 0)
  | None => false
  end.

(** [s.replace("Z", "")]. *)
Fixpoint remove_Z (s : string) : string :=
  match s with
  | EmptyString => EmptyString
  | String c rest =>
      if Ascii.eqb c "Z"%char then remove_Z rest else String c (remove_Z rest)
  end.

(** The check of [good_till_date]; [iso s] says whether
    [datetime.fromisoformat] accepts the text [s]. *)
Definition check_good_till_date (iso : string -> bool)
    (good_till_date : option string) : res unit :=
  if truthy good_till_date then
    match good_till_date with
    | Some text => if iso (remove_Z text) then Ok tt else Raise ValueError
    | None => Ok tt
    end
  else Ok tt.

Definition is_in (x : option string) (l : list string) : bool :=
  match x with
  | Some s => existsb (String.eqb s) l
  | None => false
  end.

(** The validation at the head of [create_working_order]. *)
Definition validate_create (iso : string -> bool) (x : order_args)
  : res unit :=
  if negb (is_in (arg_direction x) ["BUY"; "SELL"]) then Raise ValueError
  else if Qle_bool (arg_size x) 0 then Raise ValueError
  else if Qle_bool (arg_level x) 0 then Raise ValueError
  else if negb (is_in (Some (arg_order_type x)) ["LIMIT"; "STOP"])
  then Raise ValueError
  else if arg_guaranteed_stop x && arg_trailing_stop x
  then Raise ValueError
  else if arg_guaranteed_stop x
          && negb (truthy_num (arg_stop_level x)
                   || truthy_num (arg_stop_distance x)
                   || truthy_num (arg_stop_amount x))
  then Raise ValueError
  else if arg_trailing_stop x
          && negb (bool_decide (arg_stop_distance x <> None))
  then Raise ValueError
  else check_good_till_date iso (arg_good_till_date x).

(** [body[key] = value] when the value is not [None]. *)
Definition add_some {A : Type} (key : string) (to_json : A -> json)
    (value : option A) (body : list (string * json))
  : list (string * json) :=
  match value with
  | Some v => body ++ [(key, to_json v)]
  | None => body
  end.

Definition direction_json (d : option string) : json :=
  match d with
  | Some s => JStr s
  | None => JNull
  end.

(** The request body of [create_working_order]. *)
Definition create_body (x : order_args) : list (string * json) :=
  let body :=
    [ ("epic", JStr (arg_epic x));
      ("direction", direction_json (arg_direction x));
      ("size", JNum (arg_size x));
      ("level", JNum (arg_level x));
      ("type", JStr (arg_order_type x));
      ("guaranteedStop", JBool (arg_guaranteed_stop x));
      ("trailingStop", JBool (arg_trailing_stop x)) ] in
  let body := add_some "goodTillDate" JStr (arg_good_till_date x) body in
  let body := add_some "stopLevel" JNum (arg_stop_level x) body in
  let body := add_some "stopDistance" JNum (arg_stop_distance x) body in
  let body := add_some "stopAmount" JNum (arg_stop_amount x) body in
  let body := add_some "profitLevel" JNum (arg_profit_level x) body in
  let body := add_some "profitDistance" JNum (arg_profit_distance x) body in
  let body := add_some "profitAmount" JNum (arg_profit_amount x) body in
  add_some "dealReference" JStr (arg_deal_reference x) body.

(** A method of the client, run as a step of a call. *)
Definition call {A : Type} (m : M wire A) : W wire A :=
  lift (fun w => w) (fun w' _ => w') m.

Definition send (r : request) : W wire unit := call (emit r).

(** [requests.<method>(url, headers=self.headers, json=body)] followed
    by [r.raise_for_status()] and [r.json()].  [login_reply] is the
    broker's answer to a login, should the session need one; [reply] is
    the JSON of the broker's answer to the request, or [None] for an
    error status. *)
Definition exchange (now : datetime) (login_reply : login_reply)
    (reply : option (gmap string string))
    (method path : string) (body : list (string * json))
  : W wire (gmap string string) :=
  do! h <- call (headers now login_reply);
  do! _ <- send {| http_method := method; http_path := path;
                   http_headers := h; http_json := body |};
  match reply with
  | None => fault HTTPError
  | Some response => done response
  end.

(** [s.replace("o_", "")]. *)
Fixpoint remove_o_ (s : string) : string :=
  match s with
  | EmptyString => EmptyString
  | String c rest =>
      match rest with
      | String c' rest' =>
          if Ascii.eqb c "o"%char && Ascii.eqb c' "_"%char then remove_o_ rest'
          else String c (remove_o_ rest)
      | EmptyString => String c EmptyString
      end
  end.

(** The convenience fields added to the response. *)
Definition add_order_id (response : gmap string string)
  : gmap string string :=
  match response !! "dealReference" with
  | Some reference =>
      <["dealId" := remove_o_ reference]>
        (<["order_id" := remove_o_ reference]> response)
  | None => response
  end.

(** The validation as a step of a call. *)
Definition checked (v : res unit) : W wire unit :=
  fun w =>
    match v with
    | Ok _ => (Done tt, w)
    | Raise e => (Fault (Builtin e), w)
    end.

(** [create_working_order]. *)
Definition create_working_order (iso : string -> bool) (now : datetime)
    (login_reply : login_reply)
    (reply : option (gmap string string)) (x : order_args)
  : W wire (gmap string string) :=
  do! _ <- checked (validate_create iso x);
  let body := create_body x in
  do! response <-
    exchange now login_reply reply "POST" "/workingorders" body;
  done (add_order_id response).

(** The arguments of [update_working_order]; each is [None] unless
    given. *)
Record update_args : Type := mkUpdateArgs {
  upd_deal_id : string;
  upd_level : option Q;
  upd_good_till_date : option string;
  upd_guaranteed_stop : option bool;
  upd_trailing_stop : option bool;
  upd_stop_level : option Q;
  upd_stop_distance : option Q;
  upd_stop_amount : option Q;
  upd_profit_level : option Q;
  upd_profit_distance : option Q;
  upd_profit_amount : option Q
}.

Definition is_true (b : option bool) : bool :=
  match b with
  | Some true => true
  | _ => false
  end.

(** The validation of [update_working_order], the check of the level
    included, which the source makes while it fills the body. *)
Definition validate_update (iso : string -> bool) (x : update_args)
  : res unit :=
  if is_true (upd_guaranteed_stop x) && is_true (upd_trailing_stop x)
  then Raise ValueError
  else if is_true (upd_guaranteed_stop x)
          && negb (truthy_num (upd_stop_level x)
                   || truthy_num (upd_stop_distance x)
                   || truthy_num (upd_stop_amount x))
  then Raise ValueError
  else if is_true (upd_trailing_stop x)
          && negb (bool_decide (upd_stop_distance x <> None))
  then Raise ValueError
  else
    match check_good_till_date iso (upd_good_till_date x) with
    | Raise e => Raise e
    | Ok _ =>
        match upd_level x with
        | Some l => if Qle_bool l 0 then Raise ValueError else Ok tt
        | None => Ok tt
        end
    end.

Definition update_body (x : update_args) : list (string * json) :=
  let body := add_some "level" JNum (upd_level x) [] in
  let body := add_some "goodTillDate" JStr (upd_good_till_date x) body in
  let body :=
    add_some "guaranteedStop" JBool (upd_guaranteed_stop x) body in
  let body := add_some "trailingStop" JBool (upd_trailing_stop x) body in
  let body := add_some "stopLevel" JNum (upd_stop_level x) body in
  let body := add_some "stopDistance" JNum (upd_stop_distance x) body in
  let body := add_some "stopAmount" JNum (upd_stop_amount x) body in
  let body := add_some "profitLevel" JNum (upd_profit_level x) body in
  let body := add_some "profitDistance" JNum (upd_profit_distance x) body in
  add_some "profitAmount" JNum (upd_profit_amount x) body.

Definition update_working_order (iso : string -> bool) (now : datetime)
    (login_reply : login_reply)
    (reply : option (gmap string string)) (x : update_args)
  : W wire (gmap string string) :=
  do! _ <- checked (validate_update iso x);
  let body := update_body x in
  exchange now login_reply reply "PUT"
    ("/workingorders/" ++ upd_deal_id x) body.

(** [get_working_order] and [delete_working_order]: no body. *)
Definition get_working_order (now : datetime)
    (login_reply : login_reply)
    (reply : option (gmap string string)) (deal_id : string)
  : W wire (gmap string string) :=
  exchange now login_reply reply "GET" ("/workingorders/" ++ deal_id) [].

Definition delete_working_order (now : datetime)
    (login_reply : login_reply)
    (reply : option (gmap string string)) (deal_id : string)
  : W wire (gmap string string) :=
  exchange now login_reply reply "DELETE" ("/workingorders/" ++ deal_id) [].

(** *** Historical prices *)

Definition CANDLES_PER_MINUTE : list (string * Q) :=
  [ ("MINUTE", 1); ("MINUTE_5", 1 / 5); ("MINUTE_15", 1 / 15);
    ("MINUTE_30", 1 / 30); ("HOUR", 1 / 60); ("HOUR_4", 1 / 240);
    ("DAY", 1 / 1440); ("WEEK", 1 / 10080) ]%Q.

Definition CHUNK_MINUTES : list (string * Z) :=
  [ ("MINUTE", 600); ("MINUTE_5", 3000); ("MINUTE_15", 6000);
    ("MINUTE_30", 12000); ("HOUR", 43200); ("HOUR_4", 172800);
    ("DAY", 525600); ("WEEK", 1048320) ].

(** [table[key]]: [KeyError] when the key is absent. *)
Definition table_get {V : Type} (table : list (string * V)) (key : string)
  : res V :=
  match List.find (fun kv => String.eqb (fst kv) key) table with
  | Some kv => Ok (snd kv)
  | None => Raise KeyError
  end.

(** [int(x)]: the integer towards zero. *)
Definition py_int (x : Q) : Z :=
  if Qle_bool 0 x then Qfloor x else Qceiling x.

(** [(b - a).total_seconds() / 60]. *)
Definition minutes_between (a b : datetime) : Q :=
  (inject_Z (dt_to_us b - dt_to_us a) / 1000000 / 60)%Q.

(** [t.strftime("%Y-%m-%dT%H:%M:%S")]: the microseconds are dropped. *)
Definition to_the_second (t : datetime) : datetime :=
  {| dt_date := dt_date t; dt_hour := dt_hour t;
     dt_minute := dt_minute t; dt_second := dt_second t;
     dt_microsecond := 0 |}.

(** The query parameters that [_fetch_prices] sends. *)
Record price_params : Type := mkParams {
  param_resolution : string;
  param_from : datetime;
  param_to : datetime;
  param_max : Z
}.

(** The head of [_fetch_prices], on naive datetimes. *)
Definition _fetch_prices_params (resolution : string)
    (start end_ : datetime) : res price_params :=
  let minutes := minutes_between start end_ in
  match table_get CANDLES_PER_MINUTE resolution with
  | Raise e => Raise e
  | Ok per_minute =>
      let max_points := py_int (minutes * per_minute) + 5 in
      Ok {| param_resolution := resolution;
            param_from := to_the_second start;
            param_to := to_the_second end_;
            param_max := max_points |}
  end.

(** The loop of [get_historical_prices]: the pairs [(current,
    chunk_end)] handed to [_fetch_prices], as long as no call fails.
    [delta] is in minutes; the loop is cut after [fuel] rounds. *)
Fixpoint windows (fuel : nat) (delta : Z) (current end_dt : datetime)
  : list (datetime * datetime) :=
  match fuel with
  | O => []
  | S fuel' =>
      if dt_ltb current end_dt then
        let next := dt_add_seconds current (delta * 60) in
        let chunk_end := if dt_ltb end_dt next then end_dt else next in
        (current, chunk_end) :: windows fuel' delta chunk_end end_dt
      else []
  end.

(** [t + timedelta(hours=h)]: the time span is rounded to the
    microsecond. *)
Definition add_hours (t : datetime) (h : Q) : datetime :=
  dt_of_us (dt_to_us t + round_half_even (h * 3600000000)).

(** Rounds that are enough for the loop to run to its end. *)
Definition rounds (delta : Z) (start_dt end_dt : datetime) : nat :=
  Z.to_nat ((dt_to_us end_dt - dt_to_us start_dt) / (delta * 60000000) + 1).

(** The windows that [get_historical_prices] asks for, from the parsed
    [from_date] and [to_date]. *)
Definition get_historical_prices_windows (resolution : string)
    (start_dt end_dt : datetime) (timezone_offset : Q)
  : res (list (datetime * datetime)) :=
  let start_dt :=
    if negb (Qeq_bool timezone_offset 0)
    then add_hours start_dt timezone_offset else start_dt in
  let end_dt :=
    if negb (Qeq_bool timezone_offset 0)
    then add_hours end_dt timezone_offset else end_dt in
  match table_get CHUNK_MINUTES resolution with
  | Raise e => Raise e
  | Ok delta =>
      Ok (windows (rounds delta start_dt end_dt) delta start_dt end_dt)
  end.

(** Windows that follow one another from instant [a] and stop at
    [b], each longer than nothing and no longer than [span]
    microseconds. *)
Fixpoint tiles (span : Z) (ws : list (datetime * datetime)) (a b : Z)
  : Prop :=
  match ws with
  | [] => b <= a
  | (x, y) :: rest =>
      dt_to_us x = a
      /\ a < dt_to_us y <= b
      /\ dt_to_us y - a <= span
      /\ (dt_to_us y < b -> dt_to_us y - a = span)
      /\ tiles span rest (dt_to_us y) b
  end.

(** *** Notions for the properties of orders *)





(** The requests that a renewal of the session of [w] at [now] can
    have put on the wire: none if the session is valid, else the
    request for the key, followed or not by the session request. *)
Definition renewal_of (now : datetime) (w : wire) (rs : list request)
  : Prop :=
  rs = []
  \/ (_is_session_valid now (session w) = false
      /\ (rs = [key_request (session w)]
          \/ rs = [key_request (session w); session_request (session w)])).

(** The request [r] carries the two tokens of the session of [w'],
    neither of them empty. *)
Definition with_tokens_of (w' : wire) (r : request) : Prop :=
  http_headers r =
    (api_key (session w'), cst (session w'), security_token (session w'))
  /\ truthy (cst (session w')) = true
  /\ truthy (security_token (session w')) = true.

(** From [w] to [w'] the wire has gained the requests of a renewal, if
    one was due, and then at most one request, which carries the
    tokens of the session of [w']. *)
Definition one_request_at_most (now : datetime) (w w' : wire) : Prop :=
  exists renewal own,
    sent w' = sent w ++ renewal ++ own
    /\ renewal_of now w renewal
    /\ (own = [] \/ exists r, own = [r] /\ with_tokens_of w' r).

(** The requests for working orders among those of the wire. *)
Definition order_requests (w : wire) : list request :=
  List.filter (fun r => String.eqb (http_path r) "/workingorders") (sent w).

(** The sessions that a client can have: the constructor's, and what a
    login leaves, whatever the broker answers. *)
Inductive reachable : t -> Prop :=
  | reachable_init (api_key identifier password : string) :
      reachable (init api_key identifier password)
  | reachable_login (now : datetime) (reply : login_reply) (w : wire) :
      reachable (session w) ->
      reachable (session (snd (login now reply w))).

(** Both tokens are present: neither [None] nor empty. *)
Definition tokens_present (c : t) : Prop :=
  truthy (cst c) = true /\ truthy (security_token c) = true.

(** The clock is strictly before the stored expiry less five minutes. *)
Definition before_buffer (now : datetime) (c : t) : Prop :=
  exists expiry,
    session_expiry c = Some expiry
    /\ dt_to_us now < dt_to_us expiry - 5 * 60 * 1000000.

(** The client after a [login] that found the CST header only. *)
Definition with_cst (new_cst : string) (c : t) : t :=
  {| api_key := api_key c; identifier := identifier c;
     password := password c;
     cst := Some new_cst;
     security_token := security_token c;
     session_expiry := session_expiry c |}.

(** A security token is never held without an expiry time. *)
Definition coherent (c : t) : Prop :=
  truthy (security_token c) = true -> is_Some (session_expiry c).

(** The client after a successful [login] at [now]. *)
Definition renewed (now : datetime) (new_cst new_token : string) (c : t)
  : t :=
  {| api_key := api_key c; identifier := identifier c;
     password := password c;
     cst := Some new_cst;
     security_token := Some new_token;
     session_expiry := Some (dt_add_seconds now (23 * 3600)) |}.

End CapitalClient.


(** ** CSV files with a schema *)

Module CsvOps.

(** The files of the data directory, each the list of its records, a
    record being the list of its cells.  Directories are not
    modelled. *)
Definition files : Type := gmap string (list (list string)).

(** The [CsvOps] object.  No method changes it once it is built. *)
Record t : Type := mkCsvOps {
  path : string;
  schema : option (list string)
}.

Section Values.

Context {value : Type}.

(** [v.isoformat()], for a value that has the method. *)
Variable isoformat : value -> option string.

(** The text that the csv writer gives a value. *)
Variable str : value -> string.

(** The column labels that pandas reads from a header record. *)
Variable columns : list string -> list string.

(** Whether the file can be opened and written. *)
Variable writable : bool.

Definition _load_schema_from_file (p : string) : W files (list string) :=
  fun fs =>
    match fs !! p with
    | Some (header :: _) => (Done (columns header), fs)
    | _ => (Fault CsvIOError, fs)
    end.

(** [CsvOps(path, schema)]. *)
Definition init (p : string) (schema : option (list string)) : W files t :=
  fun fs =>
    match fs !! p with
    | Some _ =>
        (do! loaded <- _load_schema_from_file p;
         done {| path := p; schema := Some loaded |}) fs
    | None =>
        match schema with
        | None => (Fault CsvSchemaError, fs)
        | Some given => (Done {| path := p; schema := Some given |}, fs)
        end
    end.

Definition _normalize_row (row : gmap string value)
  : gmap string (string + value) :=
  (fun v => match isoformat v with
            | Some text => inl text
            | None => inr v
            end) <$> row.

(** The cell that [DictWriter] writes for a key of the row. *)
Definition cell (v : option (string + value)) : string :=
  match v with
  | Some (inl text) => text
  | Some (inr v) => str v
  | None => EmptyString
  end.

Definition record_of (fieldnames : list string)
    (row : gmap string (string + value)) : list string :=
  (fun k => cell (row !! k)) <$> fieldnames.

Definition append_row (ops : t) (row : gmap string value) : W files unit :=
  match schema ops with
  | None => fault CsvSchemaError
  | Some [] => fault CsvSchemaError
  | Some fieldnames =>
      let row := _normalize_row row in
      let missing : gset string := list_to_set fieldnames ∖ dom row in
      let extra : gset string := dom row ∖ list_to_set fieldnames in
      if negb (bool_decide (missing = ∅)) || negb (bool_decide (extra = ∅))
      then fault CsvSchemaError
      else if negb writable then fault CsvIOError
      else fun fs =>
        let write_header := negb (bool_decide (is_Some (fs !! path ops))) in
        let old := default [] (fs !! path ops) in
        let header := if write_header then [fieldnames] else [] in
        (Done tt,
         <[path ops := old ++ header ++ [record_of fieldnames row]]> fs)
  end.

Fixpoint append_rows (ops : t) (rows : list (gmap string value))
  : W files unit :=
  match rows with
  | [] => done tt
  | row :: rest =>
      do! _ <- append_row ops row;
      append_rows ops rest
  end.

(** *** Notions for the properties of CSV files *)

(** The row has exactly the columns of the schema, of which there is
    one at least. *)
Definition fits (ops : t) (row : gmap string value) : Prop :=
  exists fieldnames,
    schema ops = Some fieldnames
    /\ fieldnames <> []
    /\ forall k, k ∈ fieldnames <-> is_Some (row !! k).

(** The file after one more row. *)
Definition with_row (ops : t) (row : gmap string value) (fs : files)
  : files :=
  let fieldnames := default [] (schema ops) in
  <[path ops :=
      default [fieldnames] (fs !! path ops)
        ++ [record_of fieldnames (_normalize_row row)]]> fs.

End Values.

(** Every record below the header has as many cells as the header. *)
Definition rectangular (fs : files) (p : string) : Prop :=
  match fs !! p with
  | Some (header :: records) =>
      Forall (fun r => length r = length header) records
  | _ => True
  end.

(** The file, if there is one, starts with the schema of [ops]. *)
Definition heads (ops : t) (fs : files) : Prop :=
  match fs !! path ops with
  | Some (header :: _) => schema ops = Some header
  | Some [] => False
  | None => True
  end.

End CsvOps.

(** ** The tick callback of the bot *)

Module AlgoTrader.

(** The values of a trade record. *)
Inductive value : Type :=
  | VNone
  | VText (s : string)
  | VNumber (q : Q)
  | VDate (d : date)
  | VDatetime (t : datetime).

(** What the callback meets outside the bot: the clock, the levels
    file, the broker's answers, and the renderings of values as
    text. *)
Record env : Type := mkEnv {
  env_now : datetime;
  env_levels : list YesterdayHighLowStrategy.levels_row;
  env_fromisoformat : string -> bool;
  env_login_reply : CapitalClient.login_reply;
  env_reply : option (gmap string string);
  env_writable : bool;
  env_date_text : date -> string;
  env_datetime_text : datetime -> string;
  env_str : value -> string;
  env_columns : list string -> list string
}.

(** The objects that [on_tick_received] closes over, and the CSV files
    that it reaches through [CsvOps].  The candle store of the
    aggregator keeps files of its own, which are left out with it. *)
Record bot : Type := mkBot {
  candle_aggregator : CandleAggregator.t;
  strategy : YesterdayHighLowStrategy.t;
  client : CapitalClient.wire;
  disk : CsvOps.files
}.

Definition with_aggregator (a : CandleAggregator.t) (b : bot) : bot :=
  {| candle_aggregator := a; strategy := strategy b; client := client b;
     disk := disk b |}.

Definition with_strategy (s : YesterdayHighLowStrategy.t) (b : bot) : bot :=
  {| candle_aggregator := candle_aggregator b; strategy := s;
     client := client b; disk := disk b |}.

Definition with_client (w : CapitalClient.wire) (b : bot) : bot :=
  {| candle_aggregator := candle_aggregator b; strategy := strategy b;
     client := w; disk := disk b |}.

Definition with_disk (fs : CsvOps.files) (b : bot) : bot :=
  {| candle_aggregator := candle_aggregator b; strategy := strategy b;
     client := client b; disk := fs |}.

Definition side_name (d : YesterdayHighLowStrategy.side) : string :=
  match d with
  | YesterdayHighLowStrategy.BUY => "BUY"
  | YesterdayHighLowStrategy.SELL => "SELL"
  end.

(** The arguments that the callback hands to [create_working_order]. *)
Definition order_args_of (o : YesterdayHighLowStrategy.order)
  : CapitalClient.order_args :=
  {| CapitalClient.arg_epic := YesterdayHighLowStrategy.order_epic o;
     CapitalClient.arg_direction :=
       side_name <$> YesterdayHighLowStrategy.order_direction o;
     CapitalClient.arg_size := YesterdayHighLowStrategy.size o;
     CapitalClient.arg_level := YesterdayHighLowStrategy.level o;
     CapitalClient.arg_order_type := YesterdayHighLowStrategy.orderType o;
     CapitalClient.arg_good_till_date := None;
     CapitalClient.arg_guaranteed_stop := false;
     CapitalClient.arg_trailing_stop := false;
     CapitalClient.arg_stop_level :=
       Some (YesterdayHighLowStrategy.stopLevel o);
     CapitalClient.arg_stop_distance := None;
     CapitalClient.arg_stop_amount := None;
     CapitalClient.arg_profit_level :=
       Some (YesterdayHighLowStrategy.profitLevel o);
     CapitalClient.arg_profit_distance := None;
     CapitalClient.arg_profit_amount := None;
     CapitalClient.arg_deal_reference := None |}.

Definition text_or_none (x : option string) : value :=
  match x with
  | Some s => VText s
  | None => VNone
  end.

Definition number_or_none (x : option Q) : value :=
  match x with
  | Some q => VNumber q
  | None => VNone
  end.

(** The trade record, once both setup candles have been read. *)
Definition trade_row (sig : YesterdayHighLowStrategy.signal)
    (o : YesterdayHighLowStrategy.order) (s : YesterdayHighLowStrategy.t)
    (k1 k2 : candle) (response : gmap string string)
  : gmap string value :=
  list_to_map
    [ ("trade_date", VDate (dt_date (YesterdayHighLowStrategy.time sig)));
      ("trade_time", VDatetime (YesterdayHighLowStrategy.time sig));
      ("epic", VText (YesterdayHighLowStrategy.order_epic o));
      ("direction",
       text_or_none
         (side_name <$> YesterdayHighLowStrategy.order_direction o));
      ("entry_price", VNumber (YesterdayHighLowStrategy.level o));
      ("stop_loss", VNumber (YesterdayHighLowStrategy.stopLevel o));
      ("take_profit", VNumber (YesterdayHighLowStrategy.profitLevel o));
      ("position_size", VNumber (YesterdayHighLowStrategy.size o));
      ("risk_percent",
       VNumber (fmul (YesterdayHighLowStrategy.risk_percent s) 100));
      ("account_balance",
       VNumber (YesterdayHighLowStrategy.account_balance s));
      ("yesterday_high", number_or_none (YesterdayHighLowStrategy.y_high s));
      ("yesterday_low", number_or_none (YesterdayHighLowStrategy.y_low s));
      ("c1_time", VDatetime (start_time k1));
      ("c2_time", VDatetime (start_time k2));
      ("order_type", VText (YesterdayHighLowStrategy.orderType o));
      ("deal_id", text_or_none (response !! "dealId"));
      ("order_id", text_or_none (response !! "order_id"));
      ("deal_reference", text_or_none (response !! "dealReference"));
      ("strategy_name", VText "YesterdayHighLow");
      ("status", VText "EXECUTED") ].

(** [v.isoformat()] on the values of a trade record. *)
Definition isoformat (e : env) (v : value) : option string :=
  match v with
  | VDate d => Some (env_date_text e d)
  | VDatetime t => Some (env_datetime_text e t)
  | _ => None
  end.

(** [x["start_time"]] on a setup candle that may be [None]. *)
Definition start_time_of (k : option candle) : W bot candle :=
  match k with
  | Some c => done c
  | None => fault (Builtin TypeError)
  end.

Definition on_tick_received (e : env) (tk : tick) : W bot unit :=
  do! closed_candle <-
    lift candle_aggregator with_aggregator
      (CandleAggregator.process_tick (env_now e) tk);
  match closed_candle with
  | None => done tt
  | Some closed =>
      do! sig <-
        lift strategy with_strategy
          (YesterdayHighLowStrategy.on_candle_close (env_levels e) closed);
      if YesterdayHighLowStrategy.is_signal sig then
        do! o <-
          match YesterdayHighLowStrategy.order_of sig with
          | Some o => done o
          | None => fault (Builtin KeyError)
          end;
        do! response <-
          zoom client with_client
            (CapitalClient.create_working_order (env_fromisoformat e)
               (env_now e) (env_login_reply e) (env_reply e)
               (order_args_of o));
        do! b <- (fun b => (Done b, b));
        do! k1 <- start_time_of (YesterdayHighLowStrategy.c1 (strategy b));
        do! k2 <- start_time_of (YesterdayHighLowStrategy.c2 (strategy b));
        let row := trade_row sig o (strategy b) k1 k2 response in
        do! csv_ops <-
          zoom disk with_disk
            (CsvOps.init (env_columns e) "data/trade_book.csv" None);
        zoom disk with_disk
          (CsvOps.append_row (isoformat e) (env_str e) (env_writable e)
             csv_ops row)
      else done tt
  end.

End AlgoTrader.

(** ** Sample data *)

Module Sample.

(** Wednesday 2024-01-03. *)
Definition day : date := 738888.

Definition at_ (h m s : Z) : datetime :=
  {| dt_date := day; dt_hour := h; dt_minute := m; dt_second := s;
     dt_microsecond := 0 |}.

(** A closed one-minute candle of GOLD. *)
Definition bar (o h l c : Q) (start : datetime) : candle :=
  {| open := o; high := h; low := l; close := c; volume := 5;
     start_time := start; last_update := None;
     candle_epic := Some "GOLD"%string;
     end_time := Some (dt_add_seconds start 60);
     closed_at := Some (dt_add_seconds start 60) |}.

(** Tuesday's range was 90 to 100. *)
Definition levels : list YesterdayHighLowStrategy.levels_row :=
  [ YesterdayHighLowStrategy.mkRow 738887 100 90 ].

Definition fresh : YesterdayHighLowStrategy.t :=
  YesterdayHighLowStrategy.init_default "GOLD".

(** The strategy after the first candle of the day. *)
Definition opened : YesterdayHighLowStrategy.t :=
  YesterdayHighLowStrategy.with_setup
    (YesterdayHighLowStrategy.with_traded_today
       (YesterdayHighLowStrategy.with_levels fresh 100 90 day) false)
    None None None.

Definition breakout : candle := bar 99 102 (199 # 2) 101 (at_ 9 1 0).
Definition acceptance : candle := bar 101 103 100 102 (at_ 9 2 0).
Definition entry_bar : candle := bar 100 104 100 103 (at_ 9 3 0).
Definition inside : candle := bar 99 100 98 100 (at_ 9 1 0).
Definition failed : candle := bar 101 101 97 98 (at_ 9 2 0).

Definition flat : candle := bar 100 100 100 100 (at_ 9 3 0).

(** An entry far above the setup. *)
Definition far_entry : candle := bar 500 504 500 503 (at_ 9 3 0).

(** One breakout candle recorded, BUY side. *)
Definition after_c1 : YesterdayHighLowStrategy.t :=
  YesterdayHighLowStrategy.with_setup opened (Some breakout) None
    (Some YesterdayHighLowStrategy.BUY).

(** Breakout and acceptance recorded, BUY side. *)
Definition after_c2 : YesterdayHighLowStrategy.t :=
  YesterdayHighLowStrategy.with_setup opened (Some breakout) (Some acceptance)
    (Some YesterdayHighLowStrategy.BUY).

(** A setup whose stop is 100. *)
Definition tight : YesterdayHighLowStrategy.t :=
  YesterdayHighLowStrategy.with_setup opened (Some acceptance) (Some acceptance)
    (Some YesterdayHighLowStrategy.BUY).

(** 13:00 on the day before. *)
Definition eve : datetime :=
  {| dt_date := day - 1; dt_hour := 13; dt_minute := 0; dt_second := 0;
     dt_microsecond := 0 |}.

(** A client whose session ends at 12:00: it logged in at 13:00 on the
    day before. *)
Definition until_noon : CapitalClient.t :=
  {| CapitalClient.api_key := "key"; CapitalClient.identifier := "me";
     CapitalClient.password := "secret";
     CapitalClient.cst := Some "cst-1"%string;
     CapitalClient.security_token := Some "tok-1"%string;
     CapitalClient.session_expiry := Some (at_ 12 0 0) |}.




(** A client with a session until noon that has sent nothing yet. *)
Definition line : CapitalClient.wire :=
  {| CapitalClient.session := until_noon; CapitalClient.sent := [] |}.

(** The broker's answer to an order. *)
Definition confirmation : gmap string string :=
  {[ "dealReference" := "o_12345" ]}.

(** No text is an ISO date. *)
Definition no_iso (text : string) : bool := false.

(** A two-column book, a row that fits it and one that lacks a
    column.  The values are texts and none has an [isoformat]. *)
Definition book : CsvOps.t :=
  {| CsvOps.path := "book.csv"; CsvOps.schema := Some ["day"; "price"] |}.

Definition good_row : gmap string string :=
  {[ "day" := "Wed"; "price" := "100" ]}.

Definition short_row : gmap string string := {[ "day" := "Thu" ]}.

Definition no_isoformat (v : string) : option string := None.

Definition as_it_is (v : string) : string := v.

(** Ticks of GOLD around 10:00 and 10:01. *)
Definition quote (b : Q) (ts : datetime) : tick :=
  {| epic := "GOLD"; bid := b; ask := b + (1 # 10); bid_qty := 1;
     ask_qty := 1; timestamp := ts; received_at := Some ts |}.

Definition minute_agg : CandleAggregator.t :=
  {| CandleAggregator.resolution_seconds := 60;
     CandleAggregator.candle_data := ∅;
     CandleAggregator.current_candle_start := ∅;
     CandleAggregator.last_candle := ∅;
     CandleAggregator.last_price := ∅;
     CandleAggregator.last_tick := ∅;
     CandleAggregator.tick_count := 0;
     CandleAggregator.last_tick_time := None;
     CandleAggregator.last_candle_time := None |}.

Definition hour4_agg : CandleAggregator.t :=
  {| CandleAggregator.resolution_seconds := 14400;
     CandleAggregator.candle_data := ∅;
     CandleAggregator.current_candle_start := ∅;
     CandleAggregator.last_candle := ∅;
     CandleAggregator.last_price := ∅;
     CandleAggregator.last_tick := ∅;
     CandleAggregator.tick_count := 0;
     CandleAggregator.last_tick_time := None;
     CandleAggregator.last_candle_time := None |}.

Definition q1 : tick := quote (3 # 2) (at_ 10 0 30).
Definition q2 : tick := quote (5 # 2) (at_ 10 0 40).
Definition q3 : tick := quote (1 # 2) (at_ 10 0 50).
Definition q4 : tick := quote 2 (at_ 10 1 0).
Definition q5 : tick := quote 3 (at_ 10 1 20).

(** A late tick of the 10:00 bucket. *)
Definition q6 : tick := quote (7 # 2) (at_ 10 0 55).

(** The five ticks in order of time, then the late one; each is
    processed at its own time. *)
Definition feed : list (datetime * tick) :=
  map (fun tk => (timestamp tk, tk)) [q1; q2; q3; q4; q5; q6].

(** A tick at 05:10, in the four-hour bucket that starts at 04:00. *)
Definition q7 : tick := quote 2 (at_ 5 10 0).

(** A four-hour aggregator with a candle started by a tick at 04:10. *)
Definition hour4_agg1 : CandleAggregator.t :=
  snd (CandleAggregator.process_tick (at_ 4 10 0) (quote 1 (at_ 4 10 0))
         hour4_agg).

(** The aggregator once [q1] has been processed at its own time. *)
Definition minute_agg1 : CandleAggregator.t :=
  snd (CandleAggregator.process_tick (at_ 10 0 30) q1 minute_agg).

(** A bot whose strategy has seen breakout and acceptance and whose
    aggregator holds the 09:03 candle, opened at 100. *)
Definition trading_agg : CandleAggregator.t :=
  snd (CandleAggregator.process_tick (at_ 9 3 0) (quote 100 (at_ 9 3 0))
         minute_agg).

Definition trader : AlgoTrader.bot :=
  {| AlgoTrader.candle_aggregator := trading_agg;
     AlgoTrader.strategy := after_c2;
     AlgoTrader.client := line;
     AlgoTrader.disk := ∅ |}.

(** The first tick of 09:04, which closes the 09:03 candle. *)
Definition closing_tick : tick := quote 101 (at_ 9 4 0).

(** A broker that accepts every order, at 09:04. *)
Definition calm : AlgoTrader.env :=
  {| AlgoTrader.env_now := at_ 9 4 0;
     AlgoTrader.env_levels := levels;
     AlgoTrader.env_fromisoformat := no_iso;
     AlgoTrader.env_login_reply := CapitalClient.NoKey;
     AlgoTrader.env_reply := Some confirmation;
     AlgoTrader.env_writable := true;
     AlgoTrader.env_date_text := fun _ => "date"%string;
     AlgoTrader.env_datetime_text := fun _ => "time"%string;
     AlgoTrader.env_str := fun _ => "value"%string;
     AlgoTrader.env_columns := fun header => header |}.

End Sample.
(** * Properties *)

(** ** Order facts on prices *)

Lemma Qltb_lt (x y : Q) : Qltb x y = true <-> (x < y)%Q.
Proof.
  unfold Qltb. rewrite Qlt_alt. destruct (x ?= y)%Q; split; congruence.
Qed.

Lemma Qltb_ge (x y : Q) : Qltb x y = false <-> (y <= x)%Q.
Proof.
  rewrite <- not_true_iff_false, Qltb_lt. split.
  - apply Qnot_lt_le.
  - apply Qle_not_lt.
Qed.

Lemma Qgtb_gt (x y : Q) : Qgtb x y = true <-> (y < x)%Q.
Proof. apply Qltb_lt. Qed.

Lemma Qgtb_le (x y : Q) : Qgtb x y = false <-> (x <= y)%Q.
Proof. apply Qltb_ge. Qed.

Lemma Qle_bool_false (x y : Q) : Qle_bool x y = false <-> (y < x)%Q.
Proof.
  rewrite <- not_true_iff_false, Qle_bool_iff. split.
  - apply Qnot_le_lt.
  - apply Qlt_not_le.
Qed.

Lemma py_max_ge_l (a b : Q) : (a <= py_max a b)%Q.
Proof.
  unfold py_max. destruct (Qgtb b a) eqn:E.
  - apply Qlt_le_weak, Qgtb_gt, E.
  - apply Qle_refl.
Qed.

Lemma py_max_ge_r (a b : Q) : (b <= py_max a b)%Q.
Proof.
  unfold py_max. destruct (Qgtb b a) eqn:E.
  - apply Qle_refl.
  - apply Qgtb_le, E.
Qed.

Lemma py_min_le_l (a b : Q) : (py_min a b <= a)%Q.
Proof.
  unfold py_min. destruct (Qltb b a) eqn:E.
  - apply Qlt_le_weak, Qltb_lt, E.
  - apply Qle_refl.
Qed.

Lemma py_min_le_r (a b : Q) : (py_min a b <= b)%Q.
Proof.
  unfold py_min. destruct (Qltb b a) eqn:E.
  - apply Qle_refl.
  - apply Qltb_ge, E.
Qed.

Lemma py_max_cases (a b : Q) : py_max a b = a \/ py_max a b = b.
Proof. unfold py_max. destruct (Qgtb b a); auto. Qed.

Lemma py_min_cases (a b : Q) : py_min a b = a \/ py_min a b = b.
Proof. unfold py_min. destruct (Qltb b a); auto. Qed.

(** ** Previous trading day *)

Lemma weekday_range (d : date) : 0 <= weekday d < 7.
Proof. unfold weekday. apply Z.mod_pos_bound. lia. Qed.

(** C8. For every date, [get_previous_trading_day] returns the date three
    calendar days earlier when the date is a Monday, two days earlier when
    it is a Sunday, and one day earlier on any other day of the week. *)
Theorem previous_trading_day_mapping (d : date) :
  (weekday d = 0 -> get_previous_trading_day d = d - 3) /\
  (weekday d = 6 -> get_previous_trading_day d = d - 2) /\
  (weekday d <> 0 -> weekday d <> 6 -> get_previous_trading_day d = d - 1).
Proof.
  unfold get_previous_trading_day, date_sub_days.
  repeat split.
  - intros ->. reflexivity.
  - intros ->. reflexivity.
  - intros H0 H6.
    apply Z.eqb_neq in H0, H6. now rewrite H0, H6.
Qed.

(** Monday 2024-01-01 (ordinal 738886), Sunday 2023-12-31 and Wednesday
    2024-01-03. *)
Lemma previous_trading_day_mapping_witness :
  get_previous_trading_day 738886 = 738883 /\
  get_previous_trading_day 738885 = 738883 /\
  get_previous_trading_day 738888 = 738887.
Proof.
  split; [| split].
  - apply (proj1 (previous_trading_day_mapping 738886)). reflexivity.
  - apply (proj1 (proj2 (previous_trading_day_mapping 738885))).
    reflexivity.
  - apply (proj2 (proj2 (previous_trading_day_mapping 738888)));
      vm_compute; discriminate.
Defined.

(** Both weekend-skipping branches land on a Friday. *)
Lemma previous_trading_day_friday (d : date) :
  weekday d = 0 \/ weekday d = 6 ->
  weekday (get_previous_trading_day d) = 4.
Proof.
  unfold get_previous_trading_day, date_sub_days, weekday.
  intros [H | H]; rewrite H; simpl.
  - pose proof (Z.div_mod (d + 6) 7). pose proof (Z.div_mod (d - 3 + 6) 7).
    pose proof (Z.mod_pos_bound (d - 3 + 6) 7). lia.
  - pose proof (Z.div_mod (d + 6) 7). pose proof (Z.div_mod (d - 2 + 6) 7).
    pose proof (Z.mod_pos_bound (d - 2 + 6) 7). lia.
Qed.

(** ** The strategy state machine *)

Module StrategyProps.
Import YesterdayHighLowStrategy.

Ltac step :=
  cbv [on_candle_close load_yesterday_levels _calc_size _reset_setup
       gt_level lt_level bind get modify ret raise].

Lemma same_day_guard (s : t) (c : candle) :
  today s = Some (dt_date (start_time c)) ->
  negb (bool_decide (today s = Some (dt_date (start_time c)))) = false.
Proof. intros H. now rewrite bool_decide_eq_true_2. Qed.

Lemma new_day_guard (s : t) (c : candle) :
  today s <> Some (dt_date (start_time c)) ->
  negb (bool_decide (today s = Some (dt_date (start_time c)))) = true.
Proof. intros H. now rewrite bool_decide_eq_false_2. Qed.

(** *** Reachable strategies *)

Lemma init_consistent e b r tp pip cs : consistent (init e b r tp pip cs).
Proof.
  unfold consistent, init; simpl. split; [| split].
  - intros [x Hx]. discriminate.
  - auto.
  - intros [x Hx]. discriminate.
Qed.

Lemma calc_size_state s entry stop :
  _calc_size entry stop s = (size_for s entry stop, s).
Proof.
  unfold size_for. step.
  destruct (Qle_bool _ _); [reflexivity |].
  destruct (Qeq_bool _ _); reflexivity.
Qed.

Ltac split_branch H :=
  match type of H with
  | context [match ?x with _ => _ end] =>
      lazymatch x with
      | context [match _ with _ => _ end] => fail
      | _ => destruct x eqn:?
      end
  end.

Ltac branches H :=
  cbv [on_candle_close load_yesterday_levels _reset_setup
       gt_level lt_level bind get modify ret raise] in H;
  repeat first [rewrite calc_size_state in H | split_branch H].

(** The six ways a candle can leave the strategy. *)
Lemma on_candle_close_shapes levels c s r s' :
  on_candle_close levels c s = (r, s') ->
  s' = s
  \/ (exists h l d,
        s' = with_setup (with_traded_today (with_levels s h l d) false)
               None None None)
  \/ (c1 s = None /\ exists d, s' = with_setup s (Some c) (c2 s) (Some d))
  \/ (is_Some (c1 s) /\ s' = with_setup s (c1 s) (Some c) (direction s))
  \/ s' = with_setup s None None None
  \/ s' = locked s.
Proof.
  intros H. unfold is_Some.
  branches H; inversion H; subst; clear H;
    repeat match goal with
           | E : c1 _ = Some _ |- context [c1 _] => rewrite E
           end;
    eauto 9.
Qed.

(** Whatever the answer, a candle leaves a consistent strategy
    consistent. *)
Lemma on_candle_close_consistent levels c s r s' :
  on_candle_close levels c s = (r, s') -> consistent s -> consistent s'.
Proof.
  intros H (Hlv & Hnone & Hdir).
  destruct (on_candle_close_shapes _ _ _ _ _ H)
    as [-> | [(h & l & d & ->) | [(H1 & d & ->) | [(H1 & ->) | [-> | ->]]]]];
    unfold consistent;
    cbn [today y_high y_low c1 c2 direction
         with_setup with_traded_today with_levels locked];
    repeat split; intros; eauto; try discriminate; try tauto;
    try (match goal with E : is_Some None |- _ =>
           destruct E; discriminate end).
  destruct H1 as [k Hk]. congruence.
Qed.

Lemma run_consistent levels cs :
  forall s r s', run levels cs s = (r, s') -> consistent s -> consistent s'.
Proof.
  induction cs as [| c cs IH]; intros s r s' H Hs; simpl in H.
  - now inversion H; subst.
  - destruct (on_candle_close levels c s) as [[sig | e] s1] eqn:E.
    + destruct (run levels cs s1) as [[rs | e] s2] eqn:E2;
        inversion H; subst;
        eapply IH; eauto using on_candle_close_consistent.
    + inversion H; subst. eauto using on_candle_close_consistent.
Qed.

(** The sample states are the ones the sample candles lead to. *)
Lemma sample_states_reached :
  run Sample.levels [Sample.inside; Sample.breakout; Sample.acceptance]
    Sample.fresh =
  (Ok [ result Sample.inside INIT_DAY None;
        result Sample.breakout C1 None;
        result Sample.acceptance C2 None ], Sample.after_c2)
  /\ on_candle_close Sample.levels Sample.breakout Sample.opened =
     (Ok (result Sample.breakout C1 None), Sample.after_c1).
Proof. split; reflexivity. Qed.

(** *** C1 detection *)

Lemma c1_buy levels s c yh :
  armed s c -> c1 s = None -> y_high s = Some yh ->
  (yh < close c)%Q ->
  on_candle_close levels c s =
    (Ok (result c C1 None), with_setup s (Some c) (c2 s) (Some BUY)).
Proof.
  intros [Hd Ht] H1 Hh Hgt. step.
  rewrite (same_day_guard _ _ Hd), Ht, H1, Hh.
  apply Qgtb_gt in Hgt. now rewrite Hgt.
Qed.

Lemma c1_sell levels s c yh yl :
  armed s c -> c1 s = None -> y_high s = Some yh -> y_low s = Some yl ->
  (close c <= yh)%Q -> (close c < yl)%Q ->
  on_candle_close levels c s =
    (Ok (result c C1 None), with_setup s (Some c) (c2 s) (Some SELL)).
Proof.
  intros [Hd Ht] H1 Hh Hl Hle Hlt. step.
  rewrite (same_day_guard _ _ Hd), Ht, H1, Hh, Hl.
  apply Qgtb_le in Hle. apply Qltb_lt in Hlt. now rewrite Hle, Hlt.
Qed.




(** *** C2 acceptance and invalidation *)

Lemma c2_accept levels s c k1 d yh yl :
  armed s c -> c1 s = Some k1 -> c2 s = None -> direction s = Some d ->
  y_high s = Some yh -> y_low s = Some yl ->
  continues (Some d) yh yl c ->
  on_candle_close levels c s =
    (Ok (result c C2 None), with_setup s (Some k1) (Some c) (Some d)).
Proof.
  intros [Hd Ht] H1 H2 Hdir Hh Hl Hc. step.
  rewrite (same_day_guard _ _ Hd), Ht, H1, H2, Hdir, Hh, Hl.
  destruct d; simpl in *.
  - apply Qgtb_gt in Hc. now rewrite Hc, H1, Hdir.
  - apply Qltb_lt in Hc. now rewrite Hc, H1, Hdir.
Qed.

Lemma c2_invalidate levels s c k1 yh yl :
  armed s c -> c1 s = Some k1 -> c2 s = None ->
  y_high s = Some yh -> y_low s = Some yl ->
  ~ continues (direction s) yh yl c ->
  on_candle_close levels c s =
    (Ok (result c INVALIDATED None), with_setup s None None None).
Proof.
  intros [Hd Ht] H1 H2 Hh Hl Hc. step.
  rewrite (same_day_guard _ _ Hd), Ht, H1, H2, Hh, Hl.
  destruct (direction s) as [[|]|]; simpl in *.
  - apply Qnot_lt_le, Qgtb_le in Hc. now rewrite Hc.
  - apply Qnot_lt_le, Qltb_ge in Hc. now rewrite Hc.
  - reflexivity.
Qed.

(** *** C3 entry *)

Lemma positive_distance (x : Q) :
  ~ (Qabs x == 0)%Q -> Qle_bool (Qabs x) 0 = false.
Proof.
  intros Hd. apply Qle_bool_false.
  destruct (Qle_lt_or_eq _ _ (Qabs_nonneg x)) as [L | L];
    [exact L | now symmetry in L].
Qed.

Lemma size_for_zero_distance s entry stop :
  (Qabs (fsub entry stop) == 0)%Q -> size_for s entry stop = Ok 0%Q.
Proof.
  intros H. unfold size_for. step.
  assert (E : Qle_bool (Qabs (fsub entry stop)) 0 = true)
    by (apply Qle_bool_iff; rewrite H; apply Qle_refl).
  now rewrite E.
Qed.

Lemma size_for_positive_distance s entry stop :
  ~ (fmul (Qabs (fsub entry stop)) (contract_size s) == 0)%Q ->
  size_for s entry stop =
    Ok (round2 (fdiv (fmul (account_balance s) (risk_percent s))
                  (fmul (Qabs (fsub entry stop)) (contract_size s)))).
Proof.
  intros Hc. unfold size_for. step.
  assert (Hd : ~ (Qabs (fsub entry stop) == 0)%Q).
  { intros Hz. apply Hc. unfold fmul.
    assert (Z : Qeq_bool (Qabs (fsub entry stop) * contract_size s) 0
                = true)
      by (apply Qeq_bool_iff; rewrite Hz; ring).
    unfold fl. now rewrite Z. }
  rewrite (positive_distance _ Hd).
  assert (F : Qeq_bool (fmul (Qabs (fsub entry stop)) (contract_size s)) 0
              = false).
  { apply not_true_iff_false. intros F. now apply Qeq_bool_iff in F. }
  now rewrite F.
Qed.

Lemma size_for_fault s entry stop :
  ~ (Qabs (fsub entry stop) == 0)%Q ->
  (fmul (Qabs (fsub entry stop)) (contract_size s) == 0)%Q ->
  size_for s entry stop = Raise ZeroDivisionError.
Proof.
  intros Hd Hc. unfold size_for. step.
  rewrite (positive_distance _ Hd).
  apply Qeq_bool_iff in Hc. now rewrite Hc.
Qed.

(** The nearest integer is within a half, and on a tie it is even. *)
Lemma round_half_even_spec (x : Q) :
  let k := round_half_even x in
  (inject_Z k - (1 # 2) <= x <= inject_Z k + (1 # 2))%Q
  /\ ((x == inject_Z k - (1 # 2))%Q \/ (x == inject_Z k + (1 # 2))%Q ->
      Z.even k = true).
Proof.
  unfold round_half_even.
  pose proof (Qfloor_le x) as Hlo. pose proof (Qlt_floor x) as Hhi.
  set (n := Qfloor x) in *.
  assert (Hn1 : (inject_Z (n + 1) == inject_Z n + 1)%Q)
    by (rewrite inject_Z_plus; reflexivity).
  rewrite Hn1 in Hhi.
  destruct (x - inject_Z n ?= 1 # 2)%Q eqn:E.
  - apply Qeq_alt in E.
    assert (Hx : (x == inject_Z n + (1 # 2))%Q)
      by (rewrite <- E; ring).
    destruct (Z.even n) eqn:Ev.
    + split; [| intros _; exact Ev].
      rewrite Hx. split.
      * apply Qplus_le_r. discriminate.
      * apply Qle_refl.
    + assert (Ev' : Z.even (n + 1) = true).
      { rewrite Z.even_add, Ev. reflexivity. }
      split; [| intros _; exact Ev'].
      rewrite Hn1, Hx. split.
      * assert (R : (inject_Z n + 1 - (1 # 2) == inject_Z n + (1 # 2))%Q)
          by ring.
        rewrite R. apply Qle_refl.
      * rewrite <- !Qplus_assoc. apply Qplus_le_r. discriminate.
  - apply Qlt_alt in E.
    assert (Hx : (x < inject_Z n + (1 # 2))%Q).
    { assert (R : (x == inject_Z n + (x - inject_Z n))%Q) by ring.
      rewrite R. now apply Qplus_lt_r. }
    split.
    + split; [| now apply Qlt_le_weak].
      apply Qle_trans with (inject_Z n); [| exact Hlo].
      assert (R : (inject_Z n == inject_Z n - (1 # 2) + (1 # 2))%Q)
        by ring.
      rewrite R at 2.
      rewrite <- (Qplus_0_r (inject_Z n - (1 # 2))) at 1.
      apply Qplus_le_r. discriminate.
    + intros [T | T].
      * exfalso. rewrite T in Hlo.
        apply (Qle_not_lt _ _ Hlo).
        rewrite <- (Qplus_0_r (inject_Z n)) at 2.
        apply Qplus_lt_r. reflexivity.
      * exfalso. rewrite T in Hx. now apply Qlt_irrefl in Hx.
  - apply Qgt_alt in E.
    assert (Hx : (inject_Z n + (1 # 2) < x)%Q).
    { assert (R : (x == inject_Z n + (x - inject_Z n))%Q) by ring.
      rewrite R. now apply Qplus_lt_r. }
    rewrite Hn1.
    assert (R1 : (inject_Z n + 1 - (1 # 2) == inject_Z n + (1 # 2))%Q)
      by ring.
    split.
    + split.
      * rewrite R1. now apply Qlt_le_weak.
      * apply Qle_trans with (inject_Z n + 1)%Q;
          [now apply Qlt_le_weak |].
        rewrite <- (Qplus_0_r (inject_Z n + 1)) at 1.
        apply Qplus_le_r. discriminate.
    + intros [T | T].
      * exfalso. rewrite T, R1 in Hx. now apply Qlt_irrefl in Hx.
      * exfalso. rewrite T in Hhi.
        apply (Qlt_not_le _ _ Hhi).
        rewrite <- (Qplus_0_r (inject_Z n + 1)) at 1.
        apply Qplus_le_r. discriminate.
Qed.

(** [round(x, 2)] is the double nearest to [k / 100], where [k] is the
    integer nearest to [100 x], the even one on a tie. *)
Lemma round2_spec (x : Q) :
  exists k : Z,
    round2 x = fl (inject_Z k / 100)
    /\ (inject_Z k - (1 # 2) <= x * 100 <= inject_Z k + (1 # 2))%Q
    /\ ((x * 100 == inject_Z k - (1 # 2))%Q
        \/ (x * 100 == inject_Z k + (1 # 2))%Q -> Z.even k = true).
Proof.
  exists (round_half_even (x * 100)).
  split; [reflexivity |].
  exact (round_half_even_spec (x * 100)).
Qed.

Lemma c3_reject levels s c k1 k2 d sz :
  armed s c -> c1 s = Some k1 -> c2 s = Some k2 -> direction s = Some d ->
  size_for s (open c) (stop_for d k1 k2) = Ok sz -> (sz <= 0)%Q ->
  on_candle_close levels c s =
    (Ok (result c REJECTED None), with_setup s None None None).
Proof.
  intros [Hd Ht] H1 H2 Hdir Hs Hle.
  cbv [on_candle_close _reset_setup bind get modify ret raise].
  rewrite (same_day_guard _ _ Hd), Ht, H1, H2, Hdir, calc_size_state.
  apply Qle_bool_iff in Hle.
  destruct d; simpl is_side; cbv iota; unfold stop_for in Hs;
    rewrite Hs, Hle; reflexivity.
Qed.

Lemma c3_signal levels s c k1 k2 d sz :
  armed s c -> c1 s = Some k1 -> c2 s = Some k2 -> direction s = Some d ->
  size_for s (open c) (stop_for d k1 k2) = Ok sz -> (0 < sz)%Q ->
  on_candle_close levels c s =
    (Ok (result c SIGNAL (Some (order_for s d k1 k2 c sz))), locked s).
Proof.
  intros [Hd Ht] H1 H2 Hdir Hs Hlt.
  cbv [on_candle_close _reset_setup bind get modify ret raise].
  rewrite (same_day_guard _ _ Hd), Ht, H1, H2, Hdir, calc_size_state.
  apply Qle_bool_false in Hlt.
  destruct d; simpl is_side; cbv iota; unfold stop_for in Hs;
    rewrite Hs, Hlt; reflexivity.
Qed.

Lemma c3_fault levels s c k1 k2 d e :
  armed s c -> c1 s = Some k1 -> c2 s = Some k2 -> direction s = Some d ->
  size_for s (open c) (stop_for d k1 k2) = Raise e ->
  on_candle_close levels c s = (Raise e, s).
Proof.
  intros [Hd Ht] H1 H2 Hdir Hs.
  cbv [on_candle_close _reset_setup bind get modify ret raise].
  rewrite (same_day_guard _ _ Hd), Ht, H1, H2, Hdir, calc_size_state.
  destruct d; simpl is_side; cbv iota; unfold stop_for in Hs;
    rewrite Hs; reflexivity.
Qed.

Lemma size_for_with_setup s k1 k2 d entry stop :
  size_for (with_setup s k1 k2 d) entry stop = size_for s entry stop.
Proof.
  unfold size_for. step. cbn [account_balance risk_percent contract_size
                              with_setup].
  destruct (Qle_bool _ _); [reflexivity |].
  destruct (Qeq_bool _ _); reflexivity.
Qed.

(** A breakout, an acceptance and an entry of positive size, fed to an
    unlocked strategy with an empty setup, end in a signal. *)
Lemma valid_sequence_signals levels s d yh yl b1 b2 b3 sz :
  traded_today s = false -> c1 s = None -> c2 s = None ->
  y_high s = Some yh -> y_low s = Some yl ->
  valid_sequence s d yh yl b1 b2 b3 sz ->
  run levels [b1; b2; b3] s =
    (Ok [ result b1 C1 None; result b2 C2 None;
          result b3 SIGNAL (Some (order_for s d b1 b2 b3 sz)) ],
     locked s).
Proof.
  intros Ht H1 H2 Hh Hl (Hday & Hside & Hsz & Hpos).
  inversion Hday as [| ? ? D1 Hday']; subst.
  inversion Hday' as [| ? ? D2 Hday'']; subst.
  inversion Hday'' as [| ? ? D3 _]; subst.
  set (s1 := with_setup s (Some b1) None (Some d)).
  set (s2 := with_setup s (Some b1) (Some b2) (Some d)).
  assert (E1 : on_candle_close levels b1 s = (Ok (result b1 C1 None), s1)).
  { unfold s1. rewrite <- H2. destruct d.
    - apply c1_buy with yh; [split | | |]; tauto.
    - apply c1_sell with yh yl; [split | | | | |]; tauto. }
  assert (A1 : armed s1 b2) by (split; assumption).
  assert (A2 : armed s2 b3) by (split; assumption).
  assert (E2 : on_candle_close levels b2 s1 = (Ok (result b2 C2 None), s2)).
  { refine (eq_trans (c2_accept levels s1 b2 b1 d yh yl A1 eq_refl eq_refl
                        eq_refl Hh Hl _) eq_refl).
    destruct d; simpl; tauto. }
  assert (E3 : on_candle_close levels b3 s2 =
            (Ok (result b3 SIGNAL (Some (order_for s d b1 b2 b3 sz))),
             locked s)).
  { assert (Hsz2 : size_for s2 (open b3) (stop_for d b1 b2) = Ok sz)
      by (unfold s2; now rewrite size_for_with_setup).
    exact (eq_trans (c3_signal levels s2 b3 b1 b2 d sz A2 eq_refl eq_refl
                       eq_refl Hsz2 Hpos) eq_refl). }
  simpl. now rewrite E1, E2, E3.
Qed.

(** C6. While C1 is set and C2 is empty on an unlocked day, a candle that
    does not continue the breakout side gives INVALIDATED; C1, C2 and the
    direction are cleared and the day stays unlocked.  From that state any
    valid breakout, acceptance and entry of the same day, on either side,
    still ends in SIGNAL. *)
Theorem invalidation_does_not_lock levels s c k1 yh yl :
  armed s c -> c1 s = Some k1 -> c2 s = None ->
  y_high s = Some yh -> y_low s = Some yl ->
  ~ continues (direction s) yh yl c ->
  let s' := with_setup s None None None in
  on_candle_close levels c s = (Ok (result c INVALIDATED None), s')
  /\ c1 s' = None /\ c2 s' = None /\ direction s' = None
  /\ traded_today s' = false
  /\ forall d b1 b2 b3 sz,
       valid_sequence s' d yh yl b1 b2 b3 sz ->
       run levels [b1; b2; b3] s' =
         (Ok [ result b1 C1 None; result b2 C2 None;
               result b3 SIGNAL (Some (order_for s' d b1 b2 b3 sz)) ],
          locked s').
Proof.
  intros Ha H1 H2 Hh Hl Hn s'.
  split; [now apply c2_invalidate with k1 yh yl |].
  repeat split; try reflexivity.
  - apply Ha.
  - intros d b1 b2 b3 sz Hv.
    apply valid_sequence_signals with yh yl; try reflexivity;
      try assumption.
    apply Ha.
Qed.

Lemma invalidation_does_not_lock_witness :
  on_candle_close Sample.levels Sample.failed Sample.after_c1 =
    (Ok (result Sample.failed INVALIDATED None), Sample.opened)
  /\ run Sample.levels
       [Sample.breakout; Sample.acceptance; Sample.entry_bar]
       Sample.opened =
     (Ok [ result Sample.breakout C1 None;
           result Sample.acceptance C2 None;
           result Sample.entry_bar SIGNAL
             (Some (order_for Sample.opened BUY Sample.breakout
                      Sample.acceptance Sample.entry_bar 4)) ],
      locked Sample.opened).
Proof.
  assert (Ha : armed Sample.after_c1 Sample.failed)
    by (split; reflexivity).
  assert (Hn : ~ continues (direction Sample.after_c1) 100 90 Sample.failed)
    by (vm_compute; discriminate).
  pose proof (invalidation_does_not_lock Sample.levels Sample.after_c1
                Sample.failed Sample.breakout 100 90 Ha eq_refl eq_refl
                eq_refl eq_refl Hn) as (E & _ & _ & _ & _ & Hseq).
  split; [exact E |].
  apply (Hseq BUY Sample.breakout Sample.acceptance Sample.entry_bar 4%Q).
  repeat split; try reflexivity.
  repeat constructor.
Defined.

(** *** The day lock *)

Lemma blocked_when_locked levels s c :
  today s = Some (dt_date (start_time c)) -> traded_today s = true ->
  on_candle_close levels c s = (Ok (result c BLOCKED None), s).
Proof.
  intros Hd Ht. step. now rewrite (same_day_guard _ _ Hd), Ht.
Qed.

Lemma blocked_all_day levels s later :
  traded_today s = true ->
  Forall (fun k => today s = Some (dt_date (start_time k))) later ->
  run levels later s =
    (Ok (map (fun k => result k BLOCKED None) later), s).
Proof.
  intros Ht. induction 1 as [| k later Hk _ IH]; simpl.
  - reflexivity.
  - now rewrite (blocked_when_locked levels s k Hk Ht), IH.
Qed.

(** A signal comes from the entry branch only: the strategy was on the
    candle's day and leaves locked. *)
Lemma signal_inversion levels s c sig s' :
  on_candle_close levels c s = (Ok sig, s') ->
  decision_of sig = SIGNAL ->
  today s = Some (dt_date (start_time c)) /\ s' = locked s.
Proof.
  intros H Hsig.
  branches H; try (inversion H; subst; simpl in Hsig; discriminate).
  all: inversion H; subst; split; [| reflexivity].
  all: match goal with
       | E : negb (bool_decide _) = false |- _ =>
           apply negb_false_iff, bool_decide_eq_true_1 in E; exact E
       end.
Qed.

(** C1. Once [on_candle_close] has answered SIGNAL for a candle, the day
    lock is set for that candle's day, and every later candle of that day
    is answered BLOCKED and leaves the whole strategy unchanged, whatever
    its prices. *)
Theorem one_trade_per_day levels s c sig s' :
  on_candle_close levels c s = (Ok sig, s') ->
  decision_of sig = SIGNAL ->
  traded_today s' = true
  /\ today s' = Some (dt_date (start_time c))
  /\ forall later,
       Forall (fun k => today s' = Some (dt_date (start_time k))) later ->
       run levels later s' =
         (Ok (map (fun k => result k BLOCKED None) later), s').
Proof.
  intros H Hsig.
  destruct (signal_inversion _ _ _ _ _ H Hsig) as [Hd ->].
  repeat split.
  - exact Hd.
  - intros later Hl. now apply blocked_all_day.
Qed.

Lemma one_trade_per_day_witness :
  run Sample.levels [Sample.breakout; Sample.inside; Sample.entry_bar]
    (locked Sample.after_c2) =
  (Ok [ result Sample.breakout BLOCKED None;
        result Sample.inside BLOCKED None;
        result Sample.entry_bar BLOCKED None ],
   locked Sample.after_c2).
Proof.
  refine (proj2 (proj2 (one_trade_per_day Sample.levels Sample.after_c2
            Sample.entry_bar
            (result Sample.entry_bar SIGNAL
               (Some (order_for Sample.after_c2 BUY Sample.breakout
                        Sample.acceptance Sample.entry_bar 4)))
            (locked Sample.after_c2) _ eq_refl)) _ _).
  - reflexivity.
  - repeat constructor.
Defined.

(** *** Entry, sizing and rejection *)

(** C2, as the code has it.  With C1 and C2 both set on an unlocked
    day, the entry is the candle's open, the stop is the lower of the
    two lows for BUY and the higher of the two highs for SELL, the
    target is the entry plus (BUY) or minus (SELL) [tp_pips * pip_size],
    and the size is the risk amount [account_balance * risk_percent]
    divided by [|entry - stop| * contract_size] and rounded to two
    decimals, every operation being the one of doubles: the size is the
    double nearest to [k / 100], where [k] is the integer nearest to a
    hundred times the quotient, the even one on a tie.  A zero distance
    is rejected without dividing, whatever the configuration.  For a
    nonzero distance, when [|entry - stop| * contract_size] is zero the
    division raises ZeroDivisionError and the strategy is left as it
    was, setup and day lock included; otherwise a size of zero or less
    is rejected, the setup being cleared and the day left unlocked, and
    any other size locks the day, clears the setup and returns SIGNAL
    with the order.  A balance of 10000 at 2 percent with contract size
    100 gives size 4 for entry 100 and stop 99.5, and size 0.01 for
    entry 500 and stop 100. *)
Theorem c3_entry levels s c k1 k2 d :
  armed s c -> c1 s = Some k1 -> c2 s = Some k2 -> direction s = Some d ->
  let entry := open c in
  let stop := stop_for d k1 k2 in
  let dist := Qabs (fsub entry stop) in
  let per_unit := fmul dist (contract_size s) in
  let quotient :=
    fdiv (fmul (account_balance s) (risk_percent s)) per_unit in
  let sz := round2 quotient in
  let target :=
    match d with
    | BUY => fadd entry (fmul (tp_pips s) (pip_size s))
    | SELL => fsub entry (fmul (tp_pips s) (pip_size s))
    end in
  let rejected :=
    (Ok (result c REJECTED None), with_setup s None None None) in
  let fired :=
    (Ok (result c SIGNAL
           (Some {| order_epic := epic s;
                    order_direction := Some d;
                    size := sz;
                    orderType := "STOP";
                    level := entry;
                    stopLevel := stop;
                    profitLevel := target |})),
     with_setup (with_traded_today s true) None None None) in
  ((dist == 0)%Q -> on_candle_close levels c s = rejected)
  /\ (~ (dist == 0)%Q -> (per_unit == 0)%Q ->
      on_candle_close levels c s = (Raise ZeroDivisionError, s))
  /\ (~ (per_unit == 0)%Q ->
      ((sz <= 0)%Q -> on_candle_close levels c s = rejected)
      /\ ((0 < sz)%Q -> on_candle_close levels c s = fired))
  /\ match d with
     | BUY => CandleAggregator.is_min stop [low k1; low k2]
     | SELL => CandleAggregator.is_max stop [high k1; high k2]
     end
  /\ (exists k : Z,
        sz = fl (inject_Z k / 100)
        /\ (inject_Z k - (1 # 2) <= quotient * 100
            <= inject_Z k + (1 # 2))%Q
        /\ ((quotient * 100 == inject_Z k - (1 # 2))%Q
            \/ (quotient * 100 == inject_Z k + (1 # 2))%Q ->
            Z.even k = true))
  /\ traded_today (snd rejected) = false
  /\ c1 (snd rejected) = None /\ c2 (snd rejected) = None
  /\ direction (snd rejected) = None
  /\ traded_today (snd fired) = true
  /\ c1 (snd fired) = None /\ c2 (snd fired) = None
  /\ direction (snd fired) = None
  /\ size_for (init (epic s) 10000 2 (tp_pips s) (pip_size s) 100)
       100 (199 # 2) = Ok 4%Q
  /\ size_for (init (epic s) 10000 2 (tp_pips s) (pip_size s) 100)
       500 100 = Ok (5764607523034235 # 576460752303423488)%Q.
Proof.
  intros Ha H1 H2 Hdir entry stop dist per_unit quotient sz target
    rejected fired.
  assert (Hzero : (dist == 0)%Q -> on_candle_close levels c s = rejected).
  { intros Hz. apply c3_reject with k1 k2 d 0%Q; auto.
    - now apply size_for_zero_distance.
    - apply Qle_refl. }
  assert (Hsize : ~ (per_unit == 0)%Q ->
            size_for s (open c) (stop_for d k1 k2) = Ok sz)
    by (intros Hp; now apply size_for_positive_distance).
  split; [exact Hzero |].
  split.
  { intros Hd Hp. apply c3_fault with k1 k2 d; auto.
    now apply size_for_fault. }
  split.
  { intros Hp. split.
    - intros Hle. apply c3_reject with k1 k2 d sz; auto.
    - intros Hpos.
      replace fired with
        (Ok (result c SIGNAL (Some (order_for s d k1 k2 c sz))), locked s)
        by (unfold fired, order_for, target_for, target; now destruct d).
      apply (c3_signal levels s c k1 k2 d sz); auto. }
  split.
  { unfold stop, stop_for, CandleAggregator.is_min, CandleAggregator.is_max,
      py_min, py_max.
    destruct d.
    - destruct (Qltb (low k2) (low k1)) eqn:E.
      + apply Qltb_lt in E. split; [right; left; reflexivity |].
        repeat constructor; [now apply Qlt_le_weak | apply Qle_refl].
      + apply Qltb_ge in E. split; [left; reflexivity |].
        repeat constructor; [apply Qle_refl | exact E].
    - destruct (Qgtb (high k2) (high k1)) eqn:E.
      + apply Qgtb_gt in E. split; [right; left; reflexivity |].
        repeat constructor; [now apply Qlt_le_weak | apply Qle_refl].
      + apply Qgtb_le in E. split; [left; reflexivity |].
        repeat constructor; [apply Qle_refl | exact E]. }
  split; [exact (round2_spec quotient) |].
  split; [apply Ha |].
  repeat (split; [reflexivity |]).
  vm_compute. reflexivity.
Qed.

Lemma c3_entry_witness :
  on_candle_close Sample.levels Sample.entry_bar Sample.after_c2 =
    (Ok (result Sample.entry_bar SIGNAL
           (Some {| order_epic := "GOLD";
                    order_direction := Some BUY;
                    size := 4;
                    orderType := "STOP";
                    level := 100;
                    stopLevel := 199 # 2;
                    profitLevel := 103 |})),
     locked Sample.after_c2)
  /\ on_candle_close Sample.levels Sample.far_entry Sample.tight =
    (Ok (result Sample.far_entry SIGNAL
           (Some {| order_epic := "GOLD";
                    order_direction := Some BUY;
                    size := 5764607523034235 # 576460752303423488;
                    orderType := "STOP";
                    level := 500;
                    stopLevel := 100;
                    profitLevel := 503 |})),
     locked Sample.tight)
  /\ on_candle_close Sample.levels Sample.flat Sample.tight =
     (Ok (result Sample.flat REJECTED None), Sample.opened).
Proof.
  assert (Ha : armed Sample.after_c2 Sample.entry_bar)
    by (split; reflexivity).
  assert (Hb : armed Sample.tight Sample.flat) by (split; reflexivity).
  assert (Hc : armed Sample.tight Sample.far_entry)
    by (split; reflexivity).
  split; [| split].
  - destruct (c3_entry Sample.levels Sample.after_c2 Sample.entry_bar
                Sample.breakout Sample.acceptance BUY Ha eq_refl eq_refl
                eq_refl) as (_ & _ & Hsz & _).
    refine (eq_trans (proj2 (Hsz _) _) _).
    + intros H. vm_compute in H. discriminate.
    + vm_compute. reflexivity.
    + vm_compute. reflexivity.
  - destruct (c3_entry Sample.levels Sample.tight Sample.far_entry
                Sample.acceptance Sample.acceptance BUY Hc eq_refl eq_refl
                eq_refl) as (_ & _ & Hsz & _).
    refine (eq_trans (proj2 (Hsz _) _) _).
    + intros H. vm_compute in H. discriminate.
    + vm_compute. reflexivity.
    + vm_compute. reflexivity.
  - destruct (c3_entry Sample.levels Sample.tight Sample.flat
                Sample.acceptance Sample.acceptance BUY Hb eq_refl eq_refl
                eq_refl) as (Hzero & _).
    apply Hzero. reflexivity.
Defined.

(** With a contract size of zero a setup that is complete and has a
    nonzero distance does not give REJECTED: the division raises. *)
Lemma c3_entry_counterexample :
  let s := init "GOLD" 10000 2 300 (fl (1 # 100)) 0 in
  exists s',
    run Sample.levels [Sample.inside; Sample.breakout; Sample.acceptance] s
    = (Ok [ result Sample.inside INIT_DAY None;
            result Sample.breakout C1 None;
            result Sample.acceptance C2 None ], s')
    /\ armed s' Sample.entry_bar
    /\ c1 s' = Some Sample.breakout /\ c2 s' = Some Sample.acceptance
    /\ direction s' = Some BUY
    /\ ~ (Qabs (fsub (open Sample.entry_bar)
                  (stop_for BUY Sample.breakout Sample.acceptance)) == 0)%Q
    /\ on_candle_close Sample.levels Sample.entry_bar s' =
       (Raise ZeroDivisionError, s').
Proof.
  intros s. eexists. split; [vm_compute; reflexivity |].
  repeat split.
  intros H. vm_compute in H. discriminate.
Qed.

(** With a zero contract size and a nonzero distance the division
    faults and the strategy is left as it was. *)
Lemma zero_contract_size_faults levels s c k1 k2 d :
  armed s c -> c1 s = Some k1 -> c2 s = Some k2 -> direction s = Some d ->
  ~ (Qabs (fsub (open c) (stop_for d k1 k2)) == 0)%Q ->
  (contract_size s == 0)%Q ->
  on_candle_close levels c s = (Raise ZeroDivisionError, s).
Proof.
  intros Ha H1 H2 Hdir Hz Hc.
  apply c3_fault with k1 k2 d; auto.
  apply size_for_fault; [exact Hz |].
  unfold fmul, fl.
  assert (Z : Qeq_bool (Qabs (fsub (open c) (stop_for d k1 k2))
                        * contract_size s) 0 = true)
    by (apply Qeq_bool_iff; rewrite Hc; ring).
  rewrite Z. reflexivity.
Qed.

(** *** Day rollover *)

(** C10. A candle whose date differs from the strategy's day only
    initialises the day: when the levels file has a row for the previous
    trading day the answer is INIT_DAY, the levels are loaded, the day is
    unlocked and no C1 is recorded whatever the candle's close; when it
    has none the load raises and the strategy is untouched.  A breakout
    is first recorded on a later candle of that day. *)
Theorem rollover_candle_not_evaluated levels s c :
  today s <> Some (dt_date (start_time c)) ->
  let day := dt_date (start_time c) in
  match last (matching_rows levels (get_previous_trading_day day)) with
  | Some row =>
      let s' :=
        with_setup
          (with_traded_today
             (with_levels s (high_bid row) (low_bid row) day) false)
          None None None in
      on_candle_close levels c s = (Ok (result c INIT_DAY None), s')
      /\ c1 s' = None /\ c2 s' = None /\ direction s' = None
      /\ traded_today s' = false /\ today s' = Some day
      /\ y_high s' = Some (high_bid row) /\ y_low s' = Some (low_bid row)
      /\ forall k,
           dt_date (start_time k) = day ->
           (high_bid row < close k)%Q ->
           on_candle_close levels k s' =
             (Ok (result k C1 None),
              with_setup s' (Some k) None (Some BUY))
  | None => on_candle_close levels c s = (Raise ValueError, s)
  end.
Proof.
  intros Hd day.
  destruct (last _) as [row |] eqn:Hrow.
  - split.
    + step. rewrite (new_day_guard _ _ Hd). fold day. now rewrite Hrow.
    + repeat split.
      intros k Hk Hgt.
      apply c1_buy with (high_bid row); try reflexivity; try assumption.
      split; [simpl; now rewrite Hk | reflexivity].
  - step. rewrite (new_day_guard _ _ Hd). fold day. now rewrite Hrow.
Qed.

Lemma rollover_candle_not_evaluated_witness :
  on_candle_close Sample.levels Sample.breakout Sample.fresh =
    (Ok (result Sample.breakout INIT_DAY None), Sample.opened)
  /\ c1 Sample.opened = None.
Proof.
  assert (Hd : today Sample.fresh
               <> Some (dt_date (start_time Sample.breakout)))
    by discriminate.
  pose proof (rollover_candle_not_evaluated Sample.levels Sample.fresh
                Sample.breakout Hd) as H.
  split; [exact (proj1 H) | exact (proj1 (proj2 H))].
Defined.

End StrategyProps.

(** ** Instants *)

Module TimeProps.

Lemma dt_to_us_of_us (u : Z) : dt_to_us (dt_of_us u) = u.
Proof.
  unfold dt_to_us, dt_of_us; simpl.
  Z.div_mod_to_equations. lia.
Qed.

Lemma dt_of_us_valid (u : Z) : valid_datetime (dt_of_us u).
Proof.
  unfold valid_datetime, dt_of_us; simpl.
  repeat split; apply Z.mod_pos_bound; lia.
Qed.

Lemma dt_of_us_to_us (t : datetime) :
  valid_datetime t -> dt_of_us (dt_to_us t) = t.
Proof.
  destruct t as [d h m s u].
  unfold valid_datetime, dt_to_us, dt_of_us; simpl.
  intros (Hh & Hm & Hs & Hu).
  f_equal; Z.div_mod_to_equations; lia.
Qed.

(** Adding seconds moves the instant by as many million microseconds. *)
Lemma dt_add_seconds_instant (t : datetime) (n : Z) :
  dt_to_us (dt_add_seconds t n) = dt_to_us t + n * 1000000.
Proof. unfold dt_add_seconds. apply dt_to_us_of_us. Qed.

Lemma dt_cmp_instant (a b : datetime) :
  valid_datetime a -> valid_datetime b ->
  dt_cmp a b = (dt_to_us a ?= dt_to_us b).
Proof.
  destruct a as [d h m s u], b as [d' h' m' s' u'].
  unfold valid_datetime, dt_cmp, dt_to_us, lex; simpl.
  intros (Hh & Hm & Hs & Hu) (Hh' & Hm' & Hs' & Hu').
  symmetry.
  destruct (Z.compare_spec d d'); [subst | apply Z.compare_lt_iff; lia
                                          | apply Z.compare_gt_iff; lia].
  destruct (Z.compare_spec h h'); [subst | apply Z.compare_lt_iff; lia
                                          | apply Z.compare_gt_iff; lia].
  destruct (Z.compare_spec m m'); [subst | apply Z.compare_lt_iff; lia
                                          | apply Z.compare_gt_iff; lia].
  destruct (Z.compare_spec s s'); [subst | apply Z.compare_lt_iff; lia
                                          | apply Z.compare_gt_iff; lia].
  destruct (Z.compare_spec u u'); [subst; apply Z.compare_refl
                                  | apply Z.compare_lt_iff; lia
                                  | apply Z.compare_gt_iff; lia].
Qed.

(** On well-formed datetimes the field order is the order of instants. *)
Lemma dt_gtb_instant (a b : datetime) :
  valid_datetime a -> valid_datetime b ->
  dt_gtb a b = true <-> dt_to_us b < dt_to_us a.
Proof.
  intros Ha Hb. unfold dt_gtb. rewrite (dt_cmp_instant a b Ha Hb).
  destruct (Z.compare_spec (dt_to_us a) (dt_to_us b)); split;
    intros; try lia; try discriminate; reflexivity.
Qed.

Lemma dt_ltb_instant (a b : datetime) :
  valid_datetime a -> valid_datetime b ->
  dt_ltb a b = true <-> dt_to_us a < dt_to_us b.
Proof.
  intros Ha Hb. unfold dt_ltb. rewrite (dt_cmp_instant a b Ha Hb).
  destruct (Z.compare_spec (dt_to_us a) (dt_to_us b)); split;
    intros; try lia; try discriminate; reflexivity.
Qed.

Lemma dt_cmp_refl (a : datetime) : dt_cmp a a = Eq.
Proof. unfold dt_cmp, lex. now rewrite !Z.compare_refl. Qed.

Lemma dt_gtb_irrefl (a : datetime) : dt_gtb a a = false.
Proof. unfold dt_gtb. now rewrite dt_cmp_refl. Qed.

End TimeProps.

(** ** The aggregator *)

Module AggregatorProps.
Import CandleAggregator TimeProps.

Lemma resolution_table (r : resolution) :
  _get_resolution_second (resolution_name r) = Some (seconds_of r).
Proof. destruct r; reflexivity. Qed.

Lemma init_resolution (r : resolution) (a : t) :
  init r = Some a -> resolution_seconds a = seconds_of r.
Proof.
  unfold init. rewrite resolution_table. simpl. now intros [= <-].
Qed.

Lemma init_supported (r : resolution) (a : t) :
  init r = Some a -> supported a.
Proof. intros H. exists r. now apply init_resolution. Qed.

Lemma init_total (r : resolution) : is_Some (init r).
Proof. unfold init. rewrite resolution_table. simpl. eauto. Qed.

(** *** Bucket starts *)

Lemma calculate_candle_start_valid (a : t) (ts : datetime) :
  0 < resolution_seconds a -> valid_datetime ts ->
  valid_datetime (_calculate_candle_start a ts).
Proof.
  destruct ts as [d h m s u].
  unfold valid_datetime, _calculate_candle_start, replace_minute,
    replace_second; simpl.
  intros Hr (Hh & Hm & Hs & Hu).
  destruct (60 <=? resolution_seconds a) eqn:E; simpl.
  - apply Z.leb_le in E.
    assert (0 < resolution_seconds a / 60)
      by (apply Z.div_str_pos; lia).
    pose proof (Z.mod_pos_bound m (resolution_seconds a / 60)).
    pose proof (Z.mod_le m (resolution_seconds a / 60)).
    lia.
  - pose proof (Z.mod_pos_bound s (resolution_seconds a)).
    pose proof (Z.mod_le s (resolution_seconds a)).
    lia.
Qed.

(** Up to one hour the computed start is the floor of the timestamp. *)
Lemma floor_within_the_hour (a : t) (ts : datetime) :
  In (resolution_seconds a) [60; 300; 900; 1800; 3600] ->
  valid_datetime ts ->
  is_bucket_floor (resolution_seconds a) ts (_calculate_candle_start a ts).
Proof.
  destruct ts as [d h m s u].
  unfold valid_datetime, is_bucket_floor, _calculate_candle_start,
    replace_minute, dt_to_us; simpl.
  intros Hr (Hh & Hm & Hs & Hu).
  repeat (destruct Hr as [Hr | Hr]; [rewrite <- Hr; clear Hr|]);
    try contradiction; simpl.
  all: match goal with
       | |- context [?n / 60] =>
           let v := eval vm_compute in (n / 60) in change (n / 60) with v
       end.
  all: split;
    [ apply Z.mod_divide; [lia |] | ];
    Z.div_mod_to_equations; lia.
Qed.

(** From one hour up the computed start is the top of the timestamp's
    hour, whatever the resolution. *)
Lemma from_one_hour_top_of_the_hour (a : t) (ts : datetime) :
  In (resolution_seconds a) [3600; 14400; 86400; 604800] ->
  valid_datetime ts ->
  _calculate_candle_start a ts = replace_minute ts 0.
Proof.
  intros Hr (_ & Hm & _).
  unfold _calculate_candle_start.
  assert (E : dt_minute ts mod (resolution_seconds a / 60) = dt_minute ts).
  { apply Z.mod_small.
    repeat (destruct Hr as [<- | Hr]; [vm_compute Z.div; lia |]).
    contradiction. }
  rewrite E, Z.sub_diag.
  repeat (destruct Hr as [<- | Hr]; [reflexivity |]).
  contradiction.
Qed.

(** C3, as the code has it.  For the resolutions up to one hour (MINUTE,
    MINUTE_5, MINUTE_15, MINUTE_30, HOUR_1) and every tick timestamp, the
    computed candle start is the largest multiple of the resolution that
    is not after the timestamp.  Every resolution of the table other than
    WEEK_1 divides a day exactly; WEEK_1 is a whole number of days. *)
Theorem bucket_floor_up_to_one_hour (r : resolution) (a : t)
    (ts : datetime) :
  In r [MINUTE; MINUTE_5; MINUTE_15; MINUTE_30; HOUR_1] ->
  init r = Some a ->
  valid_datetime ts ->
  is_bucket_floor (resolution_seconds a) ts (_calculate_candle_start a ts)
  /\ (forall r' secs,
        _get_resolution_second (resolution_name r') = Some secs ->
        r' <> WEEK_1 -> (secs | 86400))
  /\ (86400 | seconds_of WEEK_1).
Proof.
  intros Hr Hi Hts. split; [| split].
  - apply floor_within_the_hour; [| exact Hts].
    rewrite (init_resolution r a Hi).
    simpl in Hr.
    repeat (destruct Hr as [<- | Hr]; [simpl; tauto |]).
    contradiction.
  - intros r' secs Hs Hn. rewrite resolution_table in Hs.
    injection Hs as <-.
    destruct r'; try contradiction; simpl;
      [exists 1440 | exists 288 | exists 96 | exists 48 | exists 24
       | exists 6 | exists 1]; reflexivity.
  - exists 7. reflexivity.
Qed.

Lemma bucket_floor_up_to_one_hour_witness :
  is_bucket_floor 900 (Sample.at_ 10 52 41) (Sample.at_ 10 45 0).
Proof.
  assert (Hv : valid_datetime (Sample.at_ 10 52 41))
    by (unfold valid_datetime; simpl; lia).
  assert (Hr : In MINUTE_15 [MINUTE; MINUTE_5; MINUTE_15; MINUTE_30; HOUR_1])
    by (simpl; tauto).
  destruct (init MINUTE_15) as [a |] eqn:Hi; [| discriminate].
  pose proof (proj1 (bucket_floor_up_to_one_hour MINUTE_15 a
                       (Sample.at_ 10 52 41) Hr Hi Hv)) as H.
  injection Hi as <-. exact H.
Defined.

(** At four hours the computed start of 05:30 is 05:00, which is not a
    multiple of four hours; and a week does not divide a day. *)
Lemma bucket_floor_counterexample :
  _calculate_candle_start Sample.hour4_agg (Sample.at_ 5 30 0)
    = Sample.at_ 5 0 0
  /\ ~ bucket_floor_claim HOUR_4 (Sample.at_ 5 30 0)
  /\ ~ bucket_floor_claim WEEK_1 (Sample.at_ 0 0 0).
Proof.
  split; [reflexivity | split].
  - intros (a & Hi & (Hdiv & _) & _).
    injection Hi as <-.
    apply Z.mod_divide in Hdiv; [| discriminate].
    vm_compute in Hdiv. discriminate.
  - intros (a & Hi & _ & Hdiv).
    injection Hi as <-.
    apply Z.mod_divide in Hdiv; [| discriminate].
    vm_compute in Hdiv. discriminate.
Qed.

(** *** One tick *)

Ltac fields :=
  cbn [resolution_seconds candle_data current_candle_start last_candle
       last_price last_tick tick_count last_tick_time last_candle_time].

Ltac run_tick :=
  cbv [process_tick track _start_new_candle _close_candle getitem
       bind get modify ret raise];
  fields.

Lemma leaves_lookup a a' e c' :
  leaves a a' e c' -> candle_data a' !! e = Some c'.
Proof. intros (_ & -> & _). apply lookup_insert_eq. Qed.

Lemma leaves_wf a a' e c' : wf a -> leaves a a' e c' -> wf a'.
Proof.
  intros Hwf (_ & Hc & Hs) e' c. rewrite Hc, Hs.
  destruct (decide (e = e')) as [-> | Hne].
  - rewrite !lookup_insert_eq. now intros [= ->].
  - rewrite !lookup_insert_ne by done. apply Hwf.
Qed.

Lemma leaves_resolution a a' e c' ts :
  leaves a a' e c' ->
  _calculate_candle_start a' ts = _calculate_candle_start a ts.
Proof. intros (Hr & _). unfold _calculate_candle_start. now rewrite Hr. Qed.

Lemma tick_first now tk a :
  candle_data a !! epic tk = None ->
  exists a',
    process_tick now tk a = (Ok None, a')
    /\ leaves a a' (epic tk)
         (new_candle (bid tk) (_calculate_candle_start a (timestamp tk))).
Proof.
  intros Hn. run_tick. rewrite Hn.
  eexists. split; [reflexivity |]. now repeat split.
Qed.

Lemma tick_rollover now tk a c :
  wf a -> candle_data a !! epic tk = Some c ->
  dt_gtb (_calculate_candle_start a (timestamp tk)) (start_time c) = true ->
  exists a',
    process_tick now tk a =
      (Ok (Some (freeze c (epic tk)
                   (dt_add_seconds (start_time c) (resolution_seconds a))
                   (default now (received_at tk)))), a')
    /\ leaves a a' (epic tk)
         (new_candle (bid tk) (_calculate_candle_start a (timestamp tk))).
Proof.
  intros Hwf Hc Hgt. run_tick.
  rewrite Hc. fields. rewrite (Hwf _ _ Hc).
  change (_calculate_candle_start _ (timestamp tk))
    with (_calculate_candle_start a (timestamp tk)).
  rewrite Hgt. fields. rewrite Hc. fields. rewrite (Hwf _ _ Hc).
  eexists. split; [reflexivity |]. now repeat split.
Qed.

Lemma tick_update now tk a c :
  wf a -> candle_data a !! epic tk = Some c ->
  dt_gtb (_calculate_candle_start a (timestamp tk)) (start_time c) = false ->
  exists a',
    process_tick now tk a = (Ok None, a')
    /\ leaves a a' (epic tk) (fold_tick c tk).
Proof.
  intros Hwf Hc Hgt. run_tick.
  rewrite Hc. fields. rewrite (Hwf _ _ Hc).
  change (_calculate_candle_start _ (timestamp tk))
    with (_calculate_candle_start a (timestamp tk)).
  rewrite Hgt.
  eexists. split; [reflexivity |]. repeat split.
  fields. symmetry. apply insert_id. apply (Hwf _ _ Hc).
Qed.

(** Under [wf] a tick never faults. *)
Lemma process_tick_total now tk a :
  wf a -> exists r a', process_tick now tk a = (Ok r, a') /\ wf a'.
Proof.
  intros Hwf.
  destruct (candle_data a !! epic tk) as [c |] eqn:Hc.
  - destruct (dt_gtb (_calculate_candle_start a (timestamp tk))
                (start_time c)) eqn:Hgt.
    + destruct (tick_rollover now tk a c Hwf Hc Hgt) as (a' & -> & Hl).
      eauto using leaves_wf.
    + destruct (tick_update now tk a c Hwf Hc Hgt) as (a' & -> & Hl).
      eauto using leaves_wf.
  - destruct (tick_first now tk a Hc) as (a' & -> & Hl).
    eauto using leaves_wf.
Qed.

Lemma init_wf (r : resolution) (a : t) : init r = Some a -> wf a.
Proof.
  unfold init. rewrite resolution_table. simpl. intros [= <-] e c.
  simpl. now rewrite lookup_empty.
Qed.

(** From the constructor on, no run of ticks faults. *)
Lemma process_ticks_total tks :
  forall a, wf a ->
  exists rs a', process_ticks tks a = (Ok rs, a') /\ wf a'.
Proof.
  induction tks as [| [now tk] tks IH]; intros a Hwf; simpl.
  - eauto.
  - destruct (process_tick_total now tk a Hwf) as (r & a1 & -> & Hwf1).
    destruct (IH a1 Hwf1) as (rs & a' & -> & Hwf').
    eauto.
Qed.

(** The sample aggregators are the constructor's. *)
Lemma sample_aggregators :
  init MINUTE = Some Sample.minute_agg
  /\ init HOUR_4 = Some Sample.hour4_agg.
Proof. split; reflexivity. Qed.

(** *** Rollover *)

(** A timestamp that is a whole number of resolutions is its own bucket
    start, for every resolution of the table. *)
Lemma boundary_is_own_bucket (a : t) (ts : datetime) :
  supported a -> valid_datetime ts ->
  (resolution_seconds a * 1000000 | dt_to_us ts) ->
  _calculate_candle_start a ts = ts.
Proof.
  intros [r Hr] Hv Hdiv.
  apply Z.mod_divide in Hdiv; [| rewrite Hr; destruct r; discriminate].
  destruct ts as [d h m s u].
  unfold valid_datetime, _calculate_candle_start, replace_minute,
    dt_to_us in *; simpl in *.
  destruct Hv as (Hh & Hm & Hs & Hu).
  rewrite Hr in *. clear Hr.
  destruct r; simpl seconds_of in *; simpl Z.leb; cbv iota;
    match goal with
    | |- context [?n / 60] =>
        let v := eval vm_compute in (n / 60) in change (n / 60) with v
    end;
    f_equal; Z.div_mod_to_equations; lia.
Qed.

(** The start of a bucket is determined by the timestamp. *)
Lemma bucket_floor_unique (secs : Z) (ts b b' : datetime) :
  0 < secs -> valid_datetime b -> valid_datetime b' ->
  is_bucket_floor secs ts b -> is_bucket_floor secs ts b' -> b = b'.
Proof.
  intros Hs Hb Hb' [[k Hk] Hr] [[k' Hk'] Hr'].
  assert (E : dt_to_us b = dt_to_us b').
  { set (D := secs * 1000000) in *.
    assert (HD : 0 < D) by (unfold D; lia).
    rewrite Hk, Hk' in *.
    destruct (Z.lt_trichotomy k k') as [Hlt | [-> | Hgt]];
      [| reflexivity |].
    - assert ((k + 1) * D <= k' * D)
        by (apply Z.mul_le_mono_nonneg_r; lia). lia.
    - assert ((k' + 1) * D <= k * D)
        by (apply Z.mul_le_mono_nonneg_r; lia). lia. }
  rewrite <- (dt_of_us_to_us b Hb), <- (dt_of_us_to_us b' Hb').
  now rewrite E.
Qed.

(** Up to one hour the aggregator computes the start of the bucket. *)
Lemma computed_start_is_bucket (a : t) (ts b : datetime) :
  up_to_one_hour a -> valid_datetime ts -> valid_datetime b ->
  is_bucket_floor (resolution_seconds a) ts b ->
  _calculate_candle_start a ts = b.
Proof.
  intros Hr Hts Hb Hfloor.
  assert (Hpos : 0 < resolution_seconds a).
  { unfold up_to_one_hour in Hr.
    repeat (destruct Hr as [<- | Hr]; [lia |]). contradiction. }
  apply (bucket_floor_unique (resolution_seconds a) ts); auto.
  - now apply calculate_candle_start_valid.
  - now apply floor_within_the_hour.
Qed.




(** *** Ticks of one bucket *)

Lemma fold_ticks_open c tks : open (fold_ticks c tks) = open c.
Proof.
  revert c. induction tks as [| tk tks IH]; intros c; [easy |].
  unfold fold_ticks in *. simpl fold_left. now rewrite IH.
Qed.

Lemma fold_ticks_start_time c tks :
  start_time (fold_ticks c tks) = start_time c.
Proof.
  revert c. induction tks as [| tk tks IH]; intros c; [easy |].
  unfold fold_ticks in *. simpl fold_left. now rewrite IH.
Qed.

Lemma fold_ticks_volume c tks :
  volume (fold_ticks c tks) = volume c + Z.of_nat (length tks).
Proof.
  revert c. induction tks as [| tk tks IH]; intros c.
  - simpl. lia.
  - unfold fold_ticks in *. simpl fold_left. rewrite IH.
    simpl volume. simpl length. lia.
Qed.

Lemma last_nonempty_default {A : Type} (x : A) (l : list A) (d d' : A) :
  List.last (x :: l) d = List.last (x :: l) d'.
Proof.
  revert x. induction l as [| y l IH]; intros x; [reflexivity |].
  change (List.last (y :: l) d = List.last (y :: l) d'). apply IH.
Qed.

Lemma last_cons_default {A : Type} (d : A) (l : list A) :
  List.last (d :: l) d = List.last l d.
Proof. now destruct l. Qed.

Lemma fold_ticks_close c tks :
  close (fold_ticks c tks) = List.last (map bid tks) (close c).
Proof.
  revert c. induction tks as [| tk tks IH]; intros c; [easy |].
  unfold fold_ticks in *. simpl fold_left. rewrite IH. simpl close.
  destruct tks as [| t0 tks]; [reflexivity |].
  simpl map.
  exact (last_nonempty_default (bid t0) (map bid tks) (bid tk) (close c)).
Qed.

Lemma fold_ticks_high c tks :
  is_max (high (fold_ticks c tks)) (high c :: map bid tks).
Proof.
  revert c. induction tks as [| tk tks IH]; intros c.
  - split; [now left | repeat constructor; apply Qle_refl].
  - unfold fold_ticks in *. simpl fold_left.
    destruct (IH (fold_tick c tk)) as [Hin Hall].
    simpl high in Hin, Hall at 2.
    inversion Hall as [| ? ? Hhd Htl]; subst.
    split.
    + destruct Hin as [Hin | Hin].
      * rewrite <- Hin. simpl.
        destruct (py_max_cases (high c) (bid tk)) as [-> | ->]; auto.
      * right. now right.
    + simpl map. constructor; [| constructor; [| exact Htl]].
      * eapply Qle_trans; [apply py_max_ge_l | exact Hhd].
      * eapply Qle_trans; [apply py_max_ge_r | exact Hhd].
Qed.

Lemma fold_ticks_low c tks :
  is_min (low (fold_ticks c tks)) (low c :: map bid tks).
Proof.
  revert c. induction tks as [| tk tks IH]; intros c.
  - split; [now left | repeat constructor; apply Qle_refl].
  - unfold fold_ticks in *. simpl fold_left.
    destruct (IH (fold_tick c tk)) as [Hin Hall].
    simpl low in Hin, Hall at 2.
    inversion Hall as [| ? ? Hhd Htl]; subst.
    split.
    + destruct Hin as [Hin | Hin].
      * rewrite <- Hin. simpl.
        destruct (py_min_cases (low c) (bid tk)) as [-> | ->]; auto.
      * right. now right.
    + simpl map. constructor; [| constructor; [| exact Htl]].
      * eapply Qle_trans; [exact Hhd | apply py_min_le_l].
      * eapply Qle_trans; [exact Hhd | apply py_min_le_r].
Qed.

Lemma same_start_leaves a a' e' c' e b tks :
  leaves a a' e' c' -> same_start a e b tks -> same_start a' e b tks.
Proof.
  intros Hl Hs. unfold same_start in *.
  apply (List.Forall_impl _ (P := fun tk =>
           epic tk = e /\ _calculate_candle_start a (timestamp tk) = b));
    [| exact Hs].
  intros tk [He Hb]. split; [exact He |].
  now rewrite (leaves_resolution _ _ _ _ _ Hl).
Qed.

(** Ticks of the bucket of the candle in progress are all folded in, each
    answered with none. *)
Lemma ticks_in_bucket (tks : list (datetime * tick)) :
  forall a e c,
    wf a -> candle_data a !! e = Some c ->
    same_start a e (start_time c) (map snd tks) ->
    exists a',
      process_ticks tks a = (Ok (map (fun _ => None) tks), a')
      /\ candle_data a' !! e = Some (fold_ticks c (map snd tks))
      /\ wf a'.
Proof.
  induction tks as [| [now tk] tks IH]; intros a e c Hwf Hc Hsame.
  - exists a. simpl. auto.
  - simpl in Hsame. inversion Hsame as [| ? ? [He Hb] Hrest]; subst.
    assert (Hgt : dt_gtb (_calculate_candle_start a (timestamp tk))
                    (start_time c) = false)
      by (rewrite Hb; apply dt_gtb_irrefl).
    destruct (tick_update now tk a c Hwf Hc Hgt) as (a1 & E1 & L1).
    destruct (IH a1 (epic tk) (fold_tick c tk)) as (a' & E & Hc' & Hwf').
    + eapply leaves_wf; eauto.
    + eapply leaves_lookup; eauto.
    + eapply same_start_leaves; eauto.
    + exists a'. simpl. rewrite E1, E. auto.
Qed.

(** C4, as the code has it.  Take a resolution up to one hour and a
    non-empty run of ticks of one epic that all fall in one bucket of
    that resolution and whose first tick opens the bucket (no candle is
    in progress for the epic, or the one in progress started earlier).
    The first tick creates the candle with open, high, low and close
    equal to its bid and volume 1.  After the run the in-progress
    candle has the first bid as open, the last bid as close, the largest
    bid as high, the smallest as low and the number of ticks as volume.
    Every tick is answered with none, except that the first one returns
    the earlier candle, closed, when there is one. *)
Theorem within_bucket_aggregation a now0 tk0 rest b :
  wf a ->
  up_to_one_hour a ->
  valid_datetime b ->
  Forall (fun tk => valid_datetime (timestamp tk)) (tk0 :: map snd rest) ->
  same_bucket a (epic tk0) b (tk0 :: map snd rest) ->
  match candle_data a !! epic tk0 with
  | None => True
  | Some c => dt_gtb b (start_time c) = true
  end ->
  let ticks := tk0 :: map snd rest in
  let bids := map bid ticks in
  let r0 :=
    match candle_data a !! epic tk0 with
    | None => None
    | Some c =>
        Some {| open := open c; high := high c; low := low c;
                close := close c; volume := volume c;
                start_time := start_time c;
                last_update := last_update c;
                candle_epic := Some (epic tk0);
                end_time :=
                  Some (dt_add_seconds (start_time c)
                          (resolution_seconds a));
                closed_at := Some (default now0 (received_at tk0)) |}
    end in
  exists a1 a' c',
    process_tick now0 tk0 a = (Ok r0, a1)
    /\ candle_data a1 !! epic tk0 =
         Some {| open := bid tk0; high := bid tk0; low := bid tk0;
                 close := bid tk0; volume := 1; start_time := b;
                 last_update := None; candle_epic := None;
                 end_time := None; closed_at := None |}
    /\ process_ticks ((now0, tk0) :: rest) a =
         (Ok (r0 :: map (fun _ => None) rest), a')
    /\ candle_data a' !! epic tk0 = Some c'
    /\ open c' = bid tk0
    /\ close c' = List.last bids (bid tk0)
    /\ is_max (high c') bids
    /\ is_min (low c') bids
    /\ volume c' = Z.of_nat (length ticks)
    /\ start_time c' = b.
Proof.
  intros Hwf Hres Hbv Hvalid Hbucket Hfirst ticks bids r0.
  assert (Hsame : same_start a (epic tk0) b (tk0 :: map snd rest)).
  { unfold same_start, same_bucket in *.
    rewrite List.Forall_forall in *.
    intros tk Hin. destruct (Hbucket tk Hin) as [He Hf].
    split; [exact He |].
    apply computed_start_is_bucket; auto. }
  inversion Hsame as [| ? ? [_ Hb] Hrest]; subst.
  assert (Hstep : exists a1,
    process_tick now0 tk0 a = (Ok r0, a1)
    /\ leaves a a1 (epic tk0)
         (new_candle (bid tk0)
            (_calculate_candle_start a (timestamp tk0)))).
  { unfold r0. destruct (candle_data a !! epic tk0) as [c |] eqn:Hc.
    - now apply tick_rollover.
    - now apply tick_first. }
  destruct Hstep as (a1 & E1 & L1).
  set (b := _calculate_candle_start a (timestamp tk0)) in *.
  set (c0 := new_candle (bid tk0) b) in *.
  destruct (ticks_in_bucket rest a1 (epic tk0) c0) as (a' & E & Hc' & _).
  - eapply leaves_wf; eauto.
  - eapply leaves_lookup; eauto.
  - eapply same_start_leaves; eauto.
  - exists a1, a', (fold_ticks c0 (map snd rest)).
    split; [exact E1 |].
    split; [eapply leaves_lookup; eauto |].
    split; [simpl; now rewrite E1, E |].
    split; [exact Hc' |].
    split; [apply fold_ticks_open |].
    split; [unfold bids, ticks; simpl map;
            rewrite last_cons_default; apply fold_ticks_close |].
    split; [apply (fold_ticks_high c0) |].
    split; [apply (fold_ticks_low c0) |].
    split; [| apply fold_ticks_start_time].
    rewrite fold_ticks_volume. unfold ticks. simpl. lia.
Qed.

Lemma within_bucket_aggregation_witness :
  exists a',
    process_ticks
      [ (Sample.at_ 10 0 30, Sample.q1); (Sample.at_ 10 0 40, Sample.q2);
        (Sample.at_ 10 0 50, Sample.q3) ] Sample.minute_agg =
      (Ok [None; None; None], a')
    /\ exists c',
         candle_data a' !! "GOLD" = Some c'
         /\ open c' = 3 # 2 /\ close c' = 1 # 2
         /\ is_max (high c') [3 # 2; 5 # 2; 1 # 2]
         /\ is_min (low c') [3 # 2; 5 # 2; 1 # 2]
         /\ volume c' = 3.
Proof.
  assert (Hwf : wf Sample.minute_agg)
    by (intros e c H; simpl in H; now rewrite lookup_empty in H).
  assert (Hv : forall h m s, 0 <= h < 24 -> 0 <= m < 60 -> 0 <= s < 60 ->
               valid_datetime (Sample.at_ h m s))
    by (intros; unfold valid_datetime; simpl; lia).
  assert (Hf : forall s, 0 <= s < 60 ->
               is_bucket_floor 60 (Sample.at_ 10 0 s) (Sample.at_ 10 0 0)).
  { intros s Hs. unfold is_bucket_floor, dt_to_us. simpl. split.
    - exists ((Sample.day * 24 + 10) * 60). lia.
    - lia. }
  assert (Hs : same_bucket Sample.minute_agg (epic Sample.q1)
                 (Sample.at_ 10 0 0)
                 (Sample.q1 :: map snd [ (Sample.at_ 10 0 40, Sample.q2);
                                         (Sample.at_ 10 0 50, Sample.q3) ])).
  { repeat (apply Forall_cons; split;
              [split; [reflexivity | apply Hf; lia] |]).
    apply Forall_nil; exact I. }
  destruct (within_bucket_aggregation Sample.minute_agg
              (Sample.at_ 10 0 30) Sample.q1
              [ (Sample.at_ 10 0 40, Sample.q2);
                (Sample.at_ 10 0 50, Sample.q3) ]
              (Sample.at_ 10 0 0) Hwf (or_introl eq_refl)
              (Hv 10 0 0 ltac:(lia) ltac:(lia) ltac:(lia))
              ltac:(repeat (apply Forall_cons; split; [apply Hv; lia |]);
                    apply Forall_nil; exact I) Hs I)
    as (a1 & a' & c' & _ & _ & E & Hc & Ho & Hcl & Hmax & Hmin & Hv' & _).
  exists a'. split; [exact E |].
  exists c'. repeat split; assumption || apply Hmax || apply Hmin.
Defined.

(** With a 10:00 candle in progress, the ticks of 10:01:00 and 10:01:20
    fall in one bucket and the first of them opens it, yet that first
    tick is answered with the 10:00 candle, not with none.  And at four
    hours the ticks of 04:10 and 05:10 fall in one bucket, yet the
    second is answered with the candle of the first, closed: the
    candle does not take in its bucket. *)
Lemma within_bucket_counterexample :
  wf Sample.minute_agg1
  /\ same_bucket Sample.minute_agg1 "GOLD" (Sample.at_ 10 1 0)
       [Sample.q4; Sample.q5]
  /\ candle_data Sample.minute_agg1 !! "GOLD" =
       Some (new_candle (3 # 2) (Sample.at_ 10 0 0))
  /\ fst (process_tick (Sample.at_ 10 1 0) Sample.q4 Sample.minute_agg1) =
       Ok (Some (freeze (new_candle (3 # 2) (Sample.at_ 10 0 0)) "GOLD"
                   (Sample.at_ 10 1 0) (Sample.at_ 10 1 0)))
  /\ ~ none_throughout Sample.minute_agg1
         [ (Sample.at_ 10 1 0, Sample.q4); (Sample.at_ 10 1 20, Sample.q5) ]
  /\ same_bucket Sample.hour4_agg "GOLD" (Sample.at_ 4 0 0)
       [Sample.quote 1 (Sample.at_ 4 10 0); Sample.q7]
  /\ ~ none_throughout Sample.hour4_agg
         [ (Sample.at_ 4 10 0, Sample.quote 1 (Sample.at_ 4 10 0));
           (Sample.at_ 5 10 0, Sample.q7) ].
Proof.
  assert (Hwf : wf Sample.minute_agg1).
  { apply (leaves_wf Sample.minute_agg _ "GOLD"
             (new_candle (3 # 2) (Sample.at_ 10 0 0))).
    - intros e c H. simpl in H. now rewrite lookup_empty in H.
    - repeat split. }
  split; [exact Hwf |].
  split.
  { repeat constructor; unfold is_bucket_floor, dt_to_us; simpl;
      try lia;
      exists ((Sample.day * 24 + 10) * 60 + 1); vm_compute; reflexivity. }
  split; [apply lookup_insert_eq |].
  split; [vm_compute; reflexivity |].
  split; [unfold none_throughout; vm_compute; discriminate |].
  split.
  { repeat constructor; unfold is_bucket_floor, dt_to_us; simpl;
      try lia;
      exists ((Sample.day * 24 + 4) / 4); vm_compute; reflexivity. }
  unfold none_throughout. vm_compute. discriminate.
Qed.

End AggregatorProps.

(** ** CapitalClient validity *)

Module SessionProps.
Import CapitalClient TimeProps.

Ltac run_session :=
  cbv [headers get_websocket_headers _ensure_valid_session _renew_session
       bind get modify ret raise].

Lemma valid_tokens now c :
  _is_session_valid now c = true -> tokens_present c.
Proof.
  unfold _is_session_valid, tokens_present.
  destruct (truthy (cst c)), (truthy (security_token c)); simpl;
    intros; try discriminate; auto.
Qed.

Lemma is_session_valid_spec now c :
  valid_datetime now ->
  _is_session_valid now c = true <->
  tokens_present c
  /\ match session_expiry c with
     | None => True
     | Some expiry => dt_to_us now < dt_to_us expiry - 5 * 60 * 1000000
     end.
Proof.
  intros Hnow. unfold _is_session_valid, tokens_present.
  destruct (truthy (cst c)), (truthy (security_token c)); simpl;
    try (split; [discriminate | intros [[? ?] _]; discriminate]).
  destruct (session_expiry c) as [expiry |].
  - rewrite dt_ltb_instant;
      [| exact Hnow | apply dt_of_us_valid].
    rewrite dt_add_seconds_instant. split.
    + intros H. repeat split. lia.
    + intros [_ H]. lia.
  - tauto.
Qed.

(** The five ways a login can end, with what it leaves on the wire. *)
Lemma login_cases now reply w :
  login now reply w =
    match reply with
    | NoKey =>
        (Raise LoginError,
         {| session := session w;
            sent := sent w ++ [key_request (session w)] |})
    | Refused =>
        (Raise LoginError,
         {| session := session w;
            sent := sent w ++
              [key_request (session w); session_request (session w)] |})
    | Granted None _ =>
        (Raise KeyError,
         {| session := session w;
            sent := sent w ++
              [key_request (session w); session_request (session w)] |})
    | Granted (Some a) None =>
        (Raise KeyError,
         {| session := with_cst a (session w);
            sent := sent w ++
              [key_request (session w); session_request (session w)] |})
    | Granted (Some a) (Some b) =>
        (Ok tt,
         {| session := renewed now a b (session w);
            sent := sent w ++
              [key_request (session w); session_request (session w)] |})
    end.
Proof.
  destruct reply as [| | [a |] [b |]];
    cbv [login emit bind get modify ret raise with_session];
    cbn [session sent]; rewrite <- ?app_assoc; reflexivity.
Qed.

Lemma login_coherent now reply w :
  coherent (session w) -> coherent (session (snd (login now reply w))).
Proof.
  rewrite login_cases. unfold coherent.
  destruct reply as [| | [a |] [b |]]; cbn [snd session]; auto;
    intros _ _; simpl; eauto.
Qed.

(** Every session that a client can have is coherent. *)
Lemma reachable_coherent c : reachable c -> coherent c.
Proof.
  induction 1 as [k i p | now reply w _ IH].
  - unfold coherent. simpl. discriminate.
  - now apply login_coherent.
Qed.

Lemma headers_valid now reply w :
  _is_session_valid now (session w) = true ->
  headers now reply w =
    (Ok (api_key (session w), cst (session w), security_token (session w)),
     w)
  /\ get_websocket_headers now reply w =
    (Ok (api_key (session w), cst (session w), security_token (session w)),
     w).
Proof.
  intros Hv. pose proof (valid_tokens _ _ Hv) as [Hc Hs].
  run_session. rewrite Hv. simpl. now rewrite Hc, Hs.
Qed.

Lemma headers_renew now reply w :
  _is_session_valid now (session w) = false ->
  let w1 := snd (login now reply w) in
  let c1 := session w1 in
  get_websocket_headers now reply w =
    (match fst (login now reply w) with
     | Ok _ => Ok (api_key c1, cst c1, security_token c1)
     | Raise e => Raise e
     end, w1)
  /\ headers now reply w =
    (match fst (login now reply w) with
     | Ok _ =>
         if negb (truthy (cst c1)) || negb (truthy (security_token c1))
         then Raise RuntimeError
         else Ok (api_key c1, cst c1, security_token c1)
     | Raise e => Raise e
     end, w1).
Proof.
  intros Hv. run_session. rewrite Hv. cbn [negb].
  destruct (login now reply w) as [[[] | e] w1]; cbn [fst snd].
  - split; [reflexivity |].
    destruct (negb (truthy (cst (session w1)))
              || negb (truthy (security_token (session w1)))); reflexivity.
  - split; reflexivity.
Qed.

(** C9.  On every session that a client can have, the validity check
    answers true exactly when both tokens are present and the clock is
    strictly before the stored expiry less five minutes.  Both header
    builders run the check first.  A valid session is used as it is,
    nothing being sent.  Otherwise the session is renewed before
    anything else: the requests of a login go out, a failed login
    raises before any header is built, and a successful one supplies
    the tokens of the headers. *)
Theorem session_validity now w :
  reachable (session w) ->
  valid_datetime now ->
  let c := session w in
  (_is_session_valid now c = true <->
   tokens_present c /\ before_buffer now c)
  /\ (_is_session_valid now c = true ->
      forall reply,
        headers now reply w = (Ok (api_key c, cst c, security_token c), w)
        /\ get_websocket_headers now reply w =
             (Ok (api_key c, cst c, security_token c), w))
  /\ (_is_session_valid now c = false ->
      forall reply,
        let w1 := snd (login now reply w) in
        let c1 := session w1 in
        (exists more, sent w1 = sent w ++ key_request c :: more)
        /\ get_websocket_headers now reply w =
             (match fst (login now reply w) with
              | Ok _ => Ok (api_key c1, cst c1, security_token c1)
              | Raise e => Raise e
              end, w1)
        /\ headers now reply w =
             (match fst (login now reply w) with
              | Ok _ =>
                  if negb (truthy (cst c1))
                     || negb (truthy (security_token c1))
                  then Raise RuntimeError
                  else Ok (api_key c1, cst c1, security_token c1)
              | Raise e => Raise e
              end, w1))
  /\ (forall a b,
        login now (Granted (Some a) (Some b)) w =
          (Ok tt,
           {| session := renewed now a b c;
              sent := sent w ++ [key_request c; session_request c] |})).
Proof.
  intros Hreach Hnow c. split; [| split; [| split]].
  - rewrite (is_session_valid_spec now c Hnow). unfold before_buffer.
    pose proof (reachable_coherent c Hreach) as Hco. unfold coherent in Hco.
    destruct (session_expiry c) as [expiry |]; split.
    + intros [Ht Hlt]. split; [exact Ht |]. eauto.
    + intros [Ht (e & [= <-] & Hlt)]. auto.
    + intros [Ht _]. destruct (Hco (proj2 Ht)) as [? [=]].
    + intros [_ (e & [=] & _)].
  - intros Hv reply. now apply headers_valid.
  - intros Hv reply w1 c1.
    split; [| now apply headers_renew].
    unfold w1. rewrite login_cases.
    destruct reply as [| | [a |] [b |]]; cbn [snd sent]; eauto.
  - intros a b. apply (login_cases now (Granted (Some a) (Some b)) w).
Qed.

Lemma session_validity_witness :
  _is_session_valid (Sample.at_ 11 54 59) Sample.until_noon = true
  /\ _is_session_valid (Sample.at_ 11 55 0) Sample.until_noon = false
  /\ get_websocket_headers (Sample.at_ 11 55 0)
       (Granted (Some "cst-2") (Some "tok-2")) Sample.line =
     (Ok ("key", Some "cst-2", Some "tok-2"),
      {| session :=
           renewed (Sample.at_ 11 55 0) "cst-2" "tok-2" Sample.until_noon;
         sent := [ key_request Sample.until_noon;
                   session_request Sample.until_noon ] |}).
Proof.
  assert (Hv : forall h m s, 0 <= h < 24 -> 0 <= m < 60 -> 0 <= s < 60 ->
               valid_datetime (Sample.at_ h m s))
    by (intros; unfold valid_datetime; simpl; lia).
  assert (Hr : reachable (session Sample.line)).
  { change (session Sample.line)
      with (session
              (snd (login Sample.eve (Granted (Some "cst-1") (Some "tok-1"))
                      {| session := init "key" "me" "secret";
                         sent := [] |}))).
    apply reachable_login. apply reachable_init. }
  split; [| split].
  - apply (proj1 (session_validity (Sample.at_ 11 54 59) Sample.line Hr
                    (Hv 11 54 59 ltac:(lia) ltac:(lia) ltac:(lia)))).
    split; [split; reflexivity |].
    exists (Sample.at_ 12 0 0). split; reflexivity.
  - reflexivity.
  - destruct (proj1 (proj2 (proj2 (session_validity (Sample.at_ 11 55 0)
                                     Sample.line Hr
                                     (Hv 11 55 0 ltac:(lia) ltac:(lia)
                                        ltac:(lia)))))
                eq_refl (Granted (Some "cst-2") (Some "tok-2")))
      as (_ & E & _).
    rewrite E. reflexivity.
Defined.

End SessionProps.

(** * Further properties *)

(** ** Runs of the aggregator *)

Module AggregatorRuns.
Import CandleAggregator TimeProps AggregatorProps.

(** Everything one tick does, by case. *)
Lemma tick_step now tk a :
  wf a ->
  let b := _calculate_candle_start a (timestamp tk) in
  exists r c' a',
    process_tick now tk a = (Ok r, a')
    /\ leaves a a' (epic tk) c'
    /\ last_price a' = <[epic tk := bid tk]> (last_price a)
    /\ last_tick a' = <[epic tk := tk]> (last_tick a)
    /\ tick_count a' = tick_count a + 1
    /\ last_tick_time a' = Some now
    /\ ((candle_data a !! epic tk = None
         /\ r = None /\ c' = new_candle (bid tk) b
         /\ last_candle a' = last_candle a
         /\ last_candle_time a' = last_candle_time a)
        \/ (exists c,
              candle_data a !! epic tk = Some c
              /\ dt_gtb b (start_time c) = true
              /\ r = Some (freeze c (epic tk)
                             (dt_add_seconds (start_time c)
                                (resolution_seconds a))
                             (default now (received_at tk)))
              /\ c' = new_candle (bid tk) b
              /\ last_candle a' =
                   <[epic tk :=
                       freeze c (epic tk)
                         (dt_add_seconds (start_time c)
                            (resolution_seconds a))
                         (default now (received_at tk))]> (last_candle a)
              /\ last_candle_time a' =
                   Some (dt_add_seconds (start_time c)
                           (resolution_seconds a)))
        \/ (exists c,
              candle_data a !! epic tk = Some c
              /\ dt_gtb b (start_time c) = false
              /\ r = None /\ c' = fold_tick c tk
              /\ last_candle a' = last_candle a
              /\ last_candle_time a' = last_candle_time a)).
Proof.
  intros Hwf b.
  destruct (candle_data a !! epic tk) as [c |] eqn:Hc.
  - destruct (dt_gtb b (start_time c)) eqn:Hgt.
    + run_tick. rewrite Hc. fields. rewrite (Hwf _ _ Hc).
      change (_calculate_candle_start _ (timestamp tk)) with b.
      rewrite Hgt. fields. rewrite Hc. fields. rewrite (Hwf _ _ Hc).
      do 3 eexists. split; [reflexivity |].
      split; [now repeat split |].
      repeat (split; [reflexivity |]).
      right; left. exists c. now repeat split.
    + run_tick. rewrite Hc. fields. rewrite (Hwf _ _ Hc).
      change (_calculate_candle_start _ (timestamp tk)) with b.
      rewrite Hgt.
      do 3 eexists. split; [reflexivity |].
      split.
      { repeat split. fields. symmetry. apply insert_id, (Hwf _ _ Hc). }
      repeat (split; [reflexivity |]).
      right; right. exists c. now repeat split.
  - run_tick. rewrite Hc.
    do 3 eexists. split; [reflexivity |].
    split; [now repeat split |].
    repeat (split; [reflexivity |]).
    left. now repeat split.
Qed.

(** *** The shape of candles *)

Lemma new_candle_ok p b : candle_ok (new_candle p b).
Proof. unfold candle_ok; simpl. repeat split; try apply Qle_refl. lia. Qed.

Lemma fold_tick_ok c tk : candle_ok c -> candle_ok (fold_tick c tk).
Proof.
  intros (Hlo & Hoh & Hlc & Hch & Hv). unfold candle_ok; simpl.
  repeat split.
  - eapply Qle_trans; [apply py_min_le_l | exact Hlo].
  - eapply Qle_trans; [exact Hoh | apply py_max_ge_l].
  - apply py_min_le_r.
  - apply py_max_ge_r.
  - lia.
Qed.

Lemma freeze_ok c e t1 t2 : candle_ok c -> candle_ok (freeze c e t1 t2).
Proof. intros H. exact H. Qed.

Lemma leaves_all_ok a a' e c' :
  all_ok a -> leaves a a' e c' -> candle_ok c' -> all_ok a'.
Proof.
  intros Hok (_ & Hc & _) Hc' e' c. rewrite Hc.
  destruct (decide (e = e')) as [-> | Hne].
  - rewrite lookup_insert_eq. now intros [= <-].
  - rewrite lookup_insert_ne by done. apply Hok.
Qed.

Lemma tick_keeps_shape now tk a :
  wf a -> all_ok a ->
  exists r a',
    process_tick now tk a = (Ok r, a')
    /\ wf a' /\ all_ok a'
    /\ forall c, r = Some c -> candle_ok c.
Proof.
  intros Hwf Hok.
  destruct (tick_step now tk a Hwf)
    as (r & c' & a' & E & L & _ & _ & _ & _ & Hcase).
  exists r, a'. split; [exact E |].
  split; [eapply leaves_wf; eauto |].
  destruct Hcase as [(_ & -> & -> & _) | [(c & Hc & _ & -> & -> & _)
                                          | (c & Hc & _ & -> & -> & _)]].
  - split; [| discriminate].
    eapply leaves_all_ok; eauto using new_candle_ok.
  - split.
    + eapply leaves_all_ok; eauto using new_candle_ok.
    + intros k [= <-]. apply freeze_ok, (Hok _ _ Hc).
  - split; [| discriminate].
    eapply leaves_all_ok; eauto using fold_tick_ok.
Qed.

Lemma run_keeps_shape tks :
  forall a, wf a -> all_ok a ->
  exists rs a',
    process_ticks tks a = (Ok rs, a')
    /\ wf a' /\ all_ok a'
    /\ forall c, In (Some c) rs -> candle_ok c.
Proof.
  induction tks as [| [now tk] tks IH]; intros a Hwf Hok.
  - exists [], a. simpl. split; [reflexivity |].
    split; [exact Hwf |]. split; [exact Hok |]. intros c [].
  - destruct (tick_keeps_shape now tk a Hwf Hok)
      as (r & a1 & E1 & Hwf1 & Hok1 & Hr).
    destruct (IH a1 Hwf1 Hok1) as (rs & a' & E & Hwf' & Hok' & Hrs).
    exists (r :: rs), a'. simpl. rewrite E1, E.
    split; [reflexivity |]. split; [exact Hwf' |]. split; [exact Hok' |].
    intros c [-> | Hin]; auto.
Qed.

Lemma init_all_ok r a : init r = Some a -> all_ok a.
Proof.
  unfold init. rewrite resolution_table. simpl. intros [= <-] e c.
  simpl. now rewrite lookup_empty.
Qed.

(** Whatever ticks with a numeric bid a fresh aggregator is fed, it
    never faults on them, and every candle in progress and every candle
    it returns has its low at or below its open and close, its high at
    or above them, and a volume of at least one.  A quote without a bid
    is not such a tick. *)
Theorem candles_are_well_shaped r tks :
  exists a rs a',
    init r = Some a
    /\ process_ticks tks a = (Ok rs, a')
    /\ all_ok a'
    /\ forall c, In (Some c) rs -> candle_ok c.
Proof.
  destruct (init_total r) as [a Ha].
  destruct (run_keeps_shape tks a (init_wf r a Ha) (init_all_ok r a Ha))
    as (rs & a' & E & _ & Hok & Hrs).
  exists a, rs, a'. auto.
Qed.

(** *** Epics do not interfere *)

Lemma tick_frame now tk a e :
  wf a -> e <> epic tk ->
  exists r a',
    process_tick now tk a = (Ok r, a')
    /\ wf a'
    /\ candle_data a' !! e = candle_data a !! e
    /\ current_candle_start a' !! e = current_candle_start a !! e
    /\ get_last_candle e a' = get_last_candle e a
    /\ get_current_price e a' = get_current_price e a
    /\ get_last_tick e a' = get_last_tick e a.
Proof.
  intros Hwf Hne.
  destruct (tick_step now tk a Hwf)
    as (r & c' & a' & E & L & Hp & Ht & _ & _ & Hcase).
  exists r, a'. split; [exact E |].
  split; [eapply leaves_wf; eauto |].
  destruct L as (_ & Hc & Hs).
  unfold get_last_candle, get_current_price, get_last_tick.
  rewrite Hc, Hs, Hp, Ht, !lookup_insert_ne by done.
  repeat split.
  destruct Hcase as [(_ & _ & _ & -> & _) | [(c & _ & _ & _ & _ & -> & _)
                                            | (c & _ & _ & _ & _ & -> & _)]];
    try reflexivity.
  now rewrite lookup_insert_ne.
Qed.

(** A run without a tick of the epic [e] leaves everything the aggregator
    holds for [e] as it was: the candle in progress, its filed start, the
    last closed candle, the last price and the last tick. *)
Theorem other_epics_do_not_interfere tks :
  forall a e,
    wf a -> ticks_of e tks = [] ->
    exists rs a',
      process_ticks tks a = (Ok rs, a')
      /\ candle_data a' !! e = candle_data a !! e
      /\ current_candle_start a' !! e = current_candle_start a !! e
      /\ get_last_candle e a' = get_last_candle e a
      /\ get_current_price e a' = get_current_price e a
      /\ get_last_tick e a' = get_last_tick e a.
Proof.
  induction tks as [| [now tk] tks IH]; intros a e Hwf Hnone.
  - exists [], a. now repeat split.
  - unfold ticks_of in Hnone. simpl in Hnone.
    destruct (bool_decide (epic tk = e)) eqn:Heq; [discriminate |].
    apply bool_decide_eq_false_1 in Heq.
    destruct (tick_frame now tk a e Hwf)
      as (r & a1 & E1 & Hwf1 & H1 & H2 & H3 & H4 & H5); [congruence |].
    destruct (IH a1 e Hwf1 Hnone) as (rs & a' & E & G1 & G2 & G3 & G4 & G5).
    exists (r :: rs), a'. simpl. rewrite E1, E.
    split; [reflexivity |].
    rewrite G1, G2, G3, G4, G5. auto.
Qed.

Lemma other_epics_do_not_interfere_witness :
  exists rs a',
    process_ticks [ (Sample.at_ 10 0 40, Sample.q2);
                    (Sample.at_ 10 1 0, Sample.q4) ] Sample.minute_agg1 =
      (Ok rs, a')
    /\ candle_data a' !! "SILVER" = None.
Proof.
  assert (Hwf : wf Sample.minute_agg1).
  { apply (leaves_wf Sample.minute_agg _ "GOLD"
             (new_candle (3 # 2) (Sample.at_ 10 0 0))).
    - intros e c H. simpl in H. now rewrite lookup_empty in H.
    - repeat split. }
  destruct (other_epics_do_not_interfere
              [ (Sample.at_ 10 0 40, Sample.q2);
                (Sample.at_ 10 1 0, Sample.q4) ]
              Sample.minute_agg1 "SILVER" Hwf eq_refl)
    as (rs & a' & E & H & _).
  exists rs, a'. split; [exact E |]. rewrite H. reflexivity.
Defined.

(** *** No tick is lost *)

Lemma emitted_cons e r rs :
  emitted e (r :: rs) = emitted e [r] ++ emitted e rs.
Proof.
  unfold emitted. destruct r as [c |]; simpl; [| reflexivity].
  destruct (is_of e c); reflexivity.
Qed.

Lemma total_volume_app cs1 cs2 :
  total_volume (cs1 ++ cs2) = total_volume cs1 + total_volume cs2.
Proof.
  induction cs1 as [| c cs1 IH]; simpl; [lia |].
  rewrite IH. lia.
Qed.

Lemma tick_volume now tk a e :
  wf a ->
  exists r a',
    process_tick now tk a = (Ok r, a')
    /\ wf a'
    /\ in_progress_volume e a' + total_volume (emitted e [r]) =
       in_progress_volume e a
       + (if bool_decide (epic tk = e) then 1 else 0).
Proof.
  intros Hwf.
  destruct (tick_step now tk a Hwf)
    as (r & c' & a' & E & L & _ & _ & _ & _ & Hcase).
  exists r, a'. split; [exact E |].
  split; [eapply leaves_wf; eauto |].
  destruct L as (_ & Hc' & _).
  unfold in_progress_volume, emitted, is_of. rewrite Hc'.
  case_bool_decide as He.
  - subst e. rewrite lookup_insert_eq.
    destruct Hcase as [(Hc & -> & -> & _) | [(c & Hc & _ & -> & -> & _)
                                            | (c & Hc & _ & -> & -> & _)]];
      rewrite Hc; simpl.
    + lia.
    + rewrite bool_decide_eq_true_2 by reflexivity. simpl. lia.
    + lia.
  - rewrite lookup_insert_ne by done.
    destruct Hcase as [(Hc & -> & -> & _) | [(c & Hc & _ & -> & -> & _)
                                            | (c & Hc & _ & -> & -> & _)]];
      simpl; try lia.
    rewrite bool_decide_eq_false_2 by congruence. simpl. lia.
Qed.

(** Over any run, for every epic, the volume of the candle in progress
    plus the volumes of the candles returned for the epic grows by exactly
    the number of ticks of that epic: each tick is counted once, in one
    candle. *)
Theorem every_tick_is_counted_once tks :
  forall a e,
    wf a ->
    exists rs a',
      process_ticks tks a = (Ok rs, a')
      /\ in_progress_volume e a' + total_volume (emitted e rs) =
         in_progress_volume e a + Z.of_nat (length (ticks_of e tks)).
Proof.
  induction tks as [| [now tk] tks IH]; intros a e Hwf.
  - exists [], a. split; [reflexivity |]. simpl. lia.
  - destruct (tick_volume now tk a e Hwf) as (r & a1 & E1 & Hwf1 & H1).
    destruct (IH a1 e Hwf1) as (rs & a' & E & H).
    exists (r :: rs), a'. simpl process_ticks. rewrite E1, E.
    split; [reflexivity |].
    rewrite emitted_cons, total_volume_app.
    unfold ticks_of in *. simpl map. simpl List.filter.
    destruct (bool_decide (epic tk = e)); simpl length; lia.
Qed.

Lemma every_tick_is_counted_once_witness :
  exists rs a',
    process_ticks [ (Sample.at_ 10 0 40, Sample.q2);
                    (Sample.at_ 10 0 50, Sample.q3);
                    (Sample.at_ 10 1 0, Sample.q4);
                    (Sample.at_ 10 1 20, Sample.q5) ] Sample.minute_agg1 =
      (Ok rs, a')
    /\ in_progress_volume "GOLD" a' + total_volume (emitted "GOLD" rs) = 5.
Proof.
  assert (Hwf : wf Sample.minute_agg1).
  { apply (leaves_wf Sample.minute_agg _ "GOLD"
             (new_candle (3 # 2) (Sample.at_ 10 0 0))).
    - intros e c H. simpl in H. now rewrite lookup_empty in H.
    - repeat split. }
  destruct (every_tick_is_counted_once
              [ (Sample.at_ 10 0 40, Sample.q2);
                (Sample.at_ 10 0 50, Sample.q3);
                (Sample.at_ 10 1 0, Sample.q4);
                (Sample.at_ 10 1 20, Sample.q5) ]
              Sample.minute_agg1 "GOLD" Hwf) as (rs & a' & E & H).
  exists rs, a'. split; [exact E |]. rewrite H. reflexivity.
Defined.

(** *** Buckets only move forward *)

Lemma supported_pos a : supported a -> 0 < resolution_seconds a.
Proof. intros [r ->]. now destruct r. Qed.

Lemma leaves_supported a a' e c' : supported a -> leaves a a' e c' -> supported a'.
Proof. intros [r Hr] (H & _). exists r. congruence. Qed.

Lemma leaves_starts_valid a a' e c' :
  starts_valid a -> leaves a a' e c' -> valid_datetime (start_time c') ->
  starts_valid a'.
Proof.
  intros Hv (_ & Hc & _) Hc' e' c. rewrite Hc.
  destruct (decide (e = e')) as [-> | Hne].
  - rewrite lookup_insert_eq. now intros [= <-].
  - rewrite lookup_insert_ne by done. apply Hv.
Qed.

Lemma emitted_starts_cons e r rs :
  emitted_starts e (r :: rs) = emitted_starts e [r] ++ emitted_starts e rs.
Proof. unfold emitted_starts. now rewrite emitted_cons, map_app. Qed.

(** One tick, seen from the epic [e]. *)
Lemma tick_order now tk a e :
  wf a -> supported a -> starts_valid a ->
  valid_datetime (timestamp tk) ->
  exists r a',
    process_tick now tk a = (Ok r, a')
    /\ wf a' /\ supported a' /\ starts_valid a'
    /\ (forall c,
          candle_data a !! e = Some c ->
          exists c',
            candle_data a' !! e = Some c'
            /\ dt_to_us (start_time c) <= dt_to_us (start_time c')
            /\ (emitted_starts e [r] = []
                \/ emitted_starts e [r] = [dt_to_us (start_time c)]
                   /\ dt_to_us (start_time c) < dt_to_us (start_time c')))
    /\ (candle_data a !! e = None -> emitted_starts e [r] = []).
Proof.
  intros Hwf Hsup Hsv Hts.
  pose proof (supported_pos a Hsup) as Hpos.
  pose proof (calculate_candle_start_valid a (timestamp tk) Hpos Hts) as Hb.
  destruct (tick_step now tk a Hwf)
    as (r & c' & a' & E & L & _ & _ & _ & _ & Hcase).
  exists r, a'. split; [exact E |].
  split; [eapply leaves_wf; eauto |].
  split; [eapply leaves_supported; eauto |].
  assert (Hc'v : valid_datetime (start_time c')).
  { destruct Hcase as [(_ & _ & -> & _) | [(c & _ & _ & _ & -> & _)
                                          | (c & Hc & _ & _ & -> & _)]];
      simpl; auto. apply (Hsv _ _ Hc). }
  split; [eapply leaves_starts_valid; eauto |].
  destruct L as (_ & Hcd & _). rewrite Hcd.
  unfold emitted_starts, emitted, is_of.
  destruct (decide (epic tk = e)) as [<- | Hne].
  - rewrite lookup_insert_eq.
    destruct Hcase as [(Hc & -> & -> & _) | [(c & Hc & Hgt & -> & -> & _)
                                            | (c & Hc & _ & -> & -> & _)]];
      rewrite Hc; simpl.
    + split; [discriminate | reflexivity].
    + split; [| discriminate]. intros k [= <-].
      apply (dt_gtb_instant _ _ Hb (Hsv _ _ Hc)) in Hgt.
      eexists. split; [reflexivity |]. simpl. split; [lia |].
      right. rewrite bool_decide_eq_true_2 by reflexivity. simpl.
      split; [reflexivity | lia].
    + split; [| discriminate]. intros k [= <-].
      eexists. split; [reflexivity |]. simpl. split; [lia | now left].
  - rewrite lookup_insert_ne by done.
    assert (Hnil : map (fun c => dt_to_us (start_time c))
                     (List.filter
                        (fun c => bool_decide (candle_epic c = Some e))
                        (omap id [r])) = []).
    { destruct Hcase as [(_ & -> & _) | [(c & _ & _ & -> & _)
                                        | (c & _ & _ & -> & _)]];
        simpl; try reflexivity.
      rewrite bool_decide_eq_false_2 by congruence. reflexivity. }
    split.
    + intros c Hc. exists c. split; [exact Hc |]. split; [lia | now left].
    + intros _. exact Hnil.
Qed.

Lemma run_order tks :
  forall a e,
    wf a -> supported a -> starts_valid a -> timestamps_valid tks ->
    exists rs a',
      process_ticks tks a = (Ok rs, a')
      /\ StronglySorted Z.lt (emitted_starts e rs)
      /\ (forall c,
            candle_data a !! e = Some c ->
            Forall (fun x => dt_to_us (start_time c) <= x)
              (emitted_starts e rs)
            /\ exists c',
                 candle_data a' !! e = Some c'
                 /\ dt_to_us (start_time c) <= dt_to_us (start_time c'))
      /\ (forall c',
            candle_data a' !! e = Some c' ->
            Forall (fun x => x < dt_to_us (start_time c'))
              (emitted_starts e rs)).
Proof.
  induction tks as [| [now tk] tks IH]; intros a e Hwf Hsup Hsv Hts.
  - exists [], a. split; [reflexivity |].
    split; [constructor |]. split.
    + intros c Hc. split; [constructor | eauto using Z.le_refl].
    + intros c' _. constructor.
  - inversion Hts as [| ? ? Hts1 Hts']; subst. simpl in Hts1.
    destruct (tick_order now tk a e Hwf Hsup Hsv Hts1)
      as (r & a1 & E1 & Hwf1 & Hsup1 & Hsv1 & Hsome & Hnone).
    destruct (IH a1 e Hwf1 Hsup1 Hsv1 Hts')
      as (rs & a' & E & Hsorted & Hlow & Hhigh).
    exists (r :: rs), a'. simpl process_ticks. rewrite E1, E.
    split; [reflexivity |].
    rewrite emitted_starts_cons.
    destruct (candle_data a !! e) as [c |] eqn:Hc.
    + destruct (Hsome c eq_refl) as (c1 & Hc1 & Hle & Hr).
      destruct (Hlow c1 Hc1) as (Hall1 & c' & Hc' & Hle').
      destruct Hr as [-> | [-> Hlt]]; simpl.
      * split; [exact Hsorted |]. split.
        -- intros k [= <-]. split.
           ++ eapply List.Forall_impl; [| exact Hall1].
              intros x Hx. simpl in Hx. lia.
           ++ exists c'. split; [exact Hc' | lia].
        -- exact Hhigh.
      * split.
        { constructor; [exact Hsorted |].
          eapply List.Forall_impl; [| exact Hall1].
          intros x Hx. simpl in Hx. lia. }
        split.
        -- intros k [= <-]. split.
           ++ constructor; [lia |].
              eapply List.Forall_impl; [| exact Hall1].
              intros x Hx. simpl in Hx. lia.
           ++ exists c'. split; [exact Hc' | lia].
        -- intros c'' Hc''. rewrite Hc' in Hc''. injection Hc'' as <-.
           constructor; [lia |]. apply Hhigh, Hc'.
    + rewrite (Hnone eq_refl). simpl.
      split; [exact Hsorted |]. split; [discriminate | exact Hhigh].
Qed.

Lemma init_starts_valid r a : init r = Some a -> starts_valid a.
Proof.
  unfold init. rewrite resolution_table. simpl. intros [= <-] e c.
  simpl. now rewrite lookup_empty.
Qed.

(** When a fresh aggregator is fed ticks with well-formed timestamps, in
    any order, the candles it returns for an epic have strictly
    increasing start times, all earlier than the start of the candle left
    in progress: a bucket is closed once and never reopened. *)
Theorem buckets_only_move_forward r a tks e :
  init r = Some a -> timestamps_valid tks ->
  exists rs a',
    process_ticks tks a = (Ok rs, a')
    /\ StronglySorted Z.lt (emitted_starts e rs)
    /\ forall c',
         candle_data a' !! e = Some c' ->
         Forall (fun x => x < dt_to_us (start_time c'))
           (emitted_starts e rs).
Proof.
  intros Hi Hts.
  destruct (run_order tks a e (init_wf r a Hi) (init_supported r a Hi)
              (init_starts_valid r a Hi) Hts)
    as (rs & a' & E & Hs & _ & Hh).
  eauto.
Qed.

Lemma buckets_only_move_forward_witness :
  exists rs a',
    process_ticks Sample.feed Sample.minute_agg = (Ok rs, a')
    /\ StronglySorted Z.lt (emitted_starts "GOLD" rs).
Proof.
  assert (Hv : timestamps_valid Sample.feed)
    by (repeat constructor; simpl; lia).
  destruct (buckets_only_move_forward MINUTE Sample.minute_agg Sample.feed
              "GOLD" eq_refl Hv) as (rs & a' & E & H & _).
  exists rs, a'. split; assumption.
Defined.

(** *** What the accessors return *)

Lemma latest_app {A : Type} (l1 l2 : list A) (d : option A) :
  latest (l1 ++ l2) d = latest l2 (latest l1 d).
Proof.
  unfold latest. destruct l2 as [| x l2] using rev_ind.
  - rewrite app_nil_r. simpl. now destruct (last l1).
  - rewrite app_assoc, !last_snoc. reflexivity.
Qed.

Lemma latest_cons {A : Type} (x : A) (l : list A) (d : option A) :
  latest (x :: l) d = latest l (Some x).
Proof. apply (latest_app [x] l d). Qed.

Lemma tick_tracking now tk a e :
  wf a ->
  exists r a',
    process_tick now tk a = (Ok r, a')
    /\ wf a'
    /\ get_current_price e a' =
         (if bool_decide (epic tk = e) then Some (bid tk)
          else get_current_price e a)
    /\ get_last_tick e a' =
         (if bool_decide (epic tk = e) then Some tk
          else get_last_tick e a)
    /\ get_last_candle e a' = latest (emitted e [r]) (get_last_candle e a)
    /\ ticks_received a' = ticks_received a + 1.
Proof.
  intros Hwf.
  destruct (tick_step now tk a Hwf)
    as (r & c' & a' & E & L & Hp & Ht & Hn & _ & Hcase).
  exists r, a'. split; [exact E |].
  split; [eapply leaves_wf; eauto |].
  unfold get_current_price, get_last_tick, get_last_candle, ticks_received.
  rewrite Hp, Ht, Hn.
  case_bool_decide as He.
  - subst e. rewrite !lookup_insert_eq. repeat split.
    destruct Hcase as [(_ & -> & _ & -> & _) | [(c & _ & _ & -> & _ & -> & _)
                                               | (c & _ & _ & -> & _ & -> & _)]];
      try reflexivity.
    unfold latest, emitted, is_of. simpl.
    rewrite bool_decide_eq_true_2 by reflexivity. simpl.
    now rewrite lookup_insert_eq.
  - rewrite !lookup_insert_ne by done. repeat split.
    destruct Hcase as [(_ & -> & _ & -> & _) | [(c & _ & _ & -> & _ & -> & _)
                                               | (c & _ & _ & -> & _ & -> & _)]];
      try reflexivity.
    unfold latest, emitted, is_of. simpl.
    rewrite bool_decide_eq_false_2 by congruence. simpl.
    now rewrite lookup_insert_ne.
Qed.

(** After any run, [get_current_price] and [get_last_tick] answer with
    the last tick of the epic, late or not, [get_last_candle] with the
    candle most recently returned for the epic, and the tick counter has
    grown by the length of the run; an epic the run did not concern keeps
    its earlier answers. *)
Theorem accessors_follow_the_run tks :
  forall a e,
    wf a ->
    exists rs a',
      process_ticks tks a = (Ok rs, a')
      /\ get_current_price e a' =
           latest (map bid (ticks_of e tks)) (get_current_price e a)
      /\ get_last_tick e a' = latest (ticks_of e tks) (get_last_tick e a)
      /\ get_last_candle e a' = latest (emitted e rs) (get_last_candle e a)
      /\ ticks_received a' = ticks_received a + Z.of_nat (length tks).
Proof.
  induction tks as [| [now tk] tks IH]; intros a e Hwf.
  - exists [], a. split; [reflexivity |]. repeat split. simpl. lia.
  - destruct (tick_tracking now tk a e Hwf)
      as (r & a1 & E1 & Hwf1 & Hp1 & Ht1 & Hc1 & Hn1).
    destruct (IH a1 e Hwf1) as (rs & a' & E & Hp & Ht & Hc & Hn).
    exists (r :: rs), a'. simpl process_ticks. rewrite E1, E.
    split; [reflexivity |].
    rewrite (emitted_cons e r rs), latest_app.
    rewrite Hp, Ht, Hc, Hn, Hp1, Ht1, Hc1, Hn1.
    unfold ticks_of. simpl map. simpl List.filter.
    assert (Hlen : ticks_received a + 1 + Z.of_nat (length tks) =
                   ticks_received a
                   + Z.of_nat (length ((now, tk) :: tks)))
      by (simpl length; lia).
    destruct (bool_decide (epic tk = e)); simpl map;
      rewrite ?latest_cons; auto.
Qed.

Lemma accessors_follow_the_run_witness :
  exists rs a',
    process_ticks [ (Sample.at_ 10 1 0, Sample.q4);
                    (Sample.at_ 10 1 1, Sample.q6) ] Sample.minute_agg1 =
      (Ok rs, a')
    /\ get_current_price "GOLD" a' = Some (7 # 2)%Q
    /\ ticks_received a' = 3.
Proof.
  assert (Hwf : wf Sample.minute_agg1).
  { apply (leaves_wf Sample.minute_agg _ "GOLD"
             (new_candle (3 # 2) (Sample.at_ 10 0 0))).
    - intros e c H. simpl in H. now rewrite lookup_empty in H.
    - repeat split. }
  destruct (accessors_follow_the_run
              [ (Sample.at_ 10 1 0, Sample.q4);
                (Sample.at_ 10 1 1, Sample.q6) ]
              Sample.minute_agg1 "GOLD" Hwf)
    as (rs & a' & E & Hp & _ & _ & Hn).
  exists rs, a'. split; [exact E |]. split.
  - rewrite Hp. reflexivity.
  - rewrite Hn. reflexivity.
Defined.

(** *** Active epics *)

(** After any run the active epics are those that were active before
    together with the epics of the ticks of the run: an epic becomes
    active with its first tick and is never dropped. *)
Theorem active_epics_only_grow tks :
  forall a,
    wf a ->
    exists rs a',
      process_ticks tks a = (Ok rs, a')
      /\ active_epics a' =
           active_epics a ∪ list_to_set (map (fun p => epic (snd p)) tks).
Proof.
  induction tks as [| [now tk] tks IH]; intros a Hwf.
  - exists [], a. split; [reflexivity |]. simpl.
    now rewrite (right_id_L ∅ (∪)).
  - destruct (tick_step now tk a Hwf)
      as (r & c' & a1 & E1 & L & _).
    destruct (IH a1 (leaves_wf _ _ _ _ Hwf L)) as (rs & a' & E & H).
    exists (r :: rs), a'. simpl process_ticks. rewrite E1, E.
    split; [reflexivity |].
    rewrite H. destruct L as (_ & Hc & _).
    unfold active_epics. rewrite Hc, dom_insert_L. simpl.
    rewrite (comm_L (∪) {[epic tk]} (dom (candle_data a))).
    now rewrite (assoc_L (∪)).
Qed.

Lemma active_epics_only_grow_witness :
  exists rs a',
    process_ticks Sample.feed Sample.minute_agg = (Ok rs, a')
    /\ active_epics a' = {["GOLD"]}.
Proof.
  assert (Hwf : wf Sample.minute_agg)
    by (intros e c H; simpl in H; now rewrite lookup_empty in H).
  destruct (active_epics_only_grow Sample.feed Sample.minute_agg Hwf)
    as (rs & a' & E & H).
  exists rs, a'. split; [exact E |]. rewrite H.
  vm_compute. reflexivity.
Defined.

(** *** Bucket starts *)

(** For every positive resolution the computed start of a well-formed
    timestamp is a fixed point of the computation, is not after the
    timestamp, and lies in the same hour of the same day. *)
Theorem bucket_start_is_stable (a : t) (ts : datetime) :
  0 < resolution_seconds a -> valid_datetime ts ->
  let b := _calculate_candle_start a ts in
  _calculate_candle_start a b = b
  /\ dt_to_us b <= dt_to_us ts
  /\ dt_date b = dt_date ts /\ dt_hour b = dt_hour ts.
Proof.
  destruct ts as [d h m s u].
  unfold valid_datetime, _calculate_candle_start, replace_minute,
    replace_second, dt_to_us; simpl.
  intros Hr (Hh & Hm & Hs & Hu).
  destruct (60 <=? resolution_seconds a) eqn:E; simpl.
  - apply Z.leb_le in E.
    assert (Hk : 0 < resolution_seconds a / 60)
      by (apply Z.div_str_pos; lia).
    set (k := resolution_seconds a / 60) in *.
    assert (Hz : (m - m mod k) mod k = 0).
    { rewrite Zminus_mod_idemp_r, Z.sub_diag. apply Z.mod_0_l. lia. }
    rewrite Hz, Z.sub_0_r.
    pose proof (Z.mod_pos_bound m k Hk).
    repeat split; lia.
  - set (k := resolution_seconds a) in *.
    assert (Hz : (s - s mod k) mod k = 0).
    { rewrite Zminus_mod_idemp_r, Z.sub_diag. apply Z.mod_0_l. lia. }
    rewrite Hz, Z.sub_0_r.
    pose proof (Z.mod_pos_bound s k Hr).
    repeat split; lia.
Qed.

Lemma bucket_start_is_stable_witness :
  _calculate_candle_start Sample.minute_agg (Sample.at_ 10 0 0) =
    Sample.at_ 10 0 0.
Proof.
  assert (Hv : valid_datetime (Sample.at_ 10 0 40))
    by (unfold valid_datetime; simpl; lia).
  assert (Hp : 0 < resolution_seconds Sample.minute_agg) by reflexivity.
  exact (proj1 (bucket_start_is_stable Sample.minute_agg
                  (Sample.at_ 10 0 40) Hp Hv)).
Defined.

(** At four hours, one day and one week a candle does not last its
    resolution: a tick an hour or more after the candle's start closes
    it, although the end time stamped on the closed candle (start plus
    resolution) is still after that tick. *)
Theorem long_candles_close_within_the_hour now tk a c :
  wf a ->
  In (resolution_seconds a) [14400; 86400; 604800] ->
  candle_data a !! epic tk = Some c ->
  valid_datetime (start_time c) ->
  _calculate_candle_start a (start_time c) = start_time c ->
  valid_datetime (timestamp tk) ->
  dt_to_us (start_time c) + 3600 * 1000000 <= dt_to_us (timestamp tk) ->
  dt_to_us (timestamp tk) <
    dt_to_us (start_time c) + resolution_seconds a * 1000000 ->
  exists closed ended a',
    process_tick now tk a = (Ok (Some closed), a')
    /\ start_time closed = start_time c
    /\ end_time closed = Some ended
    /\ dt_to_us (timestamp tk) < dt_to_us ended.
Proof.
  intros Hwf Hr Hc Hsv Hfix Hts Hlo Hhi.
  assert (Hr' : In (resolution_seconds a) [3600; 14400; 86400; 604800])
    by (right; exact Hr).
  assert (Hpos : 0 < resolution_seconds a)
    by (repeat (destruct Hr as [<- | Hr]; [lia |]); contradiction).
  pose proof (from_one_hour_top_of_the_hour a _ Hr' Hts) as Hb.
  rewrite (from_one_hour_top_of_the_hour a _ Hr' Hsv) in Hfix.
  assert (Hgt : dt_gtb (_calculate_candle_start a (timestamp tk))
                  (start_time c) = true).
  { apply dt_gtb_instant;
      [now apply calculate_candle_start_valid | exact Hsv |].
    rewrite Hb. rewrite <- Hfix in Hlo |- *.
    destruct (timestamp tk) as [d h m s u], (start_time c) as [d0 h0 m0 s0 u0].
    unfold valid_datetime, replace_minute, dt_to_us in *; simpl in *.
    lia. }
  destruct (tick_rollover now tk a c Hwf Hc Hgt) as (a' & E & _).
  do 3 eexists. split; [exact E |]. split; [reflexivity |].
  split; [reflexivity |].
  rewrite dt_add_seconds_instant. lia.
Qed.

Lemma long_candles_close_within_the_hour_witness :
  exists closed ended a',
    process_tick (Sample.at_ 5 30 0) (Sample.quote 2 (Sample.at_ 5 30 0))
      Sample.hour4_agg1 = (Ok (Some closed), a')
    /\ start_time closed = Sample.at_ 4 0 0
    /\ end_time closed = Some ended
    /\ dt_to_us (Sample.at_ 5 30 0) < dt_to_us ended.
Proof.
  assert (Hwf : wf Sample.hour4_agg1).
  { apply (leaves_wf Sample.hour4_agg _ "GOLD"
             (new_candle 1 (Sample.at_ 4 0 0))).
    - intros e c H. simpl in H. now rewrite lookup_empty in H.
    - repeat split. }
  assert (Hc : candle_data Sample.hour4_agg1 !! "GOLD" =
               Some (new_candle 1 (Sample.at_ 4 0 0)))
    by apply lookup_insert_eq.
  assert (Hv : forall h m, 0 <= h < 24 -> 0 <= m < 60 ->
               valid_datetime (Sample.at_ h m 0))
    by (intros; unfold valid_datetime; simpl; lia).
  exact (long_candles_close_within_the_hour (Sample.at_ 5 30 0)
           (Sample.quote 2 (Sample.at_ 5 30 0)) Sample.hour4_agg1
           (new_candle 1 (Sample.at_ 4 0 0)) Hwf
           ltac:(simpl; tauto) Hc
           (Hv 4 0 ltac:(lia) ltac:(lia)) eq_refl
           (Hv 5 30 ltac:(lia) ltac:(lia))
           ltac:(vm_compute; discriminate) ltac:(reflexivity)).
Defined.

End AggregatorRuns.

(** ** Runs of the strategy *)

Module StrategyRuns.
Import YesterdayHighLowStrategy StrategyProps.

(** *** Faults *)

Lemma size_for_raise s entry stop e :
  size_for s entry stop = Raise e ->
  e = ZeroDivisionError
  /\ ~ (Qabs (fsub entry stop) == 0)%Q
  /\ (fmul (Qabs (fsub entry stop)) (contract_size s) == 0)%Q.
Proof.
  unfold size_for. step.
  destruct (Qle_bool (Qabs (fsub entry stop)) 0) eqn:E; [discriminate |].
  destruct (Qeq_bool _ _) eqn:F; [| discriminate].
  intros [= <-]. split; [reflexivity |].
  apply Qeq_bool_iff in F. apply Qle_bool_false in E.
  split; [| exact F].
  intros Z. rewrite Z in E. now apply Qlt_irrefl in E.
Qed.

(** Given a levels file that can be read and whose rows carry a trading
    day and two numeric levels, on a consistent strategy, which every
    strategy reached from the constructor is, [on_candle_close] raises
    in two cases only: the candle opens a new day and the file has no
    row for the previous trading day ([ValueError]), or an entry at a
    nonzero distance from its stop is sized and the distance times the
    contract size is zero as a double ([ZeroDivisionError]).  It never
    compares a price with a missing level, and such a raise leaves the
    strategy as it was. *)
Theorem faults_of_on_candle_close levels c s e s' :
  consistent s ->
  on_candle_close levels c s = (Raise e, s') ->
  s' = s
  /\ ((e = ValueError
       /\ today s <> Some (dt_date (start_time c))
       /\ last (matching_rows levels
                  (get_previous_trading_day (dt_date (start_time c))))
          = None)
      \/ (e = ZeroDivisionError
          /\ today s = Some (dt_date (start_time c))
          /\ traded_today s = false
          /\ exists k1 k2,
               c1 s = Some k1 /\ c2 s = Some k2
               /\ let stop :=
                    if is_side (direction s) BUY
                    then py_min (low k1) (low k2)
                    else py_max (high k1) (high k2) in
                  let dist := Qabs (fsub (open c) stop) in
                  ~ (dist == 0)%Q
                  /\ (fmul dist (contract_size s) == 0)%Q)).
Proof.
  intros (Hlv & _ & _) H.
  assert (Hl : negb (bool_decide (today s = Some (dt_date (start_time c))))
               = false ->
               y_high s <> None /\ y_low s <> None).
  { intros G. apply negb_false_iff, bool_decide_eq_true_1 in G.
    destruct Hlv as [[x Hx] [y Hy]]; [eauto |]. split; congruence. }
  clear Hlv.
  branches H; inversion H; subst; clear H;
    try (exfalso; destruct Hl as [A B]; [reflexivity |]; congruence).
  all: split; [reflexivity |].
  all: match goal with
       | G : negb (bool_decide _) = true |- _ =>
           left; apply negb_true_iff, bool_decide_eq_false_1 in G; auto
       | G : negb (bool_decide _) = false,
         E : size_for _ _ _ = Raise _ |- _ =>
           right; apply negb_false_iff, bool_decide_eq_true_1 in G;
           destruct (size_for_raise _ _ _ _ E) as (? & ? & ?);
           repeat split; eauto
       end.
  all: do 2 eexists; repeat split; eauto.
Qed.

Lemma faults_of_on_candle_close_witness :
  let s :=
    with_setup
      (with_traded_today
         (with_levels (init "GOLD" 10000 2 300 (fl (1 # 100)) 0)
            100 90 Sample.day) false)
      (Some Sample.breakout) (Some Sample.acceptance) (Some BUY) in
  (ZeroDivisionError = ValueError
   /\ today s <> Some (dt_date (start_time Sample.entry_bar))
   /\ last (matching_rows Sample.levels
              (get_previous_trading_day
                 (dt_date (start_time Sample.entry_bar)))) = None)
  \/ (ZeroDivisionError = ZeroDivisionError
      /\ today s = Some (dt_date (start_time Sample.entry_bar))
      /\ traded_today s = false
      /\ exists k1 k2,
           c1 s = Some k1 /\ c2 s = Some k2
           /\ let stop :=
                if is_side (direction s) BUY
                then py_min (low k1) (low k2)
                else py_max (high k1) (high k2) in
              let dist := Qabs (fsub (open Sample.entry_bar) stop) in
              ~ (dist == 0)%Q
              /\ (fmul dist (contract_size s) == 0)%Q).
Proof.
  intros s.
  refine (proj2 (faults_of_on_candle_close Sample.levels Sample.entry_bar
                   s ZeroDivisionError s _ _)).
  - unfold consistent, s, is_Some. simpl. repeat split; eauto; discriminate.
  - vm_compute. reflexivity.
Defined.

(** *** One signal a day *)

Lemma blocked_are_no_signals (later : list candle) :
  count_signals (map (fun k => result k BLOCKED None) later) = 0%nat.
Proof. induction later as [| k later IH]; [reflexivity | exact IH]. Qed.

(** Whatever the strategy it starts from, a run over candles of one date
    answers SIGNAL at most once. *)
Theorem at_most_one_signal_per_day levels d cs :
  forall s rs s',
    Forall (fun c => dt_date (start_time c) = d) cs ->
    run levels cs s = (Ok rs, s') ->
    (count_signals rs <= 1)%nat.
Proof.
  induction cs as [| c cs IH]; intros s rs s' Hd H; simpl in H.
  - injection H as <- <-. unfold count_signals. simpl. lia.
  - inversion Hd as [| ? ? Hc Hcs]; subst.
    destruct (on_candle_close levels c s) as [[sig | e] s1] eqn:E;
      [| discriminate].
    destruct (run levels cs s1) as [[rs1 | e] s2] eqn:E2; [| discriminate].
    injection H as <- <-.
    unfold count_signals. simpl List.filter.
    destruct (is_signal sig) eqn:Hsig.
    + assert (Hdec : decision_of sig = SIGNAL)
        by (unfold is_signal in Hsig; destruct (decision_of sig);
            congruence).
      destruct (signal_inversion _ _ _ _ _ E Hdec) as [Hday ->].
      rewrite (blocked_all_day levels (locked s) cs) in E2.
      * injection E2 as <- _.
        change (S (count_signals
                     (map (fun k => result k BLOCKED None) cs)) <= 1)%nat.
        rewrite blocked_are_no_signals. lia.
      * reflexivity.
      * eapply List.Forall_impl; [| exact Hcs].
        intros k Hk. simpl in *. now rewrite Hk.
    + apply (IH s1 rs1 s2 Hcs E2).
Qed.

Lemma at_most_one_signal_per_day_witness :
  (count_signals
     [ result Sample.inside INIT_DAY None;
       result Sample.breakout C1 None;
       result Sample.acceptance C2 None;
       result Sample.entry_bar SIGNAL
         (Some (order_for Sample.after_c2 BUY Sample.breakout
                  Sample.acceptance Sample.entry_bar 4));
       result Sample.breakout BLOCKED None;
       result Sample.acceptance BLOCKED None ] <= 1)%nat.
Proof.
  apply (at_most_one_signal_per_day Sample.levels Sample.day
           [ Sample.inside; Sample.breakout; Sample.acceptance;
             Sample.entry_bar; Sample.breakout; Sample.acceptance ]
           Sample.fresh _ (locked Sample.after_c2)).
  - repeat constructor.
  - reflexivity.
Defined.

(** *** What each answer says about the strategy *)

(** Every answer of [on_candle_close] carries the candle's start time,
    carries an order exactly when it is SIGNAL, and determines what
    happened to the strategy: INIT_DAY set the day, cleared the lock and
    the setup; BLOCKED and NO_TRADE changed nothing; C1 filled an empty
    C1 and set a direction; C2 filled C2 beside an existing C1;
    INVALIDATED and REJECTED cleared the setup and nothing else; SIGNAL
    cleared it and locked the day. *)
Theorem answers_describe_the_transition levels c s sig s' :
  on_candle_close levels c s = (Ok sig, s') ->
  time sig = start_time c
  /\ (is_Some (order_of sig) <-> decision_of sig = SIGNAL)
  /\ match decision_of sig with
     | INIT_DAY =>
         today s <> Some (dt_date (start_time c))
         /\ today s' = Some (dt_date (start_time c))
         /\ traded_today s' = false /\ setup_empty s'
     | BLOCKED => s' = s /\ traded_today s = true
     | NO_TRADE => s' = s /\ traded_today s = false /\ c1 s = None
     | C1 =>
         c1 s = None /\ c1 s' = Some c /\ c2 s' = c2 s
         /\ is_Some (direction s') /\ traded_today s' = false
     | C2 =>
         is_Some (c1 s) /\ c2 s = None
         /\ s' = with_setup s (c1 s) (Some c) (direction s)
     | INVALIDATED =>
         is_Some (c1 s) /\ c2 s = None
         /\ s' = with_setup s None None None /\ traded_today s' = false
     | REJECTED =>
         is_Some (c1 s) /\ is_Some (c2 s)
         /\ s' = with_setup s None None None /\ traded_today s' = false
     | SIGNAL =>
         is_Some (c1 s) /\ is_Some (c2 s) /\ traded_today s = false
         /\ s' = locked s
     end.
Proof.
  intros H. unfold setup_empty, is_Some.
  branches H; inversion H; subst; clear H;
    repeat match goal with
           | E : c1 _ = Some _ |- context [c1 _] => rewrite E
           | E : c2 _ = Some _ |- context [c2 _] => rewrite E
           end;
    cbn [time decision_of order_of result today traded_today c1 c2
         direction with_setup with_traded_today with_levels];
    (split; [reflexivity |]);
    (split; [split; [intros [o Ho]; congruence
                    | try discriminate; eauto] |]);
    repeat match goal with
           | G : negb (bool_decide _) = true |- _ =>
               apply negb_true_iff, bool_decide_eq_false_1 in G
           end;
    repeat split; eauto; congruence.
Qed.

Lemma answers_describe_the_transition_witness :
  is_Some (c1 Sample.after_c2) /\ is_Some (c2 Sample.after_c2)
  /\ traded_today Sample.after_c2 = false
  /\ locked Sample.after_c2 = locked Sample.after_c2.
Proof.
  exact (proj2 (proj2
    (answers_describe_the_transition Sample.levels Sample.entry_bar
       Sample.after_c2
       (result Sample.entry_bar SIGNAL
          (Some (order_for Sample.after_c2 BUY Sample.breakout
                   Sample.acceptance Sample.entry_bar 4)))
       (locked Sample.after_c2) eq_refl))).
Defined.

(** *** Loading the levels *)




(** *** What every reachable strategy satisfies *)

Lemma on_candle_close_config levels c s r s' :
  on_candle_close levels c s = (r, s') -> config s' = config s.
Proof.
  intros H.
  destruct (on_candle_close_shapes _ _ _ _ _ H)
    as [-> | [(h & l & d & ->) | [(_ & d & ->) | [(_ & ->) | [-> | ->]]]]];
    reflexivity.
Qed.

Lemma run_config levels cs :
  forall s r s', run levels cs s = (r, s') -> config s' = config s.
Proof.
  induction cs as [| c cs IH]; intros s r s' H; simpl in H.
  - now inversion H.
  - destruct (on_candle_close levels c s) as [[sig | e] s1] eqn:E.
    + destruct (run levels cs s1) as [[rs | e] s2] eqn:E2;
        inversion H; subst;
        rewrite (IH _ _ _ E2); eapply on_candle_close_config; eauto.
    + inversion H; subst. eapply on_candle_close_config; eauto.
Qed.

(** Whatever candles a new strategy is fed, and whether or not the run
    ends in a fault, the strategy it leaves has its configuration
    untouched, has levels loaded if a day is set, has no C2 and no
    direction without a C1, and has a direction with every C1. *)
Theorem reachable_strategies_are_consistent levels cs e b r tp pip csz
    res s' :
  run levels cs (init e b r tp pip csz) = (res, s') ->
  consistent s' /\ config s' = (e, b, fdiv r 100, tp, pip, csz).
Proof.
  intros H. split.
  - eapply run_consistent; [exact H | apply init_consistent].
  - rewrite (run_config _ _ _ _ _ H). reflexivity.
Qed.

Lemma reachable_strategies_are_consistent_witness :
  consistent Sample.after_c2
  /\ config Sample.after_c2 =
       ("GOLD", 10000, fdiv 2 100, 300, fl (1 # 100), 100)%Q.
Proof.
  apply (reachable_strategies_are_consistent Sample.levels
           [Sample.inside; Sample.breakout; Sample.acceptance]
           "GOLD" 10000 2 300 (fl (1 # 100)) 100
           (Ok [ result Sample.inside INIT_DAY None;
                 result Sample.breakout C1 None;
                 result Sample.acceptance C2 None ])).
  reflexivity.
Defined.

(** A levels file whose only row is the one of the calendar day before
    the candle serves the candle exactly from Tuesday to Saturday: on a
    Monday and on a Sunday the strategy looks for the Friday before,
    finds nothing and raises. *)
Theorem yesterdays_row_serves_tuesday_to_saturday d h l s :
  (weekday d <> 0 /\ weekday d <> 6 ->
   load_yesterday_levels [mkRow (d - 1) h l] d s =
     (Ok tt,
      with_setup (with_traded_today (with_levels s h l d) false)
        None None None))
  /\ (weekday d = 0 \/ weekday d = 6 ->
      load_yesterday_levels [mkRow (d - 1) h l] d s =
        (Raise ValueError, s)).
Proof.
  cbv [load_yesterday_levels _reset_setup bind modify raise].
  unfold matching_rows, get_previous_trading_day, date_sub_days. simpl.
  split.
  - intros [H0 H6]. apply Z.eqb_neq in H0, H6.
    now rewrite H0, H6, Z.eqb_refl.
  - intros [H | H]; rewrite H; simpl.
    + assert (E : (d - 1 =? d - 3) = false) by (apply Z.eqb_neq; lia).
      now rewrite E.
    + assert (E : (d - 1 =? d - 2) = false) by (apply Z.eqb_neq; lia).
      now rewrite E.
Qed.

Lemma yesterdays_row_serves_tuesday_to_saturday_witness :
  load_yesterday_levels [mkRow (738886 - 1) 100 90] 738886 Sample.fresh =
    (Raise ValueError, Sample.fresh)
  /\ load_yesterday_levels [mkRow (738888 - 1) 100 90] 738888 Sample.fresh
     = (Ok tt, Sample.opened).
Proof.
  split.
  - apply (proj2 (yesterdays_row_serves_tuesday_to_saturday 738886 100 90
                    Sample.fresh)).
    left. reflexivity.
  - apply (proj1 (yesterdays_row_serves_tuesday_to_saturday 738888 100 90
                    Sample.fresh)).
    split; discriminate.
Defined.

End StrategyRuns.

(** ** Working orders *)

Module OrderProps.
Import CapitalClient SessionProps.












(** The requests of a renewal that succeeds, none for a valid
    session. *)
Lemma headers_ok now lr w h w1 :
  headers now lr w = (Ok h, w1) ->
  h = (api_key (session w1), cst (session w1), security_token (session w1))
  /\ truthy (cst (session w1)) = true
  /\ truthy (security_token (session w1)) = true
  /\ sent w1 =
       sent w ++
         (if _is_session_valid now (session w) then []
          else [key_request (session w); session_request (session w)]).
Proof.
  destruct (_is_session_valid now (session w)) eqn:Hv.
  - destruct (headers_valid now lr w Hv) as [-> _].
    pose proof (valid_tokens _ _ Hv) as [Hc Hs].
    intros [= <- <-]. rewrite app_nil_r. auto.
  - destruct (headers_renew now lr w Hv) as [_ ->].
    rewrite login_cases.
    destruct lr as [| | [a |] [b |]]; cbn [fst snd session]; try discriminate.
    destruct (negb (truthy (cst (renewed now a b (session w))))
              || negb (truthy (security_token
                                 (renewed now a b (session w))))) eqn:E;
      [discriminate |].
    intros [= <- <-]. cbn [session sent].
    apply orb_false_iff in E as [E1 E2].
    apply negb_false_iff in E1, E2. auto.
Qed.

Lemma headers_raise now lr w e w1 :
  headers now lr w = (Raise e, w1) ->
  _is_session_valid now (session w) = false
  /\ (e = LoginError \/ e = KeyError \/ e = RuntimeError)
  /\ exists renewal,
       sent w1 = sent w ++ renewal
       /\ (renewal = [key_request (session w)]
           \/ renewal = [key_request (session w);
                         session_request (session w)]).
Proof.
  destruct (_is_session_valid now (session w)) eqn:Hv.
  - destruct (headers_valid now lr w Hv) as [-> _]. discriminate.
  - destruct (headers_renew now lr w Hv) as [_ ->].
    rewrite login_cases.
    destruct lr as [| | [a |] [b |]]; cbn [fst snd session sent];
      try (destruct (negb _ || negb _));
      intros [= <- <-]; cbn [sent]; eauto 8; discriminate.
Qed.

(** One exchange with the broker: either the headers cannot be had and
    the call stops there, or the request leaves with them. *)
Lemma exchange_cases now lr reply method path body w :
  (exists e w1,
     headers now lr w = (Raise e, w1)
     /\ exchange now lr reply method path body w =
          (Fault (Builtin e), w1))
  \/ (exists h w1,
        headers now lr w = (Ok h, w1)
        /\ exchange now lr reply method path body w =
             (match reply with
              | Some response => Done response
              | None => Fault HTTPError
              end,
              {| session := session w1;
                 sent := sent w1 ++
                   [ {| http_method := method; http_path := path;
                        http_headers := h; http_json := body |} ] |})).
Proof.
  unfold exchange, wbind, call, send, lift, emit, modify.
  destruct (headers now lr w) as [[h | e] w1] eqn:H.
  - right. exists h, w1. split; [reflexivity |].
    destruct reply; reflexivity.
  - left. exists e, w1. split; reflexivity.
Qed.

Lemma exchange_one_request now lr reply method path body w :
  one_request_at_most now w
    (snd (exchange now lr reply method path body w)).
Proof.
  destruct (exchange_cases now lr reply method path body w)
    as [(e & w1 & H & ->) | (h & w1 & H & ->)]; cbn [snd].
  - apply headers_raise in H as (Hv & _ & renewal & Hs & Hr).
    exists renewal, []. rewrite app_nil_r.
    split; [exact Hs |]. split; [right; auto | left; reflexivity].
  - apply headers_ok in H as (Hh & Hc & Ht & Hs).
    eexists _, [_]. cbn [sent]. rewrite Hs, <- app_assoc.
    split; [reflexivity |]. split.
    + destruct (_is_session_valid now (session w)) eqn:Hv;
        [left; reflexivity | right; auto].
    + right. eexists. split; [reflexivity |].
      unfold with_tokens_of. cbn [http_headers session]. auto.
Qed.

(** [add_order_id]: the reference without its ["o_"] under both names,
    every other field as the broker sent it. *)
Lemma add_order_id_fields (response : gmap string string) (ref : string) :
  response !! "dealReference" = Some ref ->
  add_order_id response !! "order_id" = Some (remove_o_ ref)
  /\ add_order_id response !! "dealId" = Some (remove_o_ ref)
  /\ forall k, k <> "order_id" -> k <> "dealId" ->
       add_order_id response !! k = response !! k.
Proof.
  intros H. unfold add_order_id. rewrite H. split; [| split].
  - rewrite lookup_insert_ne by discriminate. apply lookup_insert_eq.
  - apply lookup_insert_eq.
  - intros k H1 H2. now rewrite !lookup_insert_ne by congruence.
Qed.









(** No call on working orders puts more than one request of its own on
    the wire, and that request carries the two tokens of the session
    the call leaves, neither of them empty.  The only other requests a
    call can cause are those of a login, before its own and only when
    the session was not valid: the request for the key, followed or
    not by the session request, neither carrying a token. *)
Theorem order_calls_need_a_session iso now lr reply w :
  (forall x,
     one_request_at_most now w
       (snd (create_working_order iso now lr reply x w)))
  /\ (forall x,
        one_request_at_most now w
          (snd (update_working_order iso now lr reply x w)))
  /\ (forall deal_id,
        one_request_at_most now w
          (snd (get_working_order now lr reply deal_id w)))
  /\ (forall deal_id,
        one_request_at_most now w
          (snd (delete_working_order now lr reply deal_id w)))
  /\ http_headers (key_request (session w)) =
       (api_key (session w), None, None)
  /\ http_headers (session_request (session w)) =
       (api_key (session w), None, None).
Proof.
  assert (Hnone : forall w0, one_request_at_most now w0 w0).
  { intros w0. exists [], []. rewrite !app_nil_r.
    split; [reflexivity |]. split; left; reflexivity. }
  split; [| split; [| split; [| split; [| split]]]]; try reflexivity.
  - intros x. unfold create_working_order, wbind, checked.
    destruct (validate_create iso x) as [[] | e]; [| apply Hnone].
    pose proof (exchange_one_request now lr reply "POST" "/workingorders"
                  (create_body x) w) as H.
    destruct (exchange now lr reply "POST" "/workingorders"
                (create_body x) w) as [[r | e] w']; exact H.
  - intros x. unfold update_working_order, wbind, checked.
    destruct (validate_update iso x) as [[] | e]; [| apply Hnone].
    apply exchange_one_request.
  - intros deal_id. apply exchange_one_request.
  - intros deal_id. apply exchange_one_request.
Qed.

Lemma order_calls_need_a_session_witness :
  one_request_at_most (Sample.at_ 11 55 0) Sample.line
    (snd (get_working_order (Sample.at_ 11 55 0)
            (Granted (Some "cst-2") (Some "tok-2"))
            (Some Sample.confirmation) "deal-1" Sample.line)).
Proof.
  apply (proj1 (proj2 (proj2 (order_calls_need_a_session Sample.no_iso
                                (Sample.at_ 11 55 0)
                                (Granted (Some "cst-2") (Some "tok-2"))
                                (Some Sample.confirmation) Sample.line)))).
Defined.

End OrderProps.

(** ** The life of a session *)

Module SessionRuns.
Import CapitalClient TimeProps SessionProps.

Lemma truthy_nonempty (text : string) :
  truthy (Some text) = true <-> text <> EmptyString.
Proof.
  simpl. rewrite negb_true_iff.
  destruct (String.eqb_spec text EmptyString); split; congruence.
Qed.

(** A login at [now] that brings two non-empty tokens serves every call
    made strictly less than 22 hours 55 minutes later, and no call from
    then on: within that time [headers] returns the tokens of the login
    without another login, whatever a login would answer. *)
Theorem login_serves_for_22h55 now later new_cst new_token w :
  valid_datetime later ->
  new_cst <> EmptyString ->
  new_token <> EmptyString ->
  let w' :=
    snd (login now (Granted (Some new_cst) (Some new_token)) w) in
  (_is_session_valid later (session w') = true <->
   dt_to_us later < dt_to_us now + (22 * 3600 + 55 * 60) * 1000000)
  /\ (dt_to_us later < dt_to_us now + (22 * 3600 + 55 * 60) * 1000000 ->
      forall login_reply,
        headers later login_reply w' =
          (Ok (api_key (session w), Some new_cst, Some new_token), w')).
Proof.
  intros Hlater Hc Ht w'.
  assert (Hw : session w' = renewed now new_cst new_token (session w))
    by (unfold w'; now rewrite login_cases).
  assert (Hiff : _is_session_valid later (session w') = true <->
            dt_to_us later < dt_to_us now + (22 * 3600 + 55 * 60) * 1000000).
  { rewrite (is_session_valid_spec later (session w') Hlater), Hw.
    unfold tokens_present. simpl.
    rewrite dt_add_seconds_instant.
    pose proof (proj2 (truthy_nonempty new_cst) Hc) as H1.
    pose proof (proj2 (truthy_nonempty new_token) Ht) as H2.
    simpl in H1, H2. rewrite H1, H2.
    split; [intros [_ H]; lia | intros H; split; [auto | lia]]. }
  split; [exact Hiff |].
  intros H login_reply. apply Hiff in H.
  destruct (headers_valid later login_reply w' H) as [-> _].
  now rewrite Hw.
Qed.

Lemma login_serves_for_22h55_witness :
  _is_session_valid (Sample.at_ 23 0 0)
    (session
       (snd (login (Sample.at_ 1 0 0)
               (Granted (Some "cst-2") (Some "tok-2")) Sample.line)))
    = true
  <-> dt_to_us (Sample.at_ 23 0 0)
      < dt_to_us (Sample.at_ 1 0 0) + (22 * 3600 + 55 * 60) * 1000000.
Proof.
  apply (login_serves_for_22h55 (Sample.at_ 1 0 0) (Sample.at_ 23 0 0)
           "cst-2" "tok-2" Sample.line).
  - unfold valid_datetime; simpl; lia.
  - discriminate.
  - discriminate.
Defined.

End SessionRuns.

(** ** The windows of a historical download *)

Module HistoryProps.
Import CapitalClient TimeProps.

Lemma table_get_in {V : Type} (table : list (string * V)) key v :
  table_get table key = Ok v -> In (key, v) table.
Proof.
  unfold table_get.
  destruct (List.find _ table) as [[k v'] |] eqn:E; [| discriminate].
  intros [= <-]. apply List.find_some in E as [Hin Hk].
  apply String.eqb_eq in Hk. simpl in Hk. now subst.
Qed.

Lemma chunk_minutes_positive resolution delta :
  table_get CHUNK_MINUTES resolution = Ok delta -> 0 < delta.
Proof.
  intros H. apply table_get_in in H. simpl in H.
  repeat destruct H as [[= <- <-] | H]; lia || contradiction.
Qed.

Lemma windows_tile fuel delta current end_dt :
  0 < delta ->
  valid_datetime current ->
  valid_datetime end_dt ->
  dt_to_us end_dt - dt_to_us current <= Z.of_nat fuel * (delta * 60000000) ->
  tiles (delta * 60000000) (windows fuel delta current end_dt)
    (dt_to_us current) (dt_to_us end_dt).
Proof.
  intros Hd. revert current.
  induction fuel as [| fuel IH]; intros current Hc He Hfuel.
  - simpl in *. lia.
  - cbn [windows].
    destruct (dt_ltb current end_dt) eqn:Hlt.
    + apply (dt_ltb_instant current end_dt Hc He) in Hlt.
      pose proof (dt_add_seconds_instant current (delta * 60)) as Hnext.
      pose proof (dt_of_us_valid
                    (dt_to_us current + delta * 60 * 1000000)) as Hv.
      fold (dt_add_seconds current (delta * 60)) in Hv.
      destruct (dt_ltb end_dt (dt_add_seconds current (delta * 60)))
        eqn:Hclip.
      * apply (dt_ltb_instant _ _ He Hv) in Hclip.
        cbn [tiles]. split; [reflexivity |].
        split; [lia |]. split; [lia |]. split; [lia |].
        apply IH; [exact He | exact He | nia].
      * assert (Hge : dt_to_us (dt_add_seconds current (delta * 60))
                      <= dt_to_us end_dt).
        { destruct (Z_lt_le_dec (dt_to_us end_dt)
                      (dt_to_us (dt_add_seconds current (delta * 60))))
            as [Hl | Hl]; [| exact Hl].
          apply (dt_ltb_instant _ _ He Hv) in Hl. congruence. }
        cbn [tiles]. split; [reflexivity |].
        split; [lia |]. split; [lia |]. split; [lia |].
        apply IH; [exact Hv | exact He | nia].
    + cbn [tiles].
      destruct (Z_lt_le_dec (dt_to_us current) (dt_to_us end_dt))
        as [Hl | Hl]; [| exact Hl].
      apply (dt_ltb_instant current end_dt Hc He) in Hl. congruence.
Qed.

Lemma rounds_enough delta start_dt end_dt :
  0 < delta ->
  dt_to_us end_dt - dt_to_us start_dt
  <= Z.of_nat (rounds delta start_dt end_dt) * (delta * 60000000).
Proof.
  intros Hd. unfold rounds.
  set (n := dt_to_us end_dt - dt_to_us start_dt).
  set (D := delta * 60000000).
  assert (HD : 0 < D) by (unfold D; lia).
  destruct (Z_lt_le_dec n 0) as [Hn | Hn].
  - assert (n / D + 1 <= 0).
    { assert (n / D < 0) by (apply Z.div_lt_upper_bound; lia). lia. }
    rewrite Z2Nat.nonpos by lia. simpl. lia.
  - assert (0 <= n / D) by (apply Z.div_pos; lia).
    rewrite Z2Nat.id by lia.
    pose proof (Z.mul_succ_div_gt n D HD). lia.
Qed.

Lemma tiles_in span ws a b x y :
  tiles span ws a b -> In (x, y) ws ->
  a <= dt_to_us x /\ 0 < dt_to_us y - dt_to_us x <= span
  /\ dt_to_us y <= b.
Proof.
  revert a. induction ws as [| [x' y'] ws IH]; intros a Ht Hin.
  - destruct Hin.
  - cbn [tiles] in Ht. destruct Ht as (Hx & Hy & Hs & _ & Hrest).
    destruct Hin as [[= -> ->] | Hin].
    + lia.
    + specialize (IH _ Hrest Hin). lia.
Qed.

Lemma tiles_length span ws a b :
  0 < span ->
  tiles span ws a b ->
  Z.of_nat (length ws) = Z.max 0 ((b - a + span - 1) / span).
Proof.
  intros Hs. revert a.
  induction ws as [| [x y] ws IH]; intros a Ht.
  - cbn [tiles] in Ht. simpl.
    assert ((b - a + span - 1) / span <= 0).
    { assert ((b - a + span - 1) / span < 1)
        by (apply Z.div_lt_upper_bound; lia). lia. }
    lia.
  - cbn [tiles] in Ht. destruct Ht as (Hx & Hy & Hle & Hfull & Hrest).
    specialize (IH _ Hrest). cbn [length]. rewrite Nat2Z.inj_succ, IH.
    destruct (Z_lt_le_dec (dt_to_us y) b) as [Hlt | Hge].
    + specialize (Hfull Hlt).
      replace (b - a + span - 1) with ((b - dt_to_us y + span - 1) + 1 * span)
        by lia.
      rewrite Z.div_add by lia.
      assert (0 <= (b - dt_to_us y + span - 1) / span)
        by (apply Z.div_pos; lia).
      lia.
    + assert (E : dt_to_us y = b) by lia. rewrite E.
      replace (b - b + span - 1) with (span - 1) by lia.
      rewrite (Z.div_small (span - 1) span) by lia.
      assert (E1 : (b - a + span - 1) / span = 1).
      { replace (b - a + span - 1) with ((b - a - 1) + 1 * span) by lia.
        rewrite Z.div_add by lia. rewrite Z.div_small by lia. lia. }
      rewrite E1. lia.
Qed.

(** The time by which [get_historical_prices] moves both ends of the
    range, in microseconds. *)
Lemma add_hours_instant t h :
  dt_to_us (add_hours t h) = dt_to_us t + round_half_even (h * 3600000000).
Proof. unfold add_hours. apply dt_to_us_of_us. Qed.

Lemma history_windows_tile_the_range_aux resolution start_dt end_dt offset
    delta :
  valid_datetime start_dt ->
  valid_datetime end_dt ->
  table_get CHUNK_MINUTES resolution = Ok delta ->
  exists ws,
    get_historical_prices_windows resolution start_dt end_dt offset = Ok ws
    /\ tiles (delta * 60000000) ws
         (dt_to_us start_dt
          + (if Qeq_bool offset 0 then 0
             else round_half_even (offset * 3600000000)))
         (dt_to_us end_dt
          + (if Qeq_bool offset 0 then 0
             else round_half_even (offset * 3600000000))).
Proof.
  intros Hs He Ht.
  pose proof (chunk_minutes_positive _ _ Ht) as Hd.
  unfold get_historical_prices_windows. rewrite Ht.
  eexists. split; [reflexivity |].
  destruct (Qeq_bool offset 0); cbn [negb].
  - rewrite !Z.add_0_r.
    apply windows_tile; [exact Hd | exact Hs | exact He |].
    apply rounds_enough. exact Hd.
  - rewrite <- !add_hours_instant.
    apply windows_tile;
      [exact Hd | apply dt_of_us_valid | apply dt_of_us_valid |].
    apply rounds_enough. exact Hd.
Qed.

(** For a resolution of the table, the download asks for windows that
    tile the range: the first starts at the start, each next one starts
    where the one before ends, every one but the last is exactly one
    chunk long and the last, no longer, ends at the end; their number is
    the range divided by the chunk, rounded up.  An empty or reversed
    range asks for nothing. *)
Theorem history_windows_tile_the_range resolution start_dt end_dt offset
    delta :
  valid_datetime start_dt ->
  valid_datetime end_dt ->
  table_get CHUNK_MINUTES resolution = Ok delta ->
  let shift :=
    if Qeq_bool offset 0 then 0
    else round_half_even (offset * 3600000000) in
  let a := dt_to_us start_dt + shift in
  let b := dt_to_us end_dt + shift in
  exists ws,
    get_historical_prices_windows resolution start_dt end_dt offset = Ok ws
    /\ tiles (delta * 60000000) ws a b
    /\ Z.of_nat (length ws) =
         Z.max 0 ((b - a + delta * 60000000 - 1) / (delta * 60000000)).
Proof.
  intros Hs He Ht shift a b.
  pose proof (chunk_minutes_positive _ _ Ht) as Hd.
  destruct (history_windows_tile_the_range_aux resolution start_dt end_dt
              offset delta Hs He Ht) as (ws & Hws & Htiles).
  exists ws. split; [exact Hws |]. split; [exact Htiles |].
  apply tiles_length; [lia | exact Htiles].
Qed.

Lemma history_windows_tile_the_range_witness :
  exists ws,
    get_historical_prices_windows "MINUTE" (Sample.at_ 0 0 0)
      (Sample.at_ 23 59 59) 0 = Ok ws
    /\ tiles (600 * 60000000) ws (dt_to_us (Sample.at_ 0 0 0) + 0)
         (dt_to_us (Sample.at_ 23 59 59) + 0)
    /\ Z.of_nat (length ws) =
         Z.max 0
           ((dt_to_us (Sample.at_ 23 59 59) + 0
             - (dt_to_us (Sample.at_ 0 0 0) + 0) + 600 * 60000000 - 1)
            / (600 * 60000000)).
Proof.
  apply (history_windows_tile_the_range "MINUTE" (Sample.at_ 0 0 0)
           (Sample.at_ 23 59 59) 0 600).
  - unfold valid_datetime; simpl; lia.
  - unfold valid_datetime; simpl; lia.
  - reflexivity.
Defined.

Lemma per_minute_of_chunk resolution delta :
  In (resolution, delta) CHUNK_MINUTES ->
  exists k,
    0 < k /\ delta <= 720 * k
    /\ table_get CANDLES_PER_MINUTE resolution = Ok (1 / inject_Z k)%Q.
Proof.
  simpl.
  intros [[= <- <-] | [[= <- <-] | [[= <- <-] | [[= <- <-] | [[= <- <-]
    | [[= <- <-] | [[= <- <-] | [[= <- <-] | []]]]]]]]].
  - exists 1. repeat split; lia.
  - exists 5. repeat split; lia.
  - exists 15. repeat split; lia.
  - exists 30. repeat split; lia.
  - exists 60. repeat split; lia.
  - exists 240. repeat split; lia.
  - exists 1440. repeat split; lia.
  - exists 10080. repeat split; lia.
Qed.

Lemma points_bound (n k : Z) :
  0 <= n -> 0 < k -> n <= 720 * k * 60000000 ->
  0 <= py_int (inject_Z n / 1000000 / 60 * (1 / inject_Z k)) <= 720.
Proof.
  intros Hn Hk Hle.
  set (v := (inject_Z n / 1000000 / 60 * (1 / inject_Z k))%Q).
  assert (E : (v == inject_Z n / inject_Z (60000000 * k))%Q).
  { unfold v. rewrite inject_Z_mult.
    field. change 0%Q with (inject_Z 0). rewrite inject_Z_injective. lia. }
  assert (H0 : (0 <= v)%Q).
  { rewrite E. apply Qle_shift_div_l.
    - change 0%Q with (inject_Z 0). rewrite <- Zlt_Qlt. lia.
    - rewrite Qmult_0_l. change 0%Q with (inject_Z 0).
      rewrite <- Zle_Qle. lia. }
  assert (H1 : (v <= inject_Z 720)%Q).
  { rewrite E. apply Qle_shift_div_r.
    - change 0%Q with (inject_Z 0). rewrite <- Zlt_Qlt. lia.
    - rewrite <- inject_Z_mult, <- Zle_Qle. lia. }
  unfold py_int.
  assert (Hb : Qle_bool 0 v = true) by (apply Qle_bool_iff; exact H0).
  rewrite Hb. split.
  - change 0 with (Qfloor (inject_Z 0)).
    apply Qfloor_resp_le. exact H0.
  - rewrite <- (Qfloor_Z 720). apply Qfloor_resp_le. exact H1.
Qed.

(** No request of a download asks for more than 725 points, nor for
    fewer than 5. *)
Theorem downloads_ask_for_at_most_725_points resolution start_dt end_dt
    offset ws x y :
  valid_datetime start_dt ->
  valid_datetime end_dt ->
  get_historical_prices_windows resolution start_dt end_dt offset = Ok ws ->
  In (x, y) ws ->
  exists params,
    _fetch_prices_params resolution x y = Ok params
    /\ 5 <= param_max params <= 725.
Proof.
  intros Hs He Hws Hin.
  destruct (table_get CHUNK_MINUTES resolution) as [delta | e] eqn:Ht;
    [| unfold get_historical_prices_windows in Hws; rewrite Ht in Hws;
       discriminate].
  destruct (history_windows_tile_the_range_aux resolution start_dt end_dt
              offset delta Hs He Ht) as (ws' & Hws' & Htiles).
  rewrite Hws in Hws'. injection Hws' as <-.
  destruct (tiles_in _ _ _ _ _ _ Htiles Hin) as (_ & Hlen & _).
  destruct (per_minute_of_chunk _ _ (table_get_in _ _ _ Ht))
    as (k & Hk & Hdk & Hcpm).
  unfold _fetch_prices_params. rewrite Hcpm.
  eexists. split; [reflexivity |]. cbn [param_max].
  unfold minutes_between.
  pose proof (points_bound (dt_to_us y - dt_to_us x) k) as Hpb.
  lia.
Qed.

Lemma downloads_ask_for_at_most_725_points_witness :
  exists params,
    _fetch_prices_params "MINUTE" (Sample.at_ 0 0 0) (Sample.at_ 10 0 0)
      = Ok params
    /\ 5 <= param_max params <= 725.
Proof.
  eapply (downloads_ask_for_at_most_725_points "MINUTE" (Sample.at_ 0 0 0)
            (Sample.at_ 23 59 59) 0).
  - unfold valid_datetime; simpl; lia.
  - unfold valid_datetime; simpl; lia.
  - vm_compute. reflexivity.
  - left. reflexivity.
Defined.

End HistoryProps.

(** ** CSV files with a schema *)

Module CsvProps.
Import CsvOps.

Section Values.

Context {value : Type}.
Variable isoformat : value -> option string.
Variable str : value -> string.

Lemma schema_check (fieldnames : list string) (row : gmap string value) :
  negb (bool_decide
          (list_to_set (C := gset string) fieldnames
             ∖ dom (_normalize_row isoformat row) = ∅))
  || negb (bool_decide
             (dom (_normalize_row isoformat row)
                ∖ list_to_set (C := gset string) fieldnames = ∅)) = false
  <-> forall k, k ∈ fieldnames <-> is_Some (row !! k).
Proof.
  rewrite orb_false_iff, !negb_false_iff, !bool_decide_eq_true.
  unfold _normalize_row. rewrite dom_fmap_L. split.
  - intros [H1 H2] k.
    rewrite <- elem_of_dom, <- (elem_of_list_to_set (C := gset string)).
    split; intros Hk.
    + destruct (decide (k ∈ dom row)) as [| Hn]; [assumption |].
      assert (Hd : k ∈ list_to_set (C := gset string) fieldnames ∖ dom row)
        by (apply elem_of_difference; auto).
      rewrite H1 in Hd. now apply not_elem_of_empty in Hd.
    + destruct (decide (k ∈ list_to_set (C := gset string) fieldnames))
        as [| Hn]; [assumption |].
      assert (Hd : k ∈ dom row ∖ list_to_set (C := gset string) fieldnames)
        by (apply elem_of_difference; auto).
      rewrite H2 in Hd. now apply not_elem_of_empty in Hd.
  - intros H. split; apply set_eq; intros k;
      rewrite elem_of_difference, elem_of_dom, elem_of_list_to_set, H;
      split; [tauto | intros Hk; now apply not_elem_of_empty in Hk
             | tauto | intros Hk; now apply not_elem_of_empty in Hk].
Qed.

Lemma fits_dom (ops : t) (row : gmap string value) :
  fits ops row <->
  exists fieldnames,
    schema ops = Some fieldnames /\ fieldnames <> []
    /\ dom row = list_to_set fieldnames.
Proof.
  unfold fits. split; intros (f & Hs & Hne & H); exists f;
    (split; [exact Hs |]); (split; [exact Hne |]).
  - apply set_eq. intros k.
    now rewrite elem_of_dom, elem_of_list_to_set, H.
  - intros k. now rewrite <- elem_of_dom, H, elem_of_list_to_set.
Qed.

(** A row that fits is written, with the header first when the file
    is new. *)
Lemma append_row_fits (ops : t) (row : gmap string value) (fs : files) :
  fits ops row ->
  append_row isoformat str true ops row fs =
    (Done tt, with_row isoformat str ops row fs).
Proof.
  intros (f & Hs & Hne & H). unfold append_row, with_row. rewrite Hs.
  destruct f as [| k0 f]; [contradiction |].
  apply (proj2 (schema_check _ _)) in H. rewrite H. cbn [negb default].
  destruct (fs !! path ops) as [old |] eqn:E; cbn [default].
  - rewrite bool_decide_eq_true_2 by eauto. reflexivity.
  - rewrite bool_decide_eq_false_2 by (intros [? [=]]). reflexivity.
Qed.

Lemma append_row_unwritable (ops : t) (row : gmap string value)
    (fs : files) :
  fits ops row ->
  append_row isoformat str false ops row fs = (Fault CsvIOError, fs).
Proof.
  intros (f & Hs & Hne & H). unfold append_row. rewrite Hs.
  destruct f as [| k0 f]; [contradiction |].
  apply (proj2 (schema_check _ _)) in H. rewrite H. reflexivity.
Qed.

Lemma append_row_misfit writable (ops : t) (row : gmap string value)
    (fs : files) :
  ~ fits ops row ->
  append_row isoformat str writable ops row fs = (Fault CsvSchemaError, fs).
Proof.
  intros Hn. unfold append_row.
  destruct (schema ops) as [[| k0 f] |] eqn:Hs; try reflexivity.
  destruct (negb _ || negb _) eqn:E; [reflexivity |].
  pose proof (proj1 (schema_check _ _) E) as Hk. contradiction Hn.
  exists (k0 :: f). split; [exact Hs |]. split; [discriminate | exact Hk].
Qed.

(** [append_row] writes exactly the rows whose keys are the columns of
    the schema: such a row is appended, after the header if the file
    is new; any other row, and any row when the schema is missing or
    empty, raises [CsvSchemaError] and leaves every file as it was. *)
Theorem append_row_enforces_the_schema writable (ops : t)
    (row : gmap string value) (fs : files) :
  (fits ops row ->
   append_row isoformat str true ops row fs =
     (Done tt, with_row isoformat str ops row fs)
   /\ append_row isoformat str false ops row fs = (Fault CsvIOError, fs))
  /\ (~ fits ops row ->
      append_row isoformat str writable ops row fs =
        (Fault CsvSchemaError, fs))
  /\ (fst (append_row isoformat str writable ops row fs) = Done tt ->
      fits ops row /\ writable = true).
Proof.
  split; [| split].
  - intros H. split;
      [now apply append_row_fits | now apply append_row_unwritable].
  - apply append_row_misfit.
  - intros H.
    destruct (schema ops) as [[| k0 f] |] eqn:Hs;
      try (unfold append_row in H; rewrite Hs in H; discriminate).
    unfold append_row in H. rewrite Hs in H.
    destruct (negb _ || negb _) eqn:E; [discriminate |].
    pose proof (proj1 (schema_check _ _) E) as Hk.
    destruct writable; [| discriminate].
    split; [| reflexivity].
    exists (k0 :: f). split; [exact Hs |]. split; [discriminate | exact Hk].
Qed.

(** The rows of a batch are written one by one: the rows in front of
    the first one that does not fit stay in the file although the call
    raises, and the rows behind it are not looked at. *)
Theorem append_rows_stops_at_the_first_misfit (ops : t)
    (good rest : list (gmap string value)) (bad : gmap string value)
    (fs : files) :
  Forall (fits ops) good ->
  ~ fits ops bad ->
  append_rows isoformat str true ops good fs =
    (Done tt, foldl (fun fs row => with_row isoformat str ops row fs) fs good)
  /\ append_rows isoformat str true ops (good ++ bad :: rest) fs =
       (Fault CsvSchemaError,
        foldl (fun fs row => with_row isoformat str ops row fs) fs good).
Proof.
  intros Hgood Hbad. revert fs.
  induction Hgood as [| row good Hrow Hgood IH]; intros fs.
  - split; [reflexivity |]. cbn [app append_rows foldl]. unfold wbind.
    now rewrite (append_row_misfit true ops bad fs Hbad).
  - cbn [app append_rows foldl]. unfold wbind.
    rewrite (append_row_fits ops row fs Hrow). apply IH.
Qed.

Lemma record_of_length (fieldnames : list string)
    (row : gmap string (string + value)) :
  length (record_of str fieldnames row) = length fieldnames.
Proof. unfold record_of. apply length_fmap. Qed.

Lemma append_row_rectangular writable (ops : t) (row : gmap string value)
    (fs : files) :
  heads ops fs -> rectangular fs (path ops) ->
  let fs' := snd (append_row isoformat str writable ops row fs) in
  heads ops fs' /\ rectangular fs' (path ops)
  /\ forall p, p <> path ops -> fs' !! p = fs !! p.
Proof.
  intros Hh Hr.
  destruct (append_row isoformat str writable ops row fs) as [out fs']
    eqn:E.
  cbn [snd].
  assert (Hcases : fs' = fs \/
            (fits ops row /\ fs' = with_row isoformat str ops row fs)).
  { destruct (schema ops) as [[| k0 f] |] eqn:Hs;
      try (unfold append_row in E; rewrite Hs in E;
           injection E as <- <-; now left).
    unfold append_row in E. rewrite Hs in E.
    destruct (negb _ || negb _) eqn:Hc; [injection E as <- <-; now left |].
    pose proof (proj1 (schema_check _ _) Hc) as Hk.
    assert (Hfit : fits ops row).
    { exists (k0 :: f). split; [exact Hs |]. split; [discriminate | exact Hk]. }
    destruct writable; [| injection E as <- <-; now left].
    right. split; [exact Hfit |].
    pose proof (append_row_fits ops row fs Hfit) as E'.
    unfold append_row in E'. rewrite Hs, Hc in E'.
    cbn [negb] in E, E'. rewrite E' in E. now injection E as <-. }
  destruct Hcases as [-> | [(f & Hs & Hne & _) ->]]; [auto |].
  unfold heads, rectangular, with_row in *.
  rewrite Hs. cbn [default]. unfold id.
  rewrite !(lookup_insert_eq fs (path ops)).
  split; [| split].
  - destruct (fs !! path ops) as [[| header records] |]; cbn [default app];
      [contradiction | congruence | reflexivity].
  - destruct (fs !! path ops) as [[| header records] |]; cbn [default app].
    + contradiction.
    + apply Forall_app. split; [exact Hr |].
      apply Forall_cons. split; [| apply Forall_nil; exact I].
      rewrite record_of_length. congruence.
    + apply Forall_cons. split; [| apply Forall_nil; exact I].
      apply record_of_length.
  - intros p Hp. now rewrite (lookup_insert_ne fs (path ops) p) by congruence.
Qed.

Lemma append_rows_rectangular writable (ops : t)
    (rows : list (gmap string value)) (fs : files) :
  heads ops fs -> rectangular fs (path ops) ->
  let fs' := snd (append_rows isoformat str writable ops rows fs) in
  heads ops fs' /\ rectangular fs' (path ops)
  /\ forall p, p <> path ops -> fs' !! p = fs !! p.
Proof.
  revert fs. induction rows as [| row rows IH]; intros fs Hh Hr.
  - simpl. auto.
  - cbn [append_rows]. unfold wbind.
    pose proof (append_row_rectangular writable ops row fs Hh Hr) as H.
    destruct (append_row isoformat str writable ops row fs) as [[[] | e] fs1].
    + cbn [snd] in H. destruct H as (Hh1 & Hr1 & Hp1).
      destruct (IH fs1 Hh1 Hr1) as (Hh2 & Hr2 & Hp2).
      split; [exact Hh2 |]. split; [exact Hr2 |].
      intros p Hp. now rewrite Hp2, Hp1.
    + exact H.
Qed.

(** A file that is read and written through one [CsvOps] object stays
    rectangular: when pandas takes the header as it stands, every
    record that [append_rows] adds has one cell for each column of the
    header, whatever the rows and whether or not the call raises; the
    header stays and no other file is touched. *)
Theorem csv_files_stay_rectangular (columns : list string -> list string)
    writable (p : string) (given : option (list string)) (ops : t)
    (rows : list (gmap string value)) (fs : files) :
  fst (init columns p given fs) = Done ops ->
  (forall header records,
     fs !! p = Some (header :: records) -> columns header = header) ->
  rectangular fs p ->
  let fs' := snd (append_rows isoformat str writable ops rows fs) in
  rectangular fs' p
  /\ heads ops fs'
  /\ forall q, q <> p -> fs' !! q = fs !! q.
Proof.
  intros Hi Hcol Hr.
  assert (Hops : path ops = p /\ heads ops fs).
  { unfold init, _load_schema_from_file, wbind, heads in *.
    destruct (fs !! p) as [[| header records] |] eqn:E; cbn in Hi.
    - discriminate.
    - injection Hi as <-. cbn [path schema]. rewrite E.
      split; [reflexivity |]. now rewrite (Hcol header records eq_refl).
    - destruct given as [g |]; [| discriminate].
      injection Hi as <-. cbn [path]. now rewrite E. }
  destruct Hops as [<- Hh].
  destruct (append_rows_rectangular writable ops rows fs Hh Hr)
    as (H1 & H2 & H3).
  auto.
Qed.

End Values.

Lemma append_row_enforces_the_schema_witness :
  append_row Sample.no_isoformat Sample.as_it_is true Sample.book
    Sample.short_row ∅ = (Fault CsvSchemaError, ∅).
Proof.
  apply (proj1 (proj2 (append_row_enforces_the_schema Sample.no_isoformat
                         Sample.as_it_is true Sample.book Sample.short_row
                         ∅))).
  intros H. apply fits_dom in H as (f & [= <-] & _ & H).
  pose proof (bool_decide_pack _ H) as Hd. vm_compute in Hd. exact Hd.
Defined.

Lemma append_rows_stops_at_the_first_misfit_witness :
  append_rows Sample.no_isoformat Sample.as_it_is true Sample.book
    [Sample.good_row; Sample.short_row; Sample.good_row] ∅
  = (Fault CsvSchemaError,
     {[ "book.csv" := [ ["day"; "price"]; ["Wed"; "100"] ] ]}).
Proof.
  assert (Hgood : fits Sample.book Sample.good_row).
  { apply fits_dom. exists ["day"; "price"].
    split; [reflexivity |]. split; [discriminate |].
    refine (bool_decide_unpack _ _). vm_compute. exact I. }
  assert (Hbad : ~ fits Sample.book Sample.short_row).
  { intros H. apply fits_dom in H as (f & [= <-] & _ & H).
    pose proof (bool_decide_pack _ H) as Hd. vm_compute in Hd. exact Hd. }
  rewrite (proj2 (append_rows_stops_at_the_first_misfit
                    Sample.no_isoformat Sample.as_it_is Sample.book
                    [Sample.good_row] [Sample.good_row] Sample.short_row ∅
                    (Forall_cons_2 _ _ _ Hgood (Forall_nil_2 _)) Hbad)).
  reflexivity.
Defined.

Lemma csv_files_stay_rectangular_witness :
  rectangular
    (snd (append_rows Sample.no_isoformat Sample.as_it_is true Sample.book
            [Sample.good_row; Sample.short_row] ∅)) "book.csv".
Proof.
  apply (csv_files_stay_rectangular Sample.no_isoformat Sample.as_it_is
           (fun header => header) true "book.csv" (Some ["day"; "price"])
           Sample.book [Sample.good_row; Sample.short_row] ∅).
  - reflexivity.
  - intros header records H. reflexivity.
  - exact I.
Defined.

End CsvProps.

(** ** The tick callback of the bot *)

Module BotProps.
Import YesterdayHighLowStrategy CapitalClient AlgoTrader.
Import StrategyProps OrderProps.

(** What a SIGNAL answer carries. *)
Lemma signal_order levels c s sig s' :
  on_candle_close levels c s = (Ok sig, s') ->
  is_signal sig = true ->
  s' = locked s
  /\ exists o,
       order_of sig = Some o
       /\ (0 < size o)%Q
       /\ level o = open c
       /\ orderType o = "STOP"
       /\ order_direction o = direction s.
Proof.
  intros H Hsig.
  branches H; inversion H; subst; clear H;
    try (unfold is_signal in Hsig; simpl in Hsig; discriminate).
  all: split; [reflexivity |]; eexists; split; [reflexivity |];
    cbn [size level orderType order_direction];
    match goal with
    | E : Qle_bool _ 0 = false |- _ => apply Qle_bool_false in E
    end; auto.
Qed.

Lemma order_requests_app (w : wire) (l : list request) :
  List.filter (fun r => String.eqb (http_path r) "/workingorders")
    (sent w ++ l) =
  order_requests w ++
    List.filter (fun r => String.eqb (http_path r) "/workingorders") l.
Proof. unfold order_requests. apply List.filter_app. Qed.

(** The two ways [create_working_order] can end: without a request
    for a working order, or with exactly one. *)
Lemma create_outcomes iso now lr reply x w :
  (exists e,
     fst (create_working_order iso now lr reply x w) = Fault (Builtin e)
     /\ order_requests (snd (create_working_order iso now lr reply x w)) =
          order_requests w)
  \/ (exists r,
        order_requests (snd (create_working_order iso now lr reply x w)) =
          order_requests w ++ [r]
        /\ fst (create_working_order iso now lr reply x w) =
             match reply with
             | Some response => Done (add_order_id response)
             | None => Fault HTTPError
             end).
Proof.
  unfold create_working_order, wbind, checked.
  destruct (validate_create iso x) as [[] | e]; [| left; eauto].
  destruct (exchange_cases now lr reply "POST" "/workingorders"
              (create_body x) w)
    as [(e & w1 & H & ->) | (h & w1 & H & ->)].
  - left. exists e. split; [reflexivity |]. cbn [snd].
    apply headers_raise in H as (_ & _ & renewal & Hs & Hr).
    unfold order_requests at 1. rewrite Hs, order_requests_app.
    destruct Hr as [-> | ->]; cbn; apply app_nil_r.
  - right. eexists.
    split; [| destruct reply; reflexivity].
    apply headers_ok in H as (_ & _ & _ & Hs).
    assert (E : order_requests
                  {| session := session w1;
                     sent := sent w1 ++
                       [ {| http_method := "POST";
                            http_path := "/workingorders";
                            http_headers := h;
                            http_json := create_body x |} ] |} =
                order_requests w ++
                  [ {| http_method := "POST";
                       http_path := "/workingorders";
                       http_headers := h;
                       http_json := create_body x |} ]).
    { unfold order_requests at 1. cbn [sent].
      rewrite Hs, <- app_assoc, order_requests_app.
      destruct (_is_session_valid now (session w)); reflexivity. }
    destruct reply; exact E.
Qed.

Lemma app_one_neq {A : Type} (l : list A) (x : A) : l ++ [x] <> l.
Proof.
  intros H. apply (f_equal (@length A)) in H.
  rewrite length_app in H. simpl in H. lia.
Qed.

Ltac bot_fields :=
  cbn [snd fst disk client strategy candle_aggregator with_aggregator
       with_strategy with_client with_disk done].

(** The callback never writes the trade book, nor any other file
    through [CsvOps].  When it has sent anything to the broker it ends
    in an error; when what it has sent includes a request for a working
    order, the error is the HTTP error if the broker refused the order,
    and a [TypeError] if the broker accepted it, because the setup
    candles that the trade record asks for have been reset by then. *)
Theorem trade_book_is_never_written (e : env) (tk : tick) (b : bot) :
  disk (snd (on_tick_received e tk b)) = disk b
  /\ (sent (client (snd (on_tick_received e tk b))) <> sent (client b) ->
      exists err, fst (on_tick_received e tk b) = Fault err)
  /\ (order_requests (client (snd (on_tick_received e tk b)))
        <> order_requests (client b) ->
      (env_reply e = None
       /\ fst (on_tick_received e tk b) = Fault HTTPError)
      \/ (is_Some (env_reply e)
          /\ fst (on_tick_received e tk b) = Fault (Builtin TypeError))).
Proof.
  unfold on_tick_received, wbind, lift, zoom.
  destruct (CandleAggregator.process_tick (env_now e) tk
              (candle_aggregator b)) as [[[closed |] | err] a'];
    bot_fields;
    try (split; [reflexivity | split; intros H; now contradiction H]).
  destruct (on_candle_close (env_levels e) closed (strategy b))
    as [[sig | err] s'] eqn:Hs;
    bot_fields;
    try (split; [reflexivity | split; intros H; now contradiction H]).
  destruct (is_signal sig) eqn:Hsig;
    bot_fields;
    try (split; [reflexivity | split; intros H; now contradiction H]).
  destruct (signal_order _ _ _ _ _ Hs Hsig) as (-> & o & Ho & _).
  rewrite Ho. unfold done at 1. bot_fields.
  pose proof (create_outcomes (env_fromisoformat e) (env_now e)
                (env_login_reply e) (env_reply e) (order_args_of o)
                (client b)) as Hc.
  destruct (create_working_order (env_fromisoformat e) (env_now e)
              (env_login_reply e) (env_reply e) (order_args_of o)
              (client b)) as [[response | err] w'];
    cbn [snd fst] in Hc; bot_fields;
    cbn [locked with_setup c1 start_time_of fault]; bot_fields.
  - split; [reflexivity |]. split; [intros _; eauto |].
    intros _. right.
    destruct Hc as [(e' & [=] & _) | (r & _ & Hr)].
    destruct (env_reply e); [| discriminate]. split; [eauto | reflexivity].
  - split; [reflexivity |]. split; [intros _; eauto |].
    intros Hsent.
    destruct Hc as [(e' & _ & Hsame) | (r & _ & Hr)];
      [now contradiction Hsent |].
    destruct (env_reply e); [discriminate |]. left. split; congruence.
Qed.

Lemma trade_book_is_never_written_witness :
  fst (on_tick_received Sample.calm Sample.closing_tick Sample.trader)
    = Fault (Builtin TypeError).
Proof.
  destruct (proj2 (proj2 (trade_book_is_never_written Sample.calm
                            Sample.closing_tick Sample.trader)))
    as [[H _] | [_ H]].
  - vm_compute. discriminate.
  - discriminate H.
  - exact H.
Defined.



End BotProps.
